(** * Flight alert: the geo provider, the type resolver and the alert engine

    A shallow embedding of [lib/opensky-api.ts], [lib/hexdb-api.ts] and
    [hooks/use-flight-tracker.ts].

    Conventions of the embedding.
    - A JavaScript [number] is a real number: the feed and the set-up form
      only deliver finite numbers, and rounding is not represented.
    - An optional property ([x?: T]) is an [option]; [undefined] is [None].
    - An awaited network call is a function of its request, given as an
      argument; a call that rejects is a constructor of its reply type.
    - [Set<string>] is [gset string] and [Map<string, V>] is [gmap string V]. *)

From Stdlib Require Import Reals Lra Ascii.
From stdpp Require Import gmap strings list.

Local Open Scope string_scope.

(** ** JavaScript truthiness and the [||] idiom *)

(** [!!x] for a number: every number but [0] is truthy. *)
Definition truthy (x : R) : bool := if Req_EM_T x 0 then false else true.

(** [!!s] for a string: every string but the empty one is truthy. *)
Definition truthyStr (s : string) : bool := negb (String.eqb s "").

(** An element of a parsed JSON array at a fixed position: the position can
    be past the end of the array, hold [null], or hold a value. *)
Inductive Raw (A : Type) : Type :=
  | Absent : Raw A
  | Null : Raw A
  | Val : A -> Raw A.
Arguments Absent {A}.
Arguments Null {A}.
Arguments Val {A} _.

(** [raw || undefined] at a numeric position. *)
Definition numOrUndefined (raw : Raw R) : option R :=
  match raw with
  | Val x => if truthy x then Some x else None
  | _ => None
  end.

(** [raw || undefined] at a string position. *)
Definition strOrUndefined (raw : Raw string) : option string :=
  match raw with
  | Val s => if truthyStr s then Some s else None
  | _ => None
  end.

(** [raw || undefined] at an array position: every array is truthy. *)
Definition arrOrUndefined {A} (raw : Raw (list A)) : option (list A) :=
  match raw with
  | Val l => Some l
  | _ => None
  end.

(** [o || d] for an optional string. *)
Definition strOr (o : option string) (d : string) : string :=
  match o with
  | Some s => if truthyStr s then s else d
  | None => d
  end.

(** [String.prototype.trim] on the ASCII white space and line terminators
    (tab, line feed, vertical tab, form feed, carriage return, space). *)
Definition isSpace (c : ascii) : bool :=
  let n := nat_of_ascii c in
  (Nat.leb 9 n && Nat.leb n 13) || Nat.eqb n 32.

Fixpoint trimStart (s : string) : string :=
  match s with
  | String c s' => if isSpace c then trimStart s' else s
  | EmptyString => EmptyString
  end.

Definition trim (s : string) : string :=
  String.rev (trimStart (String.rev (trimStart s))).

(** ** [lib/opensky-api.ts]: the geo provider *)

Module OpenSky.

(** [interface Aircraft] *)
Record Aircraft : Type := {
  icao24 : string;
  callsign : option string;
  origin_country : string;
  time_position : option R;
  last_contact : R;
  longitude : option R;
  latitude : option R;
  baro_altitude : option R;
  on_ground : bool;
  velocity : option R;
  true_track : option R;
  vertical_rate : option R;
  sensors : option (list R);
  geo_altitude : option R;
  squawk : option string;
  spi : bool;
  position_source : R;
  category : option R
}.

(** One element of [StateVector.states]: the positional array of the feed,
    [state_k] being the element at index [k]. The element types are those of
    the feed: a number, a string, a flag or a list of numbers, each nullable
    where the feed says so. *)
Record State : Type := {
  state_0 : string;
  state_1 : Raw string;
  state_2 : string;
  state_3 : Raw R;
  state_4 : R;
  state_5 : Raw R;
  state_6 : Raw R;
  state_7 : Raw R;
  state_8 : bool;
  state_9 : Raw R;
  state_10 : Raw R;
  state_11 : Raw R;
  state_12 : Raw (list R);
  state_13 : Raw R;
  state_14 : Raw string;
  state_15 : bool;
  state_16 : R;
  state_17 : Raw R
}.

(** [interface BoundingBox] *)
Record BoundingBox : Type := {
  latMin : R;
  latMax : R;
  lonMin : R;
  lonMax : R
}.

(** [interface FlightAlert]; [alert_latitude] is its [latitude], and so on. *)
Record FlightAlert : Type := {
  alert_id : string;
  alert_latitude : R;
  alert_longitude : R;
  radius : R;
  aircraftModels : list string;
  active : bool
}.

(** [state[1]?.trim() || undefined] *)
Definition parseCallsign (raw : Raw string) : option string :=
  match raw with
  | Val s => if truthyStr (trim s) then Some (trim s) else None
  | _ => None
  end.

Definition parseAircraft (state : State) : Aircraft :=
  {| icao24 := state_0 state;
     callsign := parseCallsign (state_1 state);
     origin_country := state_2 state;
     time_position := numOrUndefined (state_3 state);
     last_contact := state_4 state;
     longitude := numOrUndefined (state_5 state);
     latitude := numOrUndefined (state_6 state);
     baro_altitude := numOrUndefined (state_7 state);
     on_ground := state_8 state;
     velocity := numOrUndefined (state_9 state);
     true_track := numOrUndefined (state_10 state);
     vertical_rate := numOrUndefined (state_11 state);
     sensors := arrOrUndefined (state_12 state);
     geo_altitude := numOrUndefined (state_13 state);
     squawk := strOrUndefined (state_14 state);
     spi := state_15 state;
     position_source := state_16 state;
     category := numOrUndefined (state_17 state) |}.

(** The body of a reply of [GET /states/all]: [interface StateVector], whose
    [states] is [null] when the box is empty. *)
Record StateVector : Type := {
  time : R;
  states : option (list State)
}.

(** What [await axios.get(...)] does for the states request: it rejects, or
    it resolves to a response whose [data] may be missing. *)
Inductive StatesReply : Type :=
  | StatesRejected : StatesReply
  | StatesResponse : option StateVector -> StatesReply.

(** The geo feed, as a function of the [params] of the request. *)
Definition GeoFeed : Type := BoundingBox -> StatesReply.

Definition getStatesInArea (feed : GeoFeed) (boundingBox : BoundingBox)
  : list Aircraft :=
  match feed boundingBox with
  | StatesResponse (Some data) =>
      match states data with
      | Some sts => List.map parseAircraft sts
      | None => []
      end
  | StatesResponse None => []
  | StatesRejected => []
  end.

Local Open Scope R_scope.

Definition calculateBoundingBox (lat lon radiusKm : R) : BoundingBox :=
  let latPerKm := 1 / 111.32 in
  let lonPerKm := 1 / (111.32 * cos (lat * PI / 180)) in
  let latDelta := radiusKm * latPerKm in
  let lonDelta := radiusKm * lonPerKm in
  {| latMin := lat - latDelta;
     latMax := lat + latDelta;
     lonMin := lon - lonDelta;
     lonMax := lon + lonDelta |}.

(** [Math.atan2 y x]: the angle of the point [(x, y)], in [(-PI, PI]]. *)
Definition atan2 (y x : R) : R :=
  if Rlt_dec 0 x then atan (y / x)
  else if Rlt_dec x 0 then
    if Rle_dec 0 y then atan (y / x) + PI else atan (y / x) - PI
  else if Rlt_dec 0 y then PI / 2
  else if Rlt_dec y 0 then - (PI / 2)
  else 0.

Definition calculateDistance (lat1 lon1 lat2 lon2 : R) : R :=
  let R := 6371 in
  let dLat := (lat2 - lat1) * PI / 180 in
  let dLon := (lon2 - lon1) * PI / 180 in
  let a :=
    sin (dLat / 2) * sin (dLat / 2) +
    cos (lat1 * PI / 180) * cos (lat2 * PI / 180) *
    sin (dLon / 2) * sin (dLon / 2) in
  let c := 2 * atan2 (sqrt a) (sqrt (1 - a)) in
  R * c.

(** [distance <= radiusKm] *)
Definition leR (x y : R) : bool := if Rle_dec x y then true else false.

(** The callback of the [filter] of [getAircraftInRadius]; it returns [false]
    when [!plane.latitude || !plane.longitude]: a coordinate is missing or 0. *)
Definition inRadius (lat lon radiusKm : R) (plane : Aircraft) : bool :=
  match latitude plane, longitude plane with
  | Some planeLat, Some planeLon =>
      if negb (truthy planeLat) || negb (truthy planeLon) then false
      else
        let distance := calculateDistance lat lon planeLat planeLon in
        leR distance radiusKm
  | _, _ => false
  end.

Definition getAircraftInRadius (feed : GeoFeed) (lat lon radiusKm : R)
  : list Aircraft :=
  let boundingBox := calculateBoundingBox lat lon radiusKm in
  let aircraft := getStatesInArea feed boundingBox in
  List.filter (inRadius lat lon radiusKm) aircraft.

Local Close Scope R_scope.

(** The values of the record [AIRCRAFT_MODELS]. *)
Record ModelInfo : Type := {
  name : string;
  icao24Prefixes : list string
}.

(** [table[key]] on an object literal, given as its entries in source order;
    only the literal's own properties are represented. *)
Definition property {V} (table : list (string * V)) (key : string) : option V :=
  snd <$> List.find (fun entry => String.eqb (fst entry) key) table.

Definition AIRCRAFT_MODELS : list (string * ModelInfo) :=
  [
    ("B707", {| name := "Boeing 707"; icao24Prefixes := ["B703"; "B707"; "B720"] |});
    ("B717", {| name := "Boeing 717"; icao24Prefixes := ["B712"; "B717"] |});
    ("B727", {| name := "Boeing 727"; icao24Prefixes := ["B721"; "B722"; "B727"] |});
    ("B737", {| name := "Boeing 737"; icao24Prefixes := ["B731"; "B732"; "B733"; "B734"; "B735"; "B736"; "B737"; "B738"; "B739"; "B37M"; "B38M"; "B39M"; "B3XM"] |});
    ("B747", {| name := "Boeing 747"; icao24Prefixes := ["B741"; "B742"; "B743"; "B744"; "B748"; "B74S"; "B74R"; "BLCF"] |});
    ("B757", {| name := "Boeing 757"; icao24Prefixes := ["B752"; "B753"] |});
    ("B767", {| name := "Boeing 767"; icao24Prefixes := ["B762"; "B763"; "B764"] |});
    ("B777", {| name := "Boeing 777"; icao24Prefixes := ["B772"; "B773"; "B77L"; "B77W"; "B779"; "B77X"] |});
    ("B787", {| name := "Boeing 787 Dreamliner"; icao24Prefixes := ["B788"; "B789"; "B78X"] |});
    ("A220", {| name := "Airbus A220"; icao24Prefixes := ["BCS1"; "BCS3"; "A221"; "A223"] |});
    ("A300", {| name := "Airbus A300"; icao24Prefixes := ["A30B"; "A306"; "A3ST"] |});
    ("A310", {| name := "Airbus A310"; icao24Prefixes := ["A310"; "A306"] |});
    ("A318", {| name := "Airbus A318"; icao24Prefixes := ["A318"] |});
    ("A319", {| name := "Airbus A319"; icao24Prefixes := ["A319"; "A19N"] |});
    ("A320", {| name := "Airbus A320"; icao24Prefixes := ["A320"; "A20N"] |});
    ("A321", {| name := "Airbus A321"; icao24Prefixes := ["A321"; "A21N"] |});
    ("A330", {| name := "Airbus A330"; icao24Prefixes := ["A332"; "A333"; "A338"; "A339"] |});
    ("A340", {| name := "Airbus A340"; icao24Prefixes := ["A342"; "A343"; "A345"; "A346"] |});
    ("A350", {| name := "Airbus A350"; icao24Prefixes := ["A359"; "A35K"] |});
    ("A380", {| name := "Airbus A380"; icao24Prefixes := ["A388"] |});
    ("A400M", {| name := "Airbus A400M Atlas"; icao24Prefixes := ["A400"] |});
    ("E120", {| name := "Embraer EMB-120 Brasilia"; icao24Prefixes := ["E120"] |});
    ("E135", {| name := "Embraer ERJ-135"; icao24Prefixes := ["E135"] |});
    ("E145", {| name := "Embraer ERJ-145"; icao24Prefixes := ["E145"] |});
    ("E170", {| name := "Embraer E-Jet E170"; icao24Prefixes := ["E170"] |});
    ("E175", {| name := "Embraer E-Jet E175"; icao24Prefixes := ["E175"] |});
    ("E190", {| name := "Embraer E-Jet E190"; icao24Prefixes := ["E190"] |});
    ("E195", {| name := "Embraer E-Jet E195"; icao24Prefixes := ["E195"] |});
    ("E290", {| name := "Embraer E190-E2"; icao24Prefixes := ["E290"] |});
    ("E295", {| name := "Embraer E195-E2"; icao24Prefixes := ["E295"] |});
    ("CRJ1", {| name := "Bombardier CRJ100"; icao24Prefixes := ["CRJ1"] |});
    ("CRJ2", {| name := "Bombardier CRJ200"; icao24Prefixes := ["CRJ2"] |});
    ("CRJ7", {| name := "Bombardier CRJ700"; icao24Prefixes := ["CRJ7"] |});
    ("CRJ9", {| name := "Bombardier CRJ900"; icao24Prefixes := ["CRJ9"] |});
    ("CRJX", {| name := "Bombardier CRJ1000"; icao24Prefixes := ["CRJX"] |});
    ("DH8A", {| name := "Bombardier Dash 8-100"; icao24Prefixes := ["DH8A"] |});
    ("DH8B", {| name := "Bombardier Dash 8-200"; icao24Prefixes := ["DH8B"] |});
    ("DH8C", {| name := "Bombardier Dash 8-300"; icao24Prefixes := ["DH8C"] |});
    ("DH8D", {| name := "Bombardier Dash 8-400"; icao24Prefixes := ["DH8D"] |});
    ("AT42", {| name := "ATR 42"; icao24Prefixes := ["AT42"] |});
    ("AT43", {| name := "ATR 42-300"; icao24Prefixes := ["AT43"] |});
    ("AT44", {| name := "ATR 42-400"; icao24Prefixes := ["AT44"] |});
    ("AT45", {| name := "ATR 42-500"; icao24Prefixes := ["AT45"] |});
    ("AT46", {| name := "ATR 42-600"; icao24Prefixes := ["AT46"] |});
    ("AT72", {| name := "ATR 72"; icao24Prefixes := ["AT72"] |});
    ("AT73", {| name := "ATR 72-500"; icao24Prefixes := ["AT73"] |});
    ("AT75", {| name := "ATR 72-600"; icao24Prefixes := ["AT75"] |});
    ("F27", {| name := "Fokker 27"; icao24Prefixes := ["F27"] |});
    ("F28", {| name := "Fokker 28"; icao24Prefixes := ["F28"] |});
    ("F50", {| name := "Fokker 50"; icao24Prefixes := ["F50"] |});
    ("F70", {| name := "Fokker 70"; icao24Prefixes := ["F70"] |});
    ("F100", {| name := "Fokker 100"; icao24Prefixes := ["F100"] |});
    ("DC3", {| name := "Douglas DC-3"; icao24Prefixes := ["DC3"] |});
    ("DC6", {| name := "Douglas DC-6"; icao24Prefixes := ["DC6"] |});
    ("DC8", {| name := "Douglas DC-8"; icao24Prefixes := ["DC81"; "DC82"; "DC83"; "DC86"; "DC87"] |});
    ("DC9", {| name := "Douglas DC-9"; icao24Prefixes := ["DC91"; "DC92"; "DC93"; "DC94"; "DC95"] |});
    ("MD11", {| name := "McDonnell Douglas MD-11"; icao24Prefixes := ["MD11"] |});
    ("MD80", {| name := "McDonnell Douglas MD-80"; icao24Prefixes := ["MD81"; "MD82"; "MD83"; "MD87"; "MD88"] |});
    ("MD90", {| name := "McDonnell Douglas MD-90"; icao24Prefixes := ["MD90"] |});
    ("L188", {| name := "Lockheed Electra"; icao24Prefixes := ["L188"] |});
    ("L1011", {| name := "Lockheed L-1011 TriStar"; icao24Prefixes := ["L101"] |});
    ("C130", {| name := "Lockheed C-130 Hercules"; icao24Prefixes := ["C130"; "L382"] |});
    ("C25A", {| name := "Cessna Citation CJ2"; icao24Prefixes := ["C25A"] |});
    ("C25B", {| name := "Cessna Citation CJ3"; icao24Prefixes := ["C25B"] |});
    ("C25C", {| name := "Cessna Citation CJ4"; icao24Prefixes := ["C25C"] |});
    ("C510", {| name := "Cessna Citation Mustang"; icao24Prefixes := ["C510"] |});
    ("C525", {| name := "Cessna Citation CJ1"; icao24Prefixes := ["C525"] |});
    ("C550", {| name := "Cessna Citation II"; icao24Prefixes := ["C550"] |});
    ("C560", {| name := "Cessna Citation V"; icao24Prefixes := ["C560"] |});
    ("C680", {| name := "Cessna Citation Sovereign"; icao24Prefixes := ["C680"] |});
    ("C750", {| name := "Cessna Citation X"; icao24Prefixes := ["C750"] |});
    ("GLF4", {| name := "Gulfstream IV"; icao24Prefixes := ["GLF4"] |});
    ("GLF5", {| name := "Gulfstream V"; icao24Prefixes := ["GLF5"] |});
    ("GLF6", {| name := "Gulfstream G650"; icao24Prefixes := ["GLF6"] |});
    ("H25B", {| name := "Hawker 800"; icao24Prefixes := ["H25B"] |});
    ("LJ35", {| name := "Learjet 35"; icao24Prefixes := ["LJ35"] |});
    ("LJ45", {| name := "Learjet 45"; icao24Prefixes := ["LJ45"] |});
    ("LJ60", {| name := "Learjet 60"; icao24Prefixes := ["LJ60"] |});
    ("C172", {| name := "Cessna 172"; icao24Prefixes := ["C172"] |});
    ("C182", {| name := "Cessna 182"; icao24Prefixes := ["C182"] |});
    ("C206", {| name := "Cessna 206"; icao24Prefixes := ["C206"] |});
    ("C208", {| name := "Cessna 208 Caravan"; icao24Prefixes := ["C208"] |});
    ("PA28", {| name := "Piper Cherokee"; icao24Prefixes := ["PA28"] |});
    ("PA31", {| name := "Piper Navajo"; icao24Prefixes := ["PA31"] |});
    ("PA46", {| name := "Piper Malibu"; icao24Prefixes := ["PA46"] |});
    ("BE20", {| name := "Beechcraft King Air"; icao24Prefixes := ["BE20"] |});
    ("BE36", {| name := "Beechcraft Bonanza"; icao24Prefixes := ["BE36"] |});
    ("BE58", {| name := "Beechcraft Baron"; icao24Prefixes := ["BE58"] |});
    ("AN12", {| name := "Antonov An-12"; icao24Prefixes := ["AN12"] |});
    ("AN22", {| name := "Antonov An-22"; icao24Prefixes := ["AN22"] |});
    ("AN24", {| name := "Antonov An-24"; icao24Prefixes := ["AN24"] |});
    ("AN26", {| name := "Antonov An-26"; icao24Prefixes := ["AN26"] |});
    ("AN28", {| name := "Antonov An-28"; icao24Prefixes := ["AN28"] |});
    ("AN32", {| name := "Antonov An-32"; icao24Prefixes := ["AN32"] |});
    ("AN124", {| name := "Antonov An-124"; icao24Prefixes := ["A124"] |});
    ("AN225", {| name := "Antonov An-225 Mriya"; icao24Prefixes := ["A225"] |});
    ("IL76", {| name := "Ilyushin Il-76"; icao24Prefixes := ["IL76"] |});
    ("KC135", {| name := "Boeing KC-135 Stratotanker"; icao24Prefixes := ["KC135"; "B752"] |});
    ("C17", {| name := "Boeing C-17 Globemaster III"; icao24Prefixes := ["C17"] |});
    ("C5", {| name := "Lockheed C-5 Galaxy"; icao24Prefixes := ["C5"] |});
    ("KC10", {| name := "McDonnell Douglas KC-10 Extender"; icao24Prefixes := ["KC10"; "DC10"] |});
    ("KC46", {| name := "Boeing KC-46 Pegasus"; icao24Prefixes := ["KC46"] |});
    ("A330MRTT", {| name := "Airbus A330 MRTT"; icao24Prefixes := ["A333"] |});
    ("C130J", {| name := "Lockheed C-130J Super Hercules"; icao24Prefixes := ["C130"; "L382"] |});
    ("C295", {| name := "Airbus C295"; icao24Prefixes := ["C295"] |});
    ("CN235", {| name := "CASA CN-235"; icao24Prefixes := ["CN35"] |});
    ("C212", {| name := "CASA C-212 Aviocar"; icao24Prefixes := ["C212"] |});
    ("V22", {| name := "Bell Boeing V-22 Osprey"; icao24Prefixes := ["V22"] |});
    ("C27J", {| name := "Alenia C-27J Spartan"; icao24Prefixes := ["C27J"] |});
    ("MV22", {| name := "MV-22 Osprey (Marines)"; icao24Prefixes := ["MV22"] |});
    ("CV22", {| name := "CV-22 Osprey (Air Force)"; icao24Prefixes := ["CV22"] |});
    ("P3", {| name := "Lockheed P-3 Orion"; icao24Prefixes := ["P3"] |});
    ("P8", {| name := "Boeing P-8 Poseidon"; icao24Prefixes := ["P8"] |});
    ("E3", {| name := "Boeing E-3 Sentry AWACS"; icao24Prefixes := ["E3"] |});
    ("E2", {| name := "Northrop Grumman E-2 Hawkeye"; icao24Prefixes := ["E2"] |});
    ("RC135", {| name := "Boeing RC-135 Rivet Joint"; icao24Prefixes := ["RC35"] |});
    ("U2", {| name := "Lockheed U-2 Dragon Lady"; icao24Prefixes := ["U2"] |});
    ("F16", {| name := "General Dynamics F-16 Fighting Falcon"; icao24Prefixes := ["F16"] |});
    ("F15", {| name := "McDonnell Douglas F-15 Eagle"; icao24Prefixes := ["F15"] |});
    ("F18", {| name := "McDonnell Douglas F/A-18 Hornet"; icao24Prefixes := ["F18"] |});
    ("F35", {| name := "Lockheed Martin F-35 Lightning II"; icao24Prefixes := ["F35"] |});
    ("A10", {| name := "Fairchild Republic A-10 Thunderbolt II"; icao24Prefixes := ["A10"] |});
    ("AV8B", {| name := "McDonnell Douglas AV-8B Harrier II"; icao24Prefixes := ["AV8B"] |});
    ("T6", {| name := "Beechcraft T-6 Texan II"; icao24Prefixes := ["T6"] |});
    ("T38", {| name := "Northrop T-38 Talon"; icao24Prefixes := ["T38"] |});
    ("T45", {| name := "McDonnell Douglas T-45 Goshawk"; icao24Prefixes := ["T45"] |});
    ("UH60", {| name := "Sikorsky UH-60 Black Hawk"; icao24Prefixes := ["UH60"; "H60"] |});
    ("CH47", {| name := "Boeing CH-47 Chinook"; icao24Prefixes := ["CH47"] |});
    ("AH64", {| name := "Boeing AH-64 Apache"; icao24Prefixes := ["AH64"] |});
    ("UH1", {| name := "Bell UH-1 Iroquois (Huey)"; icao24Prefixes := ["UH1"] |});
    ("CH53", {| name := "Sikorsky CH-53 Sea Stallion"; icao24Prefixes := ["CH53"] |});
    ("SH60", {| name := "Sikorsky SH-60 Seahawk"; icao24Prefixes := ["SH60"] |});
    ("AS50", {| name := "Airbus H125 (AS350)"; icao24Prefixes := ["AS50"] |});
    ("AS55", {| name := "Airbus H155 (AS365)"; icao24Prefixes := ["AS55"] |});
    ("EC30", {| name := "Airbus H130"; icao24Prefixes := ["EC30"] |});
    ("EC35", {| name := "Airbus H135"; icao24Prefixes := ["EC35"] |});
    ("EC45", {| name := "Airbus H145"; icao24Prefixes := ["EC45"] |});
    ("B06", {| name := "Bell 206"; icao24Prefixes := ["B06"] |});
    ("B407", {| name := "Bell 407"; icao24Prefixes := ["B407"] |});
    ("B429", {| name := "Bell 429"; icao24Prefixes := ["B429"] |});
    ("R22", {| name := "Robinson R22"; icao24Prefixes := ["R22"] |});
    ("R44", {| name := "Robinson R44"; icao24Prefixes := ["R44"] |});
    ("R66", {| name := "Robinson R66"; icao24Prefixes := ["R66"] |})
  ].

End OpenSky.

(** ** [lib/hexdb-api.ts]: the type resolver *)

Module HexDB.

(** [interface HexDBResponse] *)
Record HexDBResponse : Type := {
  ICAOTypeCode : option string;
  Manufacturer : option string;
  ModeS : option string;
  OperatorFlagCode : option string;
  RegisteredOwners : option string;
  Registration : option string;
  Type_ : option string
}.

(** [interface AircraftPhoto] *)
Record AircraftPhoto : Type := {
  fullImageUrl : string;
  thumbnailUrl : string
}.

(** [const aircraftCache = new Map<string, HexDBResponse | null>()]: a key
    bound to [None] is a cached "not found". *)
Abbreviation Cache := (gmap string (option HexDBResponse)).

(** What [await axios.get(...)] does for the aircraft request: it rejects
    (a status outside 2xx, a time-out, no connection), or it resolves to a
    response with its [status] and its [data], [None] for a falsy body. *)
Inductive InfoReply : Type :=
  | InfoRejected : InfoReply
  | InfoResponse : nat -> option HexDBResponse -> InfoReply.

(** The type feed, as a function of the identifier in the request. *)
Definition TypeFeed : Type := string -> InfoReply.

(** The part of [getAircraftInfo] after the [await]: what it caches and
    returns for a reply. *)
Definition settle (reply : InfoReply) : option HexDBResponse :=
  match reply with
  | InfoResponse status (Some data) =>
      if Nat.eqb status 200 then Some data else None
  | InfoResponse _ None => None
  | InfoRejected => None
  end.

(** The result of a call of a resolver function: the value it resolves to,
    the cache it leaves, and the identifiers it requested from the feed, in
    the order of the requests. *)
Record Resolved (A : Type) : Type := {
  value : A;
  cacheAfter : Cache;
  requested : list string
}.
Arguments value {A} _.
Arguments cacheAfter {A} _.
Arguments requested {A} _.

(** [getAircraftInfo], awaited on its own. *)
Definition getAircraftInfo (feed : TypeFeed) (icao24 : string)
    (aircraftCache : Cache) : Resolved (option HexDBResponse) :=
  match aircraftCache !! icao24 with
  | Some cached =>
      {| value := cached; cacheAfter := aircraftCache; requested := [] |}
  | None =>
      let info := settle (feed icao24) in
      {| value := info;
         cacheAfter := <[icao24 := info]> aircraftCache;
         requested := [icao24] |}
  end.

(** A call of [getAircraftInfo] that has run up to its first [await]: it has
    looked at the cache and either returned or sent its request. *)
Inductive Call : Type :=
  | Returned : option HexDBResponse -> Call
  | Awaiting : Call.

Definition startCall (aircraftCache : Cache) (icao24 : string) : Call :=
  match aircraftCache !! icao24 with
  | Some cached => Returned cached
  | None => Awaiting
  end.

(** The rest of a started call, run when its reply arrives; it yields the
    [{ icao24, info }] of the batch. *)
Definition finishCall (feed : TypeFeed) (icao24 : string) (call : Call)
    (aircraftCache : Cache) : (string * option HexDBResponse) * Cache :=
  match call with
  | Returned cached => ((icao24, cached), aircraftCache)
  | Awaiting =>
      let info := settle (feed icao24) in
      ((icao24, info), <[icao24 := info]> aircraftCache)
  end.

Fixpoint finishCalls (feed : TypeFeed) (calls : list (string * Call))
    (aircraftCache : Cache)
  : list (string * option HexDBResponse) * Cache :=
  match calls with
  | [] => ([], aircraftCache)
  | (icao24, call) :: rest =>
      let '(result, cache1) := finishCall feed icao24 call aircraftCache in
      let '(results, cache2) := finishCalls feed rest cache1 in
      (result :: results, cache2)
  end.

Definition requestOf (call : string * Call) : list string :=
  match snd call with
  | Returned _ => []
  | Awaiting => [fst call]
  end.

(** [await Promise.all(batch.map(icao24 => this.getAircraftInfo(icao24)...))]:
    [map] starts every call of the batch before any reply arrives, so every
    call looks at the cache as the batch found it; the replies are then
    taken in the order of the requests. *)
Definition awaitBatch (feed : TypeFeed) (batch : list string)
    (aircraftCache : Cache)
  : Resolved (list (string * option HexDBResponse)) :=
  let promises :=
    List.map (fun icao24 => (icao24, startCall aircraftCache icao24)) batch in
  let '(batchResults, cache') := finishCalls feed promises aircraftCache in
  {| value := batchResults;
     cacheAfter := cache';
     requested := List.concat (List.map requestOf promises) |}.

Definition batchSize : nat := 10.

(** [batchResults.forEach(({ icao24, info }) => results.set(icao24, info))] *)
Definition setAll (batchResults : list (string * option HexDBResponse))
    (results : Cache) : Cache :=
  List.fold_left (fun acc r => <[fst r := snd r]> acc) batchResults results.

(** The [for] loop of [getMultipleAircraftInfo], from index [i]; [rounds]
    bounds the number of iterations left. *)
Fixpoint batchLoop (rounds : nat) (feed : TypeFeed) (icao24List : list string)
    (i : nat) (results : Cache) (aircraftCache : Cache) (sent : list string)
  : Resolved Cache :=
  match rounds with
  | O => {| value := results; cacheAfter := aircraftCache; requested := sent |}
  | S rounds' =>
      if Nat.ltb i (length icao24List) then
        let batch := take batchSize (drop i icao24List) in
        let r := awaitBatch feed batch aircraftCache in
        batchLoop rounds' feed icao24List (i + batchSize)
          (setAll (value r) results) (cacheAfter r) (sent ++ requested r)
      else
        {| value := results; cacheAfter := aircraftCache; requested := sent |}
  end.

(** [getMultipleAircraftInfo]: the loop runs at most once per identifier. *)
Definition getMultipleAircraftInfo (feed : TypeFeed) (icao24List : list string)
    (aircraftCache : Cache) : Resolved Cache :=
  batchLoop (length icao24List) feed icao24List 0 ∅ aircraftCache [].

Definition getAircraftPhoto (icao24 : string) : AircraftPhoto :=
  {| fullImageUrl := "https://hexdb.io/hex-image?hex=" ++ icao24;
     thumbnailUrl := "https://hexdb.io/hex-image-thumb?hex=" ++ icao24 |}.

Definition clearCache (aircraftCache : Cache) : Cache := ∅.

Definition typeMap : list (string * string) :=
  [
    ("B703", "B707"); ("B707", "B707"); ("B720", "B707"); ("B712", "B717");
    ("B717", "B717"); ("B721", "B727"); ("B722", "B727"); ("B727", "B727");
    ("B731", "B737"); ("B732", "B737"); ("B733", "B737"); ("B734", "B737");
    ("B735", "B737"); ("B736", "B737"); ("B737", "B737"); ("B738", "B737");
    ("B739", "B737"); ("B37M", "B737"); ("B38M", "B737"); ("B39M", "B737");
    ("B3XM", "B737"); ("B741", "B747"); ("B742", "B747"); ("B743", "B747");
    ("B744", "B747"); ("B748", "B747"); ("B74S", "B747"); ("B74R", "B747");
    ("BLCF", "B747"); ("B752", "B757"); ("B753", "B757"); ("B762", "B767");
    ("B763", "B767"); ("B764", "B767"); ("B772", "B777"); ("B773", "B777");
    ("B77L", "B777"); ("B77W", "B777"); ("B779", "B777"); ("B77X", "B777");
    ("B788", "B787"); ("B789", "B787"); ("B78X", "B787"); ("BCS1", "A220");
    ("BCS3", "A220"); ("A221", "A220"); ("A223", "A220"); ("A30B", "A300");
    ("A306", "A300"); ("A3ST", "A300"); ("A310", "A310"); ("A318", "A318");
    ("A319", "A319"); ("A19N", "A319"); ("A320", "A320"); ("A20N", "A320");
    ("A321", "A321"); ("A21N", "A321"); ("A332", "A330"); ("A333", "A330");
    ("A338", "A330"); ("A339", "A330"); ("A342", "A340"); ("A343", "A340");
    ("A345", "A340"); ("A346", "A340"); ("A359", "A350"); ("A35K", "A350");
    ("A388", "A380"); ("A400", "A400M"); ("E120", "E120"); ("E135", "E135");
    ("E145", "E145"); ("E170", "E170"); ("E175", "E175"); ("E190", "E190");
    ("E195", "E195"); ("E290", "E290"); ("E295", "E295"); ("CRJ1", "CRJ1");
    ("CRJ2", "CRJ2"); ("CRJ7", "CRJ7"); ("CRJ9", "CRJ9"); ("CRJX", "CRJX");
    ("DH8A", "DH8A"); ("DH8B", "DH8B"); ("DH8C", "DH8C"); ("DH8D", "DH8D");
    ("AT42", "AT42"); ("AT43", "AT43"); ("AT44", "AT44"); ("AT45", "AT45");
    ("AT46", "AT46"); ("AT72", "AT72"); ("AT73", "AT73"); ("AT75", "AT75");
    ("F27", "F27"); ("F28", "F28"); ("F50", "F50"); ("F70", "F70");
    ("F100", "F100"); ("DC3", "DC3"); ("DC6", "DC6"); ("DC81", "DC8");
    ("DC82", "DC8"); ("DC83", "DC8"); ("DC86", "DC8"); ("DC87", "DC8");
    ("DC91", "DC9"); ("DC92", "DC9"); ("DC93", "DC9"); ("DC94", "DC9");
    ("DC95", "DC9"); ("MD11", "MD11"); ("MD81", "MD80"); ("MD82", "MD80");
    ("MD83", "MD80"); ("MD87", "MD80"); ("MD88", "MD80"); ("MD90", "MD90");
    ("L188", "L188"); ("L101", "L1011"); ("C130", "C130"); ("L382", "C130");
    ("C25A", "C25A"); ("C25B", "C25B"); ("C25C", "C25C"); ("C510", "C510");
    ("C525", "C525"); ("C550", "C550"); ("C560", "C560"); ("C680", "C680");
    ("C750", "C750"); ("GLF4", "GLF4"); ("GLF5", "GLF5"); ("GLF6", "GLF6");
    ("H25B", "H25B"); ("LJ35", "LJ35"); ("LJ45", "LJ45"); ("LJ60", "LJ60");
    ("C172", "C172"); ("C182", "C182"); ("C206", "C206"); ("C208", "C208");
    ("PA28", "PA28"); ("PA31", "PA31"); ("PA46", "PA46"); ("BE20", "BE20");
    ("BE36", "BE36"); ("BE58", "BE58"); ("AN12", "AN12"); ("AN22", "AN22");
    ("AN24", "AN24"); ("AN26", "AN26"); ("AN28", "AN28"); ("AN32", "AN32");
    ("A124", "AN124"); ("A225", "AN225"); ("IL76", "IL76"); ("KC135", "KC135");
    ("C17", "C17"); ("C5", "C5"); ("KC10", "KC10"); ("KC46", "KC46");
    ("C295", "C295"); ("CN35", "CN235"); ("C212", "C212"); ("V22", "V22");
    ("MV22", "MV22"); ("CV22", "CV22"); ("C27J", "C27J"); ("P3", "P3");
    ("P8", "P8"); ("E3", "E3"); ("E2", "E2"); ("RC35", "RC135");
    ("U2", "U2"); ("F16", "F16"); ("F15", "F15"); ("F18", "F18");
    ("F35", "F35"); ("A10", "A10"); ("AV8B", "AV8B"); ("T6", "T6");
    ("T38", "T38"); ("T45", "T45"); ("UH60", "UH60"); ("H60", "UH60");
    ("CH47", "CH47"); ("AH64", "AH64"); ("UH1", "UH1"); ("CH53", "CH53");
    ("SH60", "SH60"); ("AS50", "AS50"); ("AS55", "AS55"); ("EC30", "EC30");
    ("EC35", "EC35"); ("EC45", "EC45"); ("B06", "B06"); ("B407", "B407");
    ("B429", "B429"); ("R22", "R22"); ("R44", "R44"); ("R66", "R66")
  ].

Definition mapTypeToModel (typeCode : option string) : option string :=
  match typeCode with
  | None => None
  | Some code =>
      if negb (truthyStr code) then None
      else OpenSky.property typeMap code
  end.

End HexDB.

(** ** [hooks/use-flight-tracker.ts]: the alert engine *)

Module Tracker.
Import OpenSky HexDB.

(** [interface TrackedAircraft extends Aircraft]; [plane] is the [...plane]
    it is built from. *)
Record TrackedAircraft : Type := {
  plane : Aircraft;
  matchedModel : option string;
  distance : option R;
  isNew : option bool;
  registration : option string;
  aircraftType : option string;
  photoUrl : option string;
  thumbnailUrl : option string
}.

(** The arguments of [toast.success]: the title, and the lines of the
    description with the numbers they print ([distanceKm] printed by
    [toFixed(1)], [altitudeM] by [Math.round], [None] for 'Unknown'). *)
Record Toast : Type := {
  toastTitle : string;
  flight : string;
  ident : string;
  typeName : string;
  distanceKm : R;
  altitudeM : option R;
  duration : N
}.

(** The arguments of [new Notification]. *)
Record OsNotification : Type := {
  notificationTitle : string;
  bodyFlight : string;
  bodyDistanceKm : R;
  icon : string
}.

(** A thrown value: an [Error] with its message, or anything else. *)
Inductive Thrown : Type :=
  | ErrorObject : string -> Thrown
  | OtherValue : Thrown.

(** The notification sink: what a call of [toast.success] and of
    [new Notification] does ([None]: it returns, [Some e]: it throws [e]),
    and whether ['Notification' in window && Notification.permission ===
    'granted']. *)
Record Sinks : Type := {
  toast_success : Toast -> option Thrown;
  notificationGranted : bool;
  new_Notification : OsNotification -> option Thrown
}.

(** What the sinks have shown, with the aircraft it was shown for. *)
Inductive Event : Type :=
  | Toasted : Aircraft -> Toast -> Event
  | Notified : Aircraft -> OsNotification -> Event.

(** What the callback of [nearbyAircraft.map] reads and writes besides its
    argument: the local [currentAircraftSet], [alertedAircraftRef.current],
    and the sinks. *)
Record Loop : Type := {
  currentAircraftSet : gset string;
  alertedAircraft : gset string;
  emitted : list Event
}.

(** A step that returns or throws. *)
Inductive Completion (A : Type) : Type :=
  | Normal : A -> Completion A
  | Throw : Thrown -> Completion A.
Arguments Normal {A} _.
Arguments Throw {A} _.

(** [alert.aircraftModels.includes(matchedModel)] *)
Definition includes (models : list string) (model : string) : bool :=
  List.existsb (String.eqb model) models.

(** [hexDBInfo?.Type || hexDBInfo?.ICAOTypeCode] *)
Definition typeOrCode (hexDBInfo : option HexDBResponse) : option string :=
  match hexDBInfo with
  | Some info =>
      match Type_ info with
      | Some t => if truthyStr t then Some t else ICAOTypeCode info
      | None => ICAOTypeCode info
      end
  | None => None
  end.

(** What reading [.name] of [undefined] throws. *)
Definition undefinedName : Thrown :=
  ErrorObject "Cannot read properties of undefined (reading 'name')".

(** The body of [if (isMatchingModel && isNew && !alertedAircraftRef.current.has(...))]. *)
Definition raiseAlert (sinks : Sinks) (plane : Aircraft)
    (hexDBInfo : option HexDBResponse) (matchedModel : string) (distance : R)
    (loop : Loop) : Loop * Completion unit :=
  let loop1 :=
    {| currentAircraftSet := currentAircraftSet loop;
       alertedAircraft := {[icao24 plane]} ∪ alertedAircraft loop;
       emitted := emitted loop |} in
  match property AIRCRAFT_MODELS matchedModel with
  | None => (loop1, Throw undefinedName)
  | Some model =>
      let toast :=
        {| toastTitle := "Alert: " ++ name model ++ " detected!";
           flight := strOr (callsign plane) "Unknown";
           ident := strOr (hexDBInfo ≫= Registration) (icao24 plane);
           typeName := strOr (hexDBInfo ≫= Type_) "Unknown";
           distanceKm := distance;
           altitudeM :=
             match baro_altitude plane with
             | Some altitude => if truthy altitude then Some altitude else None
             | None => None
             end;
           duration := 10000%N |} in
      match toast_success sinks toast with
      | Some thrown => (loop1, Throw thrown)
      | None =>
          let loop2 :=
            {| currentAircraftSet := currentAircraftSet loop1;
               alertedAircraft := alertedAircraft loop1;
               emitted := emitted loop1 ++ [Toasted plane toast] |} in
          if notificationGranted sinks then
            let notification :=
              {| notificationTitle := "Aircraft Alert: " ++ name model;
                 bodyFlight := strOr (callsign plane) (icao24 plane);
                 bodyDistanceKm := distance;
                 icon := "/airplane-icon.png" |} in
            match new_Notification sinks notification with
            | Some thrown => (loop2, Throw thrown)
            | None =>
                ({| currentAircraftSet := currentAircraftSet loop2;
                    alertedAircraft := alertedAircraft loop2;
                    emitted :=
                      emitted loop2 ++ [Notified plane notification] |},
                 Normal tt)
            end
          else (loop2, Normal tt)
      end
  end.

(** The callback of [nearbyAircraft.map]; it returns the aircraft as it is
    when [!plane.latitude || !plane.longitude]: a coordinate is missing or 0. *)
Definition trackPlane (alert : FlightAlert) (previousAircraft : gset string)
    (aircraftInfoMap : Cache) (sinks : Sinks) (plane : Aircraft) (loop : Loop)
  : Loop * Completion TrackedAircraft :=
  let untracked :=
    {| plane := plane; matchedModel := None; distance := None;
       isNew := None; registration := None; aircraftType := None;
       photoUrl := None; thumbnailUrl := None |} in
  match latitude plane, longitude plane with
  | Some planeLat, Some planeLon =>
      if negb (truthy planeLat) || negb (truthy planeLon) then
        (loop, Normal untracked)
      else
        let loop1 :=
          {| currentAircraftSet := {[icao24 plane]} ∪ currentAircraftSet loop;
             alertedAircraft := alertedAircraft loop;
             emitted := emitted loop |} in
        let distance :=
          calculateDistance (alert_latitude alert) (alert_longitude alert)
            planeLat planeLon in
        let hexDBInfo := mjoin (aircraftInfoMap !! icao24 plane) in
        let matchedModel :=
          match hexDBInfo with
          | Some info => mapTypeToModel (ICAOTypeCode info)
          | None => None
          end in
        let isNew := negb (bool_decide (icao24 plane ∈ previousAircraft)) in
        let isMatchingModel :=
          match matchedModel with
          | Some model => includes (aircraftModels alert) model
          | None => false
          end in
        let tracked :=
          let photoData := getAircraftPhoto (icao24 plane) in
          {| plane := plane;
             matchedModel := if isMatchingModel then matchedModel else None;
             distance := Some distance;
             isNew := Some isNew;
             registration := hexDBInfo ≫= Registration;
             aircraftType := typeOrCode hexDBInfo;
             photoUrl := Some (fullImageUrl photoData);
             thumbnailUrl := Some (HexDB.thumbnailUrl photoData) |} in
        match matchedModel with
        | Some model =>
            if isMatchingModel && isNew
               && negb (bool_decide (icao24 plane ∈ alertedAircraft loop1))
            then
              match raiseAlert sinks plane hexDBInfo model distance loop1 with
              | (loop2, Normal _) => (loop2, Normal tracked)
              | (loop2, Throw thrown) => (loop2, Throw thrown)
              end
            else (loop1, Normal tracked)
        | None => (loop1, Normal tracked)
        end
  | _, _ => (loop, Normal untracked)
  end.

(** [nearbyAircraft.map(plane => ...)]: the callback runs on the aircraft in
    order and the first throw ends the [map]. *)
Fixpoint trackAll (alert : FlightAlert) (previousAircraft : gset string)
    (aircraftInfoMap : Cache) (sinks : Sinks) (nearbyAircraft : list Aircraft)
    (loop : Loop) : Loop * Completion (list TrackedAircraft) :=
  match nearbyAircraft with
  | [] => (loop, Normal [])
  | plane :: rest =>
      match trackPlane alert previousAircraft aircraftInfoMap sinks plane loop with
      | (loop1, Throw thrown) => (loop1, Throw thrown)
      | (loop1, Normal tracked) =>
          match trackAll alert previousAircraft aircraftInfoMap sinks rest loop1 with
          | (loop2, Normal trackedRest) => (loop2, Normal (tracked :: trackedRest))
          | (loop2, Throw thrown) => (loop2, Throw thrown)
          end
      end
  end.

(** The state of the hook: the four [useState] cells and the two refs. *)
Record Hook : Type := {
  aircraft : list TrackedAircraft;
  isLoading : bool;
  error : option string;
  lastUpdate : option R;
  previousAircraftRef : gset string;
  alertedAircraftRef : gset string
}.

(** The hook together with the module-level cache of the resolver. *)
Record World : Type := {
  hook : Hook;
  aircraftCache : Cache
}.

(** What one call of [fetchAircraft] is given: the props of the hook, the
    two feeds and the sinks as they are during the call, and the instant
    [new Date()] returns. *)
Record Poll : Type := {
  alert : option FlightAlert;
  enabled : bool;
  geoFeed : GeoFeed;
  typeFeed : TypeFeed;
  sinks : Sinks;
  now : R
}.

(** A world after a call, what the call showed and requested, and what its
    [catch] block passed to [console.error], if it ran. *)
Record Outcome : Type := {
  after : World;
  shown : list Event;
  lookups : list string;
  logged : option Thrown
}.

(** [err instanceof Error ? err.message : 'Failed to fetch aircraft data'] *)
Definition errorMessage (err : Thrown) : string :=
  match err with
  | ErrorObject message => message
  | OtherValue => "Failed to fetch aircraft data"
  end.

(** The [forEach] that drops from the alerted set what is not in range. *)
Definition cleanUp (currentAircraftSet alerted : gset string) : gset string :=
  filter (fun icao24 => icao24 ∈ currentAircraftSet) alerted.

Definition fetchAircraft (p : Poll) (w : World) : Outcome :=
  match alert p with
  | None => {| after := w; shown := []; lookups := []; logged := None |}
  | Some alert =>
      if negb (active alert) || negb (enabled p) then
        {| after := w; shown := []; lookups := []; logged := None |}
      else
        let nearbyAircraft :=
          getAircraftInRadius (geoFeed p)
            (alert_latitude alert) (alert_longitude alert) (radius alert) in
        let icao24List := List.map icao24 nearbyAircraft in
        let resolved :=
          getMultipleAircraftInfo (typeFeed p) icao24List (aircraftCache w) in
        let aircraftInfoMap := value resolved in
        let start :=
          {| currentAircraftSet := ∅;
             alertedAircraft := alertedAircraftRef (hook w);
             emitted := [] |} in
        match trackAll alert (previousAircraftRef (hook w)) aircraftInfoMap
                (sinks p) nearbyAircraft start with
        | (loop, Normal trackedAircraft) =>
            {| after :=
                 {| hook :=
                      {| aircraft := trackedAircraft;
                         isLoading := false;
                         error := None;
                         lastUpdate := Some (now p);
                         previousAircraftRef := currentAircraftSet loop;
                         alertedAircraftRef :=
                           cleanUp (currentAircraftSet loop) (alertedAircraft loop) |};
                    aircraftCache := cacheAfter resolved |};
               shown := emitted loop;
               lookups := requested resolved;
               logged := None |}
        | (loop, Throw err) =>
            {| after :=
                 {| hook :=
                      {| aircraft := aircraft (hook w);
                         isLoading := false;
                         error := Some (errorMessage err);
                         lastUpdate := lastUpdate (hook w);
                         previousAircraftRef := previousAircraftRef (hook w);
                         alertedAircraftRef := alertedAircraft loop |};
                    aircraftCache := cacheAfter resolved |};
               shown := emitted loop;
               lookups := requested resolved;
               logged := Some err |}
        end
  end.

(** Successive calls of [fetchAircraft], each run to its end before the
    next starts. *)
Fixpoint run (polls : list Poll) (w : World) : World * list Event :=
  match polls with
  | [] => (w, [])
  | p :: rest =>
      let o := fetchAircraft p w in
      let '(w', events) := run rest (after o) in
      (w', (shown o ++ events)%list)
  end.

End Tracker.

(** ** Vocabulary of the statements *)

Module Spec.
Import OpenSky HexDB Tracker.

(** The optional numeric fields of a parsed aircraft next to the positions
    of the feed they are read from. *)
Definition numericFields (state : State) (a : Aircraft)
  : list (Raw R * option R) :=
  [ (state_3 state, time_position a);
    (state_5 state, longitude a);
    (state_6 state, latitude a);
    (state_7 state, baro_altitude a);
    (state_9 state, velocity a);
    (state_10 state, true_track a);
    (state_11 state, vertical_rate a);
    (state_13 state, geo_altitude a);
    (state_17 state, category a) ].

(** An aircraft carries a valid position: both coordinates are there and
    pass the truthiness test of the code. *)
Definition validPosition (a : Aircraft) : Prop :=
  ∃ lat lon : R,
    latitude a = Some lat ∧ longitude a = Some lon ∧ lat ≠ 0%R ∧ lon ≠ 0%R.

(** The record a standalone resolve returns for an identifier: the cached
    one, or else the one made from the reply of the feed. *)
Definition known (feed : TypeFeed) (aircraftCache : Cache) (icao24 : string)
  : option HexDBResponse :=
  match aircraftCache !! icao24 with
  | Some cached => cached
  | None => settle (feed icao24)
  end.

(** A map [m] is the map [base] with every identifier of the list bound to
    the record a standalone resolve returns for it from the cache [c]. *)
Definition resolves (feed : TypeFeed) (c : Cache) (identifiers : list string)
    (base m : Cache) : Prop :=
  ∀ k : string,
    (k ∈ identifiers → m !! k = Some (known feed c k)) ∧
    (k ∉ identifiers → m !! k = base !! k).

(** Pointwise resolution, from the words of the specification: every
    identifier of the list is resolved by a standalone [getAircraftInfo],
    one after the other, and bound to its record. *)
Fixpoint resolveEach (feed : TypeFeed) (identifiers : list string)
    (results : Cache) (aircraftCache : Cache) : Cache * Cache :=
  match identifiers with
  | [] => (results, aircraftCache)
  | icao24 :: rest =>
      let r := getAircraftInfo feed icao24 aircraftCache in
      resolveEach feed rest (<[icao24 := value r]> results) (cacheAfter r)
  end.

(** A call of the resolver by the program. *)
Inductive Op : Type :=
  | Info : string -> Op
  | Batch : list string -> Op.

(** Calls of the resolver, each awaited before the next and each with the
    feed as it is at that time; the result is the cache left and all the
    identifiers requested from the feed. *)
Fixpoint runOps (ops : list (TypeFeed * Op)) (aircraftCache : Cache)
  : Cache * list string :=
  match ops with
  | [] => (aircraftCache, [])
  | (feed, Info icao24) :: rest =>
      let r := getAircraftInfo feed icao24 aircraftCache in
      let '(c, sent) := runOps rest (cacheAfter r) in
      (c, (requested r ++ sent)%list)
  | (feed, Batch icao24List) :: rest =>
      let r := getMultipleAircraftInfo feed icao24List aircraftCache in
      let '(c, sent) := runOps rest (cacheAfter r) in
      (c, (requested r ++ sent)%list)
  end.

(** The number of requests for an identifier among requests. *)
Definition fetches (icao24 : string) (sent : list string) : nat :=
  length (List.filter (String.eqb icao24) sent).

(** A call of [fetchAircraft] that gets past its first line. *)
Definition polled (p : Poll) : bool :=
  match alert p with
  | Some a => active a && enabled p
  | None => false
  end.

(** The aircraft a call of [fetchAircraft] gets from the radius query. *)
Definition nearby (p : Poll) : list Aircraft :=
  match alert p with
  | Some a =>
      if negb (active a) || negb (enabled p) then []
      else
        getAircraftInRadius (geoFeed p)
          (alert_latitude a) (alert_longitude a) (radius a)
  | None => []
  end.

(** The presence set of a poll: the identifiers in the area. *)
Definition presence (p : Poll) : gset string :=
  list_to_set (List.map icao24 (nearby p)).

(** The model key that the resolved types give for an identifier, and
    whether it is on the watchlist. *)
Definition resolvedModel (aircraftInfoMap : Cache) (id : string)
  : option string :=
  match mjoin (aircraftInfoMap !! id) with
  | Some info => mapTypeToModel (ICAOTypeCode info)
  | None => None
  end.

Definition matchesWatchlist (a : FlightAlert) (aircraftInfoMap : Cache)
    (id : string) : bool :=
  match resolvedModel aircraftInfoMap id with
  | Some model => includes (aircraftModels a) model
  | None => false
  end.

(** The identifier matches the watchlist in a poll, with the types the poll
    resolves from the cache of the world. *)
Definition watched (p : Poll) (w : World) (id : string) : bool :=
  match alert p with
  | Some a =>
      matchesWatchlist a
        (value (getMultipleAircraftInfo (typeFeed p)
                  (List.map icao24 (nearby p)) (aircraftCache w)))
        id
  | None => false
  end.

(** Both coordinates of an aircraft are there and truthy. *)
Definition hasPosition (a : Aircraft) : bool :=
  match latitude a, longitude a with
  | Some lat, Some lon => truthy lat && truthy lon
  | _, _ => false
  end.

(** The condition under which the callback of the poll raises an alert for
    an aircraft: it has a position, matches the watchlist, was not in the
    previous presence set and is not in the alerted set. *)
Definition alerts (a : FlightAlert) (previousAircraft : gset string)
    (aircraftInfoMap : Cache) (alerted : gset string) (pl : Aircraft) : bool :=
  hasPosition pl
  && matchesWatchlist a aircraftInfoMap (icao24 pl)
  && negb (bool_decide (icao24 pl ∈ previousAircraft))
  && negb (bool_decide (icao24 pl ∈ alerted)).

(** What raising an alert for an aircraft shows and how it ends: the toast
    throws; or the toast is shown and there is no notification to make; or
    the toast is shown and the notification throws; or both are shown. *)
Inductive Raised (s : Sinks) (pl : Aircraft)
  : list Event → Completion unit → Prop :=
  | ToastThrew (t : Toast) (e : Thrown) :
      toast_success s t = Some e →
      Raised s pl [] (Throw e)
  | ToastOnly (t : Toast) :
      toast_success s t = None →
      notificationGranted s = false →
      Raised s pl [Toasted pl t] (Normal tt)
  | NotificationThrew (t : Toast) (n : OsNotification) (e : Thrown) :
      toast_success s t = None →
      notificationGranted s = true →
      new_Notification s n = Some e →
      Raised s pl [Toasted pl t] (Throw e)
  | ToastAndNotification (t : Toast) (n : OsNotification) :
      toast_success s t = None →
      notificationGranted s = true →
      new_Notification s n = None →
      Raised s pl [Toasted pl t; Notified pl n] (Normal tt).

(** The variables of the loop after the callback has run on an aircraft
    without raising an alert, and after it has raised one that showed [new]. *)
Definition quietLoop (pl : Aircraft) (loop : Loop) : Loop :=
  {| currentAircraftSet :=
       if hasPosition pl then {[icao24 pl]} ∪ currentAircraftSet loop
       else currentAircraftSet loop;
     alertedAircraft := alertedAircraft loop;
     emitted := emitted loop |}.

Definition alertLoop (pl : Aircraft) (new : list Event) (loop : Loop) : Loop :=
  {| currentAircraftSet := {[icao24 pl]} ∪ currentAircraftSet loop;
     alertedAircraft := {[icao24 pl]} ∪ alertedAircraft loop;
     emitted := emitted loop ++ new |}.

(** What a completion threw, if it threw. *)
Definition failure {A : Type} (c : Completion A) : option Thrown :=
  match c with
  | Normal _ => None
  | Throw e => Some e
  end.

(** The runs of [nearbyAircraft.map]: from the variables of the loop before
    to those after, with what was thrown, if the run was cut short. *)
Inductive Tracks (a : FlightAlert) (prev : gset string) (m : Cache)
    (s : Sinks) : list Aircraft → Loop → Loop → option Thrown → Prop :=
  | Tracks_nil (loop : Loop) :
      Tracks a prev m s [] loop loop None
  | Tracks_quiet (pl : Aircraft) (rest : list Aircraft) (loop loop' : Loop)
      (r : option Thrown) :
      alerts a prev m (alertedAircraft loop) pl = false →
      Tracks a prev m s rest (quietLoop pl loop) loop' r →
      Tracks a prev m s (pl :: rest) loop loop' r
  | Tracks_throw (pl : Aircraft) (rest : list Aircraft) (loop : Loop)
      (new : list Event) (e : Thrown) :
      alerts a prev m (alertedAircraft loop) pl = true →
      Raised s pl new (Throw e) →
      Tracks a prev m s (pl :: rest) loop (alertLoop pl new loop) (Some e)
  | Tracks_alert (pl : Aircraft) (rest : list Aircraft) (loop loop' : Loop)
      (new : list Event) (r : option Thrown) :
      alerts a prev m (alertedAircraft loop) pl = true →
      Raised s pl new (Normal tt) →
      Tracks a prev m s rest (alertLoop pl new loop) loop' r →
      Tracks a prev m s (pl :: rest) loop loop' r.

(** A poll cycle that runs to its end: it is polled and nothing is thrown. *)
Definition completes (p : Poll) (w : World) : Prop :=
  polled p = true ∧ logged (fetchAircraft p w) = None.

Definition eventPlane (e : Event) : Aircraft :=
  match e with
  | Toasted a _ => a
  | Notified a _ => a
  end.

Definition isToastFor (id : string) (e : Event) : bool :=
  match e with
  | Toasted a _ => String.eqb (icao24 a) id
  | Notified _ _ => false
  end.

Definition isNotificationFor (id : string) (e : Event) : bool :=
  match e with
  | Toasted _ _ => false
  | Notified a _ => String.eqb (icao24 a) id
  end.

(** The number of toasts, and of OS notifications, for an identifier. *)
Definition toastsFor (id : string) (events : list Event) : nat :=
  length (List.filter (isToastFor id) events).

Definition notificationsFor (id : string) (events : list Event) : nat :=
  length (List.filter (isNotificationFor id) events).

(** Sinks that never throw. *)
Definition reliable (s : Sinks) : Prop :=
  (∀ t, toast_success s t = None) ∧ (∀ n, new_Notification s n = None).

End Spec.

(** ** Example inputs *)

Module Scenario.
Import OpenSky HexDB Tracker.

(** A watch area around Stockholm that watches the Boeing 737. *)
Definition stockholm : FlightAlert :=
  {| alert_id := "alert-1";
     alert_latitude := 59.3293;
     alert_longitude := 18.0686;
     radius := 50;
     aircraftModels := ["B737"];
     active := true |}.

(** A state of the feed for an aircraft right over the centre. *)
Definition overhead : State :=
  {| state_0 := "4ac9e5";
     state_1 := Val "SAS1421 ";
     state_2 := "Sweden";
     state_3 := Val 1700000000%R;
     state_4 := 1700000001%R;
     state_5 := Val 18.0686%R;
     state_6 := Val 59.3293%R;
     state_7 := Val 3048%R;
     state_8 := false;
     state_9 := Val 180%R;
     state_10 := Val 90%R;
     state_11 := Null;
     state_12 := Null;
     state_13 := Val 3100%R;
     state_14 := Val "2041";
     state_15 := false;
     state_16 := 0%R;
     state_17 := Absent |}.

(** The same aircraft reported on the equator, and parked. *)
Definition onEquator : State :=
  {| state_0 := "4ac9e5";
     state_1 := Val "SAS1421 ";
     state_2 := "Sweden";
     state_3 := Val 1700000000%R;
     state_4 := 1700000001%R;
     state_5 := Val 18.0686%R;
     state_6 := Val 0%R;
     state_7 := Val 0%R;
     state_8 := true;
     state_9 := Val 0%R;
     state_10 := Val 90%R;
     state_11 := Null;
     state_12 := Null;
     state_13 := Val 3100%R;
     state_14 := Val "2041";
     state_15 := false;
     state_16 := 0%R;
     state_17 := Absent |}.

(** A geo feed that reports the given states for every box. *)
Definition reporting (sts : list State) : GeoFeed :=
  fun _ => StatesResponse (Some {| time := 1700000001%R; states := Some sts |}).

(** A geo feed whose reply has [states: null], and one that is down. *)
Definition emptySky : GeoFeed :=
  fun _ => StatesResponse (Some {| time := 1700000001%R; states := None |}).

Definition geoDown : GeoFeed := fun _ => StatesRejected.

Definition boeing738 : HexDBResponse :=
  {| ICAOTypeCode := Some "B738";
     Manufacturer := Some "Boeing";
     ModeS := Some "4AC9E5";
     OperatorFlagCode := Some "SAS";
     RegisteredOwners := Some "Scandinavian Airlines System";
     Registration := Some "SE-RJX";
     Type_ := Some "737-86N" |}.

(** A type feed that knows every aircraft as that Boeing 737-800, one that
    knows none, and one that is down. *)
Definition allBoeing : TypeFeed := fun _ => InfoResponse 200 (Some boeing738).

Definition notFound : TypeFeed := fun _ => InfoRejected.

(** Twelve identifiers: one batch of ten and a batch of two. *)
Definition twelve : list string :=
  ["4ac9e5"; "4ac9e6"; "4ac9e7"; "4ac9e8"; "4ac9e9"; "4ac9ea";
   "4ac9eb"; "4ac9ec"; "4ac9ed"; "4ac9ee"; "4ac9ef"; "4ac9f0"].

(** Sinks that never throw, and sinks with the permission for notifications
    whose [Notification] constructor throws. *)
Definition quiet : Sinks :=
  {| toast_success := fun _ => None;
     notificationGranted := false;
     new_Notification := fun _ => None |}.

Definition illegalConstructor : Sinks :=
  {| toast_success := fun _ => None;
     notificationGranted := true;
     new_Notification := fun _ => Some (ErrorObject "Illegal constructor") |}.

(** The world when the page has just loaded. *)
Definition fresh : World :=
  {| hook :=
       {| aircraft := [];
          isLoading := false;
          error := None;
          lastUpdate := None;
          previousAircraftRef := ∅;
          alertedAircraftRef := ∅ |};
     aircraftCache := ∅ |}.

Definition pollWith (geo : GeoFeed) (s : Sinks) : Poll :=
  {| alert := Some stockholm;
     enabled := true;
     geoFeed := geo;
     typeFeed := allBoeing;
     sinks := s;
     now := 1700000002%R |}.

End Scenario.

(** ** [lib/opensky-api.ts]: the lookup of one aircraft *)

Module Lookup.
Import OpenSky.

(** [String.prototype.toLowerCase] on the ASCII letters. *)
Definition lowerAscii (c : ascii) : ascii :=
  let n := nat_of_ascii c in
  if Nat.leb 65 n && Nat.leb n 90 then ascii_of_nat (n + 32) else c.

Fixpoint toLowerCase (s : string) : string :=
  match s with
  | String c s' => String (lowerAscii c) (toLowerCase s')
  | EmptyString => EmptyString
  end.

(** The geo feed asked for one aircraft, as a function of the [icao24] of
    the [params] of the request. *)
Definition IcaoFeed : Type := string -> StatesReply.

Definition getAircraftByICAO24 (feed : IcaoFeed) (icao24 : string)
  : option Aircraft :=
  match feed (toLowerCase icao24) with
  | StatesResponse (Some data) =>
      match states data with
      | Some (state :: _) => Some (parseAircraft state)
      | Some [] => None
      | None => None
      end
  | StatesResponse None => None
  | StatesRejected => None
  end.

End Lookup.

(** ** More vocabulary of the statements *)

Module More.
Import HexDB.

(** The cache does not hold the identifier. *)
Definition uncached (aircraftCache : Cache) (icao24 : string) : bool :=
  match aircraftCache !! icao24 with
  | Some _ => false
  | None => true
  end.

End More.

(** ** [app/page.tsx]: the handlers of the page *)

Module Page.
Import OpenSky Tracker.

(** [handleCoordinateSelect]; [generatedId] is the [`alert-${Date.now()}`]
    of the call. *)
Definition handleCoordinateSelect (generatedId : string) (lat lon rad : R)
    (prev : option FlightAlert) : option FlightAlert :=
  Some {| alert_id :=
            match prev with
            | Some a =>
                if truthyStr (alert_id a) then alert_id a else generatedId
            | None => generatedId
            end;
          alert_latitude := lat;
          alert_longitude := lon;
          radius := rad;
          aircraftModels :=
            match prev with
            | Some a => aircraftModels a
            | None => []
            end;
          active := false |}.

Definition handleAircraftSelection (selectedModels : list string)
    (prev : option FlightAlert) : option FlightAlert :=
  match prev with
  | None => None
  | Some a =>
      Some {| alert_id := alert_id a;
              alert_latitude := alert_latitude a;
              alert_longitude := alert_longitude a;
              radius := radius a;
              aircraftModels := selectedModels;
              active := active a |}
  end.

(** The update of the alert by [toggleAlert]. *)
Definition toggleAlert (prev : option FlightAlert) : option FlightAlert :=
  match prev with
  | None => None
  | Some a =>
      Some {| alert_id := alert_id a;
              alert_latitude := alert_latitude a;
              alert_longitude := alert_longitude a;
              radius := radius a;
              aircraftModels := aircraftModels a;
              active := negb (active a) |}
  end.

(** What [Home] passes to [useFlightTracker]: the alert, and
    [enabled: alert?.active || false]; the feeds, the sinks and the clock
    are those of the call of [fetchAircraft]. *)
Definition pollOf (alert : option FlightAlert) (geo : GeoFeed)
    (types : HexDB.TypeFeed) (s : Sinks) (time : R) : Poll :=
  {| Tracker.alert := alert;
     enabled :=
       match alert with
       | Some a => active a
       | None => false
       end;
     geoFeed := geo;
     typeFeed := types;
     sinks := s;
     now := time |}.

(** [aircraft.filter(a => a.latitude && a.longitude)], what [Home] gives
    to the map. *)
Definition onMap (aircraft : list TrackedAircraft) : list TrackedAircraft :=
  List.filter
    (fun a =>
       match latitude (plane a), longitude (plane a) with
       | Some lat, Some lon => truthy lat && truthy lon
       | _, _ => false
       end)
    aircraft.

End Page.

(** ** [components/aircraft-selector.tsx]: the selection of models *)

Module Selector.
Import OpenSky Tracker.




End Selector.

(** ** [components/aircraft-list.tsx] and [components/map-component.tsx] *)

Module Views.
Import OpenSky Tracker.

(** [!!a.matchedModel] *)
Definition hasMatch (a : TrackedAircraft) : bool :=
  match matchedModel a with
  | Some model => truthyStr model
  | None => false
  end.

(** [aircraft.filter(a => a.matchedModel)] and
    [aircraft.filter(a => !a.matchedModel)] *)
Definition matchedAircraft (aircraft : list TrackedAircraft)
  : list TrackedAircraft :=
  List.filter hasMatch aircraft.

Definition otherAircraft (aircraft : list TrackedAircraft)
  : list TrackedAircraft :=
  List.filter (fun a => negb (hasMatch a)) aircraft.

(** [radius > bound] *)
Definition gtR (x y : R) : bool := if Rlt_dec y x then true else false.

(** The zoom that [MapUpdater] sets for a radius. *)
Definition zoomFor (radius : R) : nat :=
  if gtR radius 100 then 8
  else if gtR radius 50 then 9
  else if gtR radius 20 then 10
  else 11.

End Views.

(** ** [hooks/use-flight-tracker.ts]: the entries of the list and the effect *)

Module Cycle.
Import OpenSky HexDB Tracker Spec.

(** The value the callback of [nearbyAircraft.map] returns for an aircraft:
    the aircraft as it is when a coordinate is missing or 0, and else the
    aircraft with the fields the callback adds. *)
Definition tracked (alert : FlightAlert) (previousAircraft : gset string)
    (aircraftInfoMap : Cache) (plane : Aircraft) : TrackedAircraft :=
  let untracked :=
    {| plane := plane; matchedModel := None; distance := None;
       isNew := None; registration := None; aircraftType := None;
       photoUrl := None; thumbnailUrl := None |} in
  match latitude plane, longitude plane with
  | Some planeLat, Some planeLon =>
      if negb (truthy planeLat) || negb (truthy planeLon) then untracked
      else
        let distance :=
          calculateDistance (alert_latitude alert) (alert_longitude alert)
            planeLat planeLon in
        let hexDBInfo := mjoin (aircraftInfoMap !! icao24 plane) in
        let matchedModel :=
          match hexDBInfo with
          | Some info => mapTypeToModel (ICAOTypeCode info)
          | None => None
          end in
        let isNew := negb (bool_decide (icao24 plane ∈ previousAircraft)) in
        let isMatchingModel :=
          match matchedModel with
          | Some model => includes (aircraftModels alert) model
          | None => false
          end in
        let photoData := getAircraftPhoto (icao24 plane) in
        {| plane := plane;
           matchedModel := if isMatchingModel then matchedModel else None;
           distance := Some distance;
           isNew := Some isNew;
           registration := hexDBInfo ≫= Registration;
           aircraftType := typeOrCode hexDBInfo;
           photoUrl := Some (fullImageUrl photoData);
           thumbnailUrl := Some (HexDB.thumbnailUrl photoData) |}
  | _, _ => untracked
  end.

(** The effect of the hook that runs when the alert or [enabled] changes:
    it empties the list when there is nothing to track, and else makes the
    initial fetch, here run to its end. *)
Definition trackerEffect (p : Poll) (w : World) : Outcome :=
  let cleared :=
    {| after :=
         {| hook :=
              {| aircraft := [];
                 isLoading := isLoading (hook w);
                 error := error (hook w);
                 lastUpdate := lastUpdate (hook w);
                 previousAircraftRef := previousAircraftRef (hook w);
                 alertedAircraftRef := alertedAircraftRef (hook w) |};
            aircraftCache := aircraftCache w |};
       shown := []; lookups := []; logged := None |} in
  match alert p with
  | None => cleared
  | Some alert =>
      if negb (active alert) || negb (enabled p) then cleared
      else fetchAircraft p w
  end.

(** What an event announces: its aircraft has both coordinates and a
    resolved model of the watchlist, and the toast or the notification
    carries the name of that model, the call sign of the aircraft and its
    distance from the centre of the alert. *)
Definition announces (a : FlightAlert) (m : Cache) (s : Sinks) (e : Event)
  : Prop :=
  let pl := eventPlane e in
  ∃ (lat lon : R) (model : string) (info : ModelInfo),
    latitude pl = Some lat ∧ longitude pl = Some lon ∧
    resolvedModel m (icao24 pl) = Some model ∧
    includes (aircraftModels a) model = true ∧
    property AIRCRAFT_MODELS model = Some info ∧
    match e with
    | Toasted _ t =>
        toastTitle t = "Alert: " ++ name info ++ " detected!" ∧
        flight t = strOr (callsign pl) "Unknown" ∧
        distanceKm t
        = calculateDistance (alert_latitude a) (alert_longitude a) lat lon ∧
        duration t = 10000%N
    | Notified _ n =>
        notificationGranted s = true ∧
        notificationTitle n = "Aircraft Alert: " ++ name info ∧
        bodyFlight n = strOr (callsign pl) (icao24 pl) ∧
        bodyDistanceKm n
        = calculateDistance (alert_latitude a) (alert_longitude a) lat lon ∧
        icon n = "/airplane-icon.png"
    end.

End Cycle.

(** * Properties *)

Import OpenSky HexDB Tracker Spec.

Local Close Scope string_scope.

(* [set_solver] clears hypotheses that are not always there. *)
#[local] Set Warnings "-clear-no-such-hyp".

(** ** Truthiness *)

Lemma truthy_true (x : R) : x ≠ 0%R → truthy x = true.
Proof. intros Hx. unfold truthy. destruct (Req_EM_T x 0); congruence. Qed.

Lemma truthy_zero : truthy 0 = false.
Proof. unfold truthy. destruct (Req_EM_T 0 0); congruence. Qed.

Lemma truthy_spec (x : R) : truthy x = true ↔ x ≠ 0%R.
Proof.
  unfold truthy. destruct (Req_EM_T x 0) as [->|Hx]; split; congruence.
Qed.

Lemma numOrUndefined_Some (raw : Raw R) (x : R) :
  numOrUndefined raw = Some x ↔ raw = Val x ∧ x ≠ 0%R.
Proof.
  destruct raw as [| |y]; simpl; try (split; [congruence | intros [? _]; congruence]).
  destruct (truthy y) eqn:Hy.
  - apply truthy_spec in Hy. split.
    + intros [= ->]. auto.
    + intros [[= ->] _]. reflexivity.
  - split; [congruence|]. intros [[= ->] Hx].
    apply truthy_spec in Hx. congruence.
Qed.

Lemma numOrUndefined_None (raw : Raw R) :
  numOrUndefined raw = None ↔ raw = Absent ∨ raw = Null ∨ raw = Val 0%R.
Proof.
  destruct raw as [| |y]; simpl; [tauto | tauto |].
  destruct (truthy y) eqn:Hy.
  - apply truthy_spec in Hy. split; [congruence|].
    intros [?|[?|[= ->]]]; congruence.
  - split; [|reflexivity]. intros _. right; right. f_equal.
    destruct (Req_EM_T y 0) as [->|Hne]; [reflexivity|].
    apply truthy_spec in Hne. congruence.
Qed.

Lemma leR_spec (x y : R) : leR x y = true ↔ (x <= y)%R.
Proof. unfold leR. destruct (Rle_dec x y); split; congruence. Qed.

(** ** The geo provider *)

Section Distance.
Local Open Scope R_scope.

Lemma atan2_zero_one : atan2 0 1 = 0.
Proof.
  unfold atan2. destruct (Rlt_dec 0 1) as [_|H]; [|lra].
  replace (0 / 1) with 0 by lra. apply atan_0.
Qed.

Lemma calculateDistance_same (lat lon : R) :
  calculateDistance lat lon lat lon = 0.
Proof.
  unfold calculateDistance.
  replace ((lat - lat) * PI / 180 / 2) with 0 by lra.
  replace ((lon - lon) * PI / 180 / 2) with 0 by lra.
  rewrite sin_0.
  replace (0 * 0 + cos (lat * PI / 180) * cos (lat * PI / 180) * 0 * 0)
    with 0 by ring.
  rewrite Rminus_0_r, sqrt_0, sqrt_1, atan2_zero_one. ring.
Qed.

Lemma calculateDistance_swap (lat1 lon1 lat2 lon2 : R) :
  calculateDistance lat1 lon1 lat2 lon2 = calculateDistance lat2 lon2 lat1 lon1.
Proof.
  unfold calculateDistance.
  replace ((lat1 - lat2) * PI / 180 / 2)
    with (- ((lat2 - lat1) * PI / 180 / 2)) by lra.
  replace ((lon1 - lon2) * PI / 180 / 2)
    with (- ((lon2 - lon1) * PI / 180 / 2)) by lra.
  rewrite !sin_neg.
  set (s := sin ((lat2 - lat1) * PI / 180 / 2)).
  set (t := sin ((lon2 - lon1) * PI / 180 / 2)).
  set (c1 := cos (lat1 * PI / 180)).
  set (c2 := cos (lat2 * PI / 180)).
  replace (- s * - s + c2 * c1 * - t * - t) with (s * s + c1 * c2 * t * t)
    by ring.
  reflexivity.
Qed.


End Distance.

Lemma inRadius_spec (lat lon radiusKm : R) (a : Aircraft) :
  inRadius lat lon radiusKm a = true ↔
  ∃ aLat aLon : R,
    latitude a = Some aLat ∧ longitude a = Some aLon ∧
    aLat ≠ 0%R ∧ aLon ≠ 0%R ∧
    (calculateDistance lat lon aLat aLon <= radiusKm)%R.
Proof.
  unfold inRadius.
  destruct (latitude a) as [aLat|], (longitude a) as [aLon|];
    try (split; [discriminate | intros (? & ? & ? & ? & _); congruence]).
  destruct (truthy aLat) eqn:Hlat, (truthy aLon) eqn:Hlon; simpl.
  - apply truthy_spec in Hlat, Hlon. rewrite leR_spec. split.
    + intros Hd. exists aLat, aLon. auto.
    + intros (x & y & [= <-] & [= <-] & _ & _ & Hd). exact Hd.
  - split; [discriminate|].
    intros (x & y & _ & [= <-] & _ & Hy & _).
    apply truthy_spec in Hy. congruence.
  - split; [discriminate|].
    intros (x & y & [= <-] & _ & Hx & _).
    apply truthy_spec in Hx. congruence.
  - split; [discriminate|].
    intros (x & y & [= <-] & _ & Hx & _).
    apply truthy_spec in Hx. congruence.
Qed.

Lemma getAircraftInRadius_In (feed : GeoFeed) (lat lon radiusKm : R)
    (a : Aircraft) :
  In a (getAircraftInRadius feed lat lon radiusKm) ↔
  In a (getStatesInArea feed (calculateBoundingBox lat lon radiusKm)) ∧
  inRadius lat lon radiusKm a = true.
Proof. unfold getAircraftInRadius. apply filter_In. Qed.

Lemma getAircraftInRadius_valid (feed : GeoFeed) (lat lon radiusKm : R)
    (a : Aircraft) :
  In a (getAircraftInRadius feed lat lon radiusKm) → validPosition a.
Proof.
  intros [_ Hin]%getAircraftInRadius_In.
  apply inRadius_spec in Hin as (x & y & Hx & Hy & Hx0 & Hy0 & _).
  exists x, y. auto.
Qed.

(** C2. Radius-query soundness: for every centre, every radius [r > 0] and
    every reply of the bounding-box fetch, an aircraft returned by
    [getAircraftInRadius] is one of the box, carries a valid position and is
    at haversine distance at most [r] from the centre; an aircraft of the box
    at a distance above [r] is not returned. *)
Theorem radius_query_sound (feed : GeoFeed) (lat lon r : R) (a : Aircraft) :
  (0 < r)%R →
  In a (getAircraftInRadius feed lat lon r) →
  In a (getStatesInArea feed (calculateBoundingBox lat lon r)) ∧
  (∃ aLat aLon : R,
     latitude a = Some aLat ∧ longitude a = Some aLon ∧
     aLat ≠ 0%R ∧ aLon ≠ 0%R ∧
     (calculateDistance lat lon aLat aLon <= r)%R) ∧
  (∀ (b : Aircraft) (bLat bLon : R),
     latitude b = Some bLat → longitude b = Some bLon →
     (r < calculateDistance lat lon bLat bLon)%R →
     ¬ In b (getAircraftInRadius feed lat lon r)).
Proof.
  intros _ [Hbox Hin]%getAircraftInRadius_In. split; [exact Hbox|]. split.
  - apply inRadius_spec in Hin. exact Hin.
  - intros b bLat bLon Hlat Hlon Hfar [_ Hb]%getAircraftInRadius_In.
    apply inRadius_spec in Hb as (x & y & Hx & Hy & _ & _ & Hd).
    rewrite Hlat in Hx. rewrite Hlon in Hy.
    injection Hx as <-. injection Hy as <-. lra.
Qed.

Lemma overhead_in_radius :
  In (parseAircraft Scenario.overhead)
     (getAircraftInRadius (Scenario.reporting [Scenario.overhead])
        59.3293 18.0686 50).
Proof.
  apply getAircraftInRadius_In. split.
  - left. reflexivity.
  - apply inRadius_spec. exists 59.3293%R, 18.0686%R.
    split; [apply numOrUndefined_Some; split; [reflexivity | lra]|].
    split; [apply numOrUndefined_Some; split; [reflexivity | lra]|].
    split; [lra|]. split; [lra|].
    rewrite calculateDistance_same. lra.
Qed.

Lemma radius_query_sound_witness :
  In (parseAircraft Scenario.overhead)
     (getStatesInArea (Scenario.reporting [Scenario.overhead])
        (calculateBoundingBox 59.3293 18.0686 50)) ∧
  (∃ aLat aLon : R,
     latitude (parseAircraft Scenario.overhead) = Some aLat ∧
     longitude (parseAircraft Scenario.overhead) = Some aLon ∧
     aLat ≠ 0%R ∧ aLon ≠ 0%R ∧
     (calculateDistance 59.3293 18.0686 aLat aLon <= 50)%R) ∧
  (∀ (b : Aircraft) (bLat bLon : R),
     latitude b = Some bLat → longitude b = Some bLon →
     (50 < calculateDistance 59.3293 18.0686 bLat bLon)%R →
     ¬ In b (getAircraftInRadius (Scenario.reporting [Scenario.overhead])
               59.3293 18.0686 50)).
Proof.
  apply (radius_query_sound (Scenario.reporting [Scenario.overhead])
           59.3293 18.0686 50 (parseAircraft Scenario.overhead)).
  - lra.
  - exact overhead_in_radius.
Defined.

(** C6. Haversine distance algebra: for all pairs of coordinates,
    [calculateDistance] gives the same distance from [a] to [b] as from [b]
    to [a], and the distance from a point to itself is [0]. *)
Theorem calculateDistance_symmetric_zero :
  (∀ lat1 lon1 lat2 lon2 : R,
     calculateDistance lat1 lon1 lat2 lon2 =
     calculateDistance lat2 lon2 lat1 lon1) ∧
  (∀ lat lon : R, calculateDistance lat lon lat lon = 0%R).
Proof.
  split.
  - exact calculateDistance_swap.
  - exact calculateDistance_same.
Qed.

(** C8. Geo-fetch failure recovery: for every bounding box, when the request
    for the state vectors fails, or its response has no body or no [states],
    [getStatesInArea] returns the empty list. *)
Theorem getStatesInArea_recovers (feed : GeoFeed) (box : BoundingBox) :
  feed box = StatesRejected ∨
  feed box = StatesResponse None ∨
  (∃ data, feed box = StatesResponse (Some data) ∧ states data = None) →
  getStatesInArea feed box = [].
Proof.
  unfold getStatesInArea.
  intros [-> | [-> | (data & -> & ->)]]; reflexivity.
Qed.

Lemma getStatesInArea_recovers_witness :
  getStatesInArea Scenario.geoDown (calculateBoundingBox 59.3293 18.0686 50) = [] ∧
  getStatesInArea Scenario.emptySky (calculateBoundingBox 59.3293 18.0686 50) = [].
Proof.
  split.
  - apply (getStatesInArea_recovers Scenario.geoDown). left. reflexivity.
  - apply (getStatesInArea_recovers Scenario.emptySky). right. right.
    eexists. split; reflexivity.
Defined.

(** C5. State-vector parsing and zero: at a state whose velocity, altitude
    and latitude are the number [0], [parseAircraft] gives [undefined] for
    the three fields, where the feed means the number [0]. *)
Theorem parseAircraft_zero_is_undefined :
  state_9 Scenario.onEquator = Val 0%R ∧
  velocity (parseAircraft Scenario.onEquator) = None ∧
  state_7 Scenario.onEquator = Val 0%R ∧
  baro_altitude (parseAircraft Scenario.onEquator) = None ∧
  state_6 Scenario.onEquator = Val 0%R ∧
  latitude (parseAircraft Scenario.onEquator) = None.
Proof.
  repeat split; simpl; rewrite truthy_zero; reflexivity.
Qed.

(** What [parseAircraft] does at every optional numeric field: the field is
    [undefined] exactly when the position is absent, [null] or [0], and it
    is the number of the feed otherwise. *)
Lemma parseAircraft_numeric (state : State) (raw : Raw R) (parsed : option R) :
  In (raw, parsed) (numericFields state (parseAircraft state)) →
  parsed = numOrUndefined raw.
Proof.
  simpl. intros H.
  repeat (destruct H as [[= <- <-] | H]; [reflexivity|]). destruct H.
Qed.

(** ** The type resolver *)

Lemma getAircraftInfo_value (feed : TypeFeed) (id : string) (c : Cache) :
  value (getAircraftInfo feed id c) = known feed c id.
Proof. unfold getAircraftInfo, known. destruct (c !! id); reflexivity. Qed.

Lemma getAircraftInfo_cache (feed : TypeFeed) (id : string) (c : Cache) :
  cacheAfter (getAircraftInfo feed id c) !! id = Some (known feed c id) ∧
  ∀ k, k ≠ id → cacheAfter (getAircraftInfo feed id c) !! k = c !! k.
Proof.
  unfold getAircraftInfo, known. destruct (c !! id) eqn:Hc; simpl.
  - split; [exact Hc | reflexivity].
  - split; [apply lookup_insert_eq |].
    intros k Hk. apply lookup_insert_ne. congruence.
Qed.

Lemma getAircraftInfo_requested (feed : TypeFeed) (id : string) (c : Cache) :
  ∀ k, k ∈ requested (getAircraftInfo feed id c) → k = id ∧ c !! k = None.
Proof.
  unfold getAircraftInfo. destruct (c !! id) eqn:Hc; simpl; intros k Hk.
  - inversion Hk.
  - apply list_elem_of_singleton in Hk as ->. auto.
Qed.

Lemma getAircraftInfo_cached (feed : TypeFeed) (id : string) (c : Cache)
    (v : option HexDBResponse) :
  c !! id = Some v →
  getAircraftInfo feed id c = {| value := v; cacheAfter := c; requested := [] |}.
Proof. intros Hc. unfold getAircraftInfo. rewrite Hc. reflexivity. Qed.

(** A cache that binds some identifiers more, each to the record a
    standalone resolve returns for it, resolves every identifier alike. *)
Lemma known_stable (feed : TypeFeed) (c c' : Cache) :
  (∀ k, c' !! k = c !! k ∨ c' !! k = Some (known feed c k)) →
  ∀ k, known feed c' k = known feed c k.
Proof.
  intros H k. unfold known at 1. destruct (H k) as [-> | ->]; reflexivity.
Qed.

Lemma resolves_known (feed : TypeFeed) (c : Cache) (ids : list string)
    (c' : Cache) :
  resolves feed c ids c c' → ∀ k, known feed c' k = known feed c k.
Proof.
  intros H. apply known_stable. intros k.
  destruct (decide (k ∈ ids)) as [Hin | Hout].
  - right. apply H, Hin.
  - left. apply H, Hout.
Qed.

Lemma resolves_nil (feed : TypeFeed) (c base : Cache) :
  resolves feed c [] base base.
Proof. intros k. split; [intros H; inversion H | reflexivity]. Qed.

(** Resolving a first list and then, from what that gave, a second one
    resolves the two lists together. *)
Lemma resolves_app (feed : TypeFeed) (c c1 : Cache) (ids1 ids2 : list string)
    (base m1 m2 : Cache) :
  (∀ k, known feed c1 k = known feed c k) →
  resolves feed c ids1 base m1 →
  resolves feed c1 ids2 m1 m2 →
  resolves feed c (ids1 ++ ids2) base m2.
Proof.
  intros Hk H1 H2 k. rewrite elem_of_app. split.
  - intros Hin. destruct (decide (k ∈ ids2)) as [Hin2 | Hout2].
    + rewrite <- Hk. apply H2, Hin2.
    + destruct Hin as [Hin1 | Hin2]; [|contradiction].
      rewrite (proj2 (H2 k)) by exact Hout2. apply H1, Hin1.
  - intros Hout. rewrite (proj2 (H2 k)) by tauto. apply H1. tauto.
Qed.

Lemma setAll_cons (id : string) (v : option HexDBResponse)
    (rest : list (string * option HexDBResponse)) (results : Cache) :
  setAll ((id, v) :: rest) results = setAll rest (<[id := v]> results).
Proof. reflexivity. Qed.

Lemma setAll_resolves (feed : TypeFeed) (c : Cache) (batch : list string)
    (results : Cache) :
  resolves feed c batch results
    (setAll (List.map (fun id => (id, known feed c id)) batch) results).
Proof.
  revert results. induction batch as [|id batch IH]; intros results.
  - apply resolves_nil.
  - rewrite map_cons, setAll_cons. intros k.
    destruct (IH (<[id := known feed c id]> results) k) as [IHin IHout].
    rewrite elem_of_cons. split.
    + intros Hk. destruct (decide (k ∈ batch)) as [Hin | Hout]; [auto|].
      rewrite IHout by exact Hout.
      destruct Hk as [-> | Hk]; [apply lookup_insert_eq | contradiction].
    + intros Hk. rewrite IHout by tauto.
      apply lookup_insert_ne. intros ->. tauto.
Qed.

(** The calls of a batch, started on the cache [c0] and finished on a cache
    [c] that the earlier calls of the batch have filled. *)
Lemma finishCalls_spec (feed : TypeFeed) (c0 : Cache) (batch : list string)
    (c : Cache) :
  (∀ k, c !! k = c0 !! k ∨ c !! k = Some (known feed c0 k)) →
  fst (finishCalls feed
         (List.map (fun id => (id, startCall c0 id)) batch) c)
  = List.map (fun id => (id, known feed c0 id)) batch ∧
  resolves feed c0 batch c
    (snd (finishCalls feed
            (List.map (fun id => (id, startCall c0 id)) batch) c)).
Proof.
  revert c. induction batch as [|id batch IH]; intros c Hc.
  - split; [reflexivity | apply resolves_nil].
  - simpl. unfold startCall at 1 3, known at 1.
    destruct (c0 !! id) as [cached|] eqn:H0; simpl.
    + destruct (IH c Hc) as [IHv IHc].
      destruct (finishCalls feed _ c) as [results c2] eqn:Hf. simpl in *.
      split; [rewrite IHv; reflexivity|].
      intros k. rewrite elem_of_cons. split.
      * intros Hk. destruct (decide (k ∈ batch)) as [Hin | Hout].
        { apply IHc, Hin. }
        rewrite (proj2 (IHc k)) by exact Hout.
        destruct Hk as [-> | Hk]; [|contradiction].
        destruct (Hc id) as [-> | ->]; [|reflexivity].
        rewrite H0. unfold known. rewrite H0. reflexivity.
      * intros Hk. apply IHc. tauto.
    + assert (Hc' : ∀ k, <[id := settle (feed id)]> c !! k = c0 !! k ∨
                         <[id := settle (feed id)]> c !! k
                         = Some (known feed c0 k)).
      { intros k. destruct (decide (k = id)) as [-> | Hne].
        - right. rewrite lookup_insert_eq. unfold known. rewrite H0.
          reflexivity.
        - rewrite lookup_insert_ne by congruence. apply Hc. }
      destruct (IH _ Hc') as [IHv IHc].
      destruct (finishCalls feed _ (<[id := settle (feed id)]> c))
        as [results c2] eqn:Hf. simpl in *.
      split; [rewrite IHv; reflexivity|].
      intros k. rewrite elem_of_cons. split.
      * intros Hk. destruct (decide (k ∈ batch)) as [Hin | Hout].
        { apply IHc, Hin. }
        rewrite (proj2 (IHc k)) by exact Hout.
        destruct Hk as [-> | Hk]; [|contradiction].
        rewrite lookup_insert_eq. unfold known. rewrite H0. reflexivity.
      * intros Hk. rewrite (proj2 (IHc k)) by tauto.
        apply lookup_insert_ne. intros ->. tauto.
Qed.

Lemma requestOf_startCall (c : Cache) (batch : list string) (k : string) :
  k ∈ List.concat
        (List.map requestOf
           (List.map (fun id => (id, startCall c id)) batch)) →
  k ∈ batch ∧ c !! k = None.
Proof.
  induction batch as [|id batch IH]; simpl.
  - intros H. inversion H.
  - rewrite elem_of_app. intros [Hk | Hk].
    + unfold requestOf, startCall in Hk. simpl in Hk.
      destruct (c !! id) eqn:Hc; simpl in Hk.
      * inversion Hk.
      * apply list_elem_of_singleton in Hk as ->.
        split; [left | exact Hc].
    + destruct (IH Hk) as [Hin Hnone]. split; [right; exact Hin | exact Hnone].
Qed.

Lemma awaitBatch_spec (feed : TypeFeed) (batch : list string) (c : Cache) :
  value (awaitBatch feed batch c)
  = List.map (fun id => (id, known feed c id)) batch ∧
  resolves feed c batch c (cacheAfter (awaitBatch feed batch c)) ∧
  ∀ k, k ∈ requested (awaitBatch feed batch c) → k ∈ batch ∧ c !! k = None.
Proof.
  unfold awaitBatch.
  pose proof (finishCalls_spec feed c batch c (fun k => or_introl eq_refl))
    as [Hv Hc].
  destruct (finishCalls feed _ c) as [results c'] eqn:Hf. simpl in *.
  split; [exact Hv|]. split; [exact Hc|].
  apply requestOf_startCall.
Qed.

Lemma resolves_monotone (feed : TypeFeed) (c : Cache) (ids : list string)
    (c' : Cache) (k : string) (v : option HexDBResponse) :
  resolves feed c ids c c' → c !! k = Some v → c' !! k = Some v.
Proof.
  intros H Hk. destruct (decide (k ∈ ids)) as [Hin | Hout].
  - rewrite (proj1 (H k) Hin). unfold known. rewrite Hk. reflexivity.
  - rewrite (proj2 (H k) Hout). exact Hk.
Qed.

Lemma resolves_None (feed : TypeFeed) (c : Cache) (ids : list string)
    (c' : Cache) (k : string) :
  resolves feed c ids c c' → c' !! k = None → c !! k = None.
Proof.
  intros H Hk. destruct (c !! k) as [v|] eqn:Hc; [|reflexivity].
  rewrite (resolves_monotone feed c ids c' k v H Hc) in Hk. discriminate.
Qed.

(** The loop of [getMultipleAircraftInfo], with rounds enough for what is
    left of the list: it binds what is left, in the results and in the
    cache, and requests nothing that the cache held. *)
Lemma batchLoop_spec (feed : TypeFeed) (l : list string) (rounds : nat) :
  ∀ (i : nat) (results c : Cache) (sent : list string),
    length l ≤ i + rounds →
    resolves feed c (drop i l) results
      (value (batchLoop rounds feed l i results c sent)) ∧
    resolves feed c (drop i l) c
      (cacheAfter (batchLoop rounds feed l i results c sent)) ∧
    ∀ k, k ∈ requested (batchLoop rounds feed l i results c sent) →
         k ∈ sent ∨ (k ∈ l ∧ c !! k = None).
Proof.
  induction rounds as [|rounds IH]; intros i results c sent Hlen.
  - simpl. rewrite drop_ge by lia.
    split; [apply resolves_nil|]. split; [apply resolves_nil|]. auto.
  - simpl. destruct (Nat.ltb i (length l)) eqn:Hi.
    + apply Nat.ltb_lt in Hi.
      destruct (awaitBatch_spec feed (take batchSize (drop i l)) c)
        as (Hv & Hc & Hreq).
      set (r := awaitBatch feed (take batchSize (drop i l)) c) in *.
      pose proof (resolves_known feed c _ _ Hc) as Hk.
      destruct (IH (i + batchSize) (setAll (value r) results) (cacheAfter r)
                  (sent ++ requested r)) as (IHv & IHc & IHreq).
      { unfold batchSize. lia. }
      rewrite <- (take_drop batchSize (drop i l)), drop_drop.
      split; [|split].
      * eapply resolves_app; [exact Hk | | exact IHv].
        rewrite Hv. apply setAll_resolves.
      * eapply resolves_app; [exact Hk | exact Hc | exact IHc].
      * intros k Hin. destruct (IHreq k Hin) as [Hs | [Hl Hnone]].
        { apply elem_of_app in Hs as [Hs | Hs]; [left; exact Hs|].
          right. destruct (Hreq k Hs) as [Hb Hnone]. split; [|exact Hnone].
          apply elem_of_take in Hb as (j & Hj & _).
          rewrite lookup_drop in Hj. eapply list_elem_of_lookup_2, Hj. }
        right. split; [exact Hl|].
        eapply resolves_None; [exact Hc | exact Hnone].
    + apply Nat.ltb_ge in Hi. simpl. rewrite drop_ge by lia.
      split; [apply resolves_nil|]. split; [apply resolves_nil|]. auto.
Qed.

Lemma getMultipleAircraftInfo_spec (feed : TypeFeed) (ids : list string)
    (c : Cache) :
  resolves feed c ids ∅ (value (getMultipleAircraftInfo feed ids c)) ∧
  resolves feed c ids c (cacheAfter (getMultipleAircraftInfo feed ids c)) ∧
  ∀ k, k ∈ requested (getMultipleAircraftInfo feed ids c) →
       k ∈ ids ∧ c !! k = None.
Proof.
  unfold getMultipleAircraftInfo.
  destruct (batchLoop_spec feed ids (length ids) 0 ∅ c []) as (Hv & Hc & Hr).
  { lia. }
  rewrite drop_0 in Hv, Hc. split; [exact Hv|]. split; [exact Hc|].
  intros k Hk. destruct (Hr k Hk) as [Hnil | H]; [inversion Hnil | exact H].
Qed.

Lemma resolveEach_spec (feed : TypeFeed) (ids : list string) :
  ∀ results c : Cache,
    resolves feed c ids results (fst (resolveEach feed ids results c)) ∧
    resolves feed c ids c (snd (resolveEach feed ids results c)).
Proof.
  induction ids as [|id ids IH]; intros results c.
  - split; apply resolves_nil.
  - simpl.
    destruct (getAircraftInfo_cache feed id c) as [Hid Hother].
    set (r := getAircraftInfo feed id c) in *.
    assert (Hc1 : resolves feed c [id] c (cacheAfter r)).
    { intros k. rewrite list_elem_of_singleton. split.
      - intros ->. exact Hid.
      - intros Hne. apply Hother, Hne. }
    assert (Hr1 : resolves feed c [id] results (<[id := value r]> results)).
    { intros k. rewrite list_elem_of_singleton. split.
      - intros ->. rewrite lookup_insert_eq. subst r.
        rewrite getAircraftInfo_value. reflexivity.
      - intros Hne. apply lookup_insert_ne. congruence. }
    pose proof (resolves_known feed c _ _ Hc1) as Hk.
    destruct (IH (<[id := value r]> results) (cacheAfter r)) as [IHv IHc].
    change (id :: ids) with ([id] ++ ids). split.
    + eapply resolves_app; [exact Hk | exact Hr1 | exact IHv].
    + eapply resolves_app; [exact Hk | exact Hc1 | exact IHc].
Qed.

Lemma resolves_unique (feed : TypeFeed) (c : Cache) (ids : list string)
    (base m1 m2 : Cache) :
  resolves feed c ids base m1 → resolves feed c ids base m2 → m1 = m2.
Proof.
  intros H1 H2. apply map_eq. intros k.
  destruct (decide (k ∈ ids)) as [Hin | Hout].
  - rewrite (proj1 (H1 k) Hin), (proj1 (H2 k) Hin). reflexivity.
  - rewrite (proj2 (H1 k) Hout), (proj2 (H2 k) Hout). reflexivity.
Qed.

(** The loop reads the list only from its index on. *)
Lemma batchLoop_shift (feed : TypeFeed) (rounds : nat) :
  ∀ (l : list string) (i : nat) (results c : Cache) (sent : list string),
    batchLoop rounds feed l i results c sent
    = batchLoop rounds feed (drop i l) 0 results c sent.
Proof.
  induction rounds as [|rounds IH]; intros l i results c sent; [reflexivity|].
  cbn [batchLoop]. rewrite length_drop.
  replace (Nat.ltb 0 (length l - i)) with (Nat.ltb i (length l)).
  - destruct (Nat.ltb i (length l)); [|reflexivity].
    rewrite drop_0, (IH l), (IH (drop i l)), drop_drop. reflexivity.
  - destruct (Nat.ltb_spec i (length l)), (Nat.ltb_spec 0 (length l - i));
      try reflexivity; lia.
Qed.

(** Rounds beyond the length of the list change nothing. *)
Lemma batchLoop_rounds (feed : TypeFeed) (n : nat) :
  ∀ (m : nat) (l : list string) (results c : Cache) (sent : list string),
    length l ≤ n → length l ≤ m →
    batchLoop n feed l 0 results c sent = batchLoop m feed l 0 results c sent.
Proof.
  induction n as [|n IH]; intros m l results c sent Hn Hm.
  - destruct l; [|simpl in Hn; lia]. destruct m; reflexivity.
  - destruct m as [|m].
    + destruct l; [|simpl in Hm; lia]. reflexivity.
    + simpl. destruct (Nat.ltb 0 (length l)) eqn:Hl; [|reflexivity].
      apply Nat.ltb_lt in Hl.
      rewrite batchLoop_shift, (batchLoop_shift feed m).
      apply IH; rewrite length_drop; unfold batchSize; lia.
Qed.

Lemma batchLoop_step (feed : TypeFeed) (rounds : nat) (l : list string)
    (i : nat) (results c : Cache) (sent : list string) :
  i < length l →
  batchLoop (S rounds) feed l i results c sent
  = batchLoop rounds feed l (i + batchSize)
      (setAll (value (awaitBatch feed (take batchSize (drop i l)) c)) results)
      (cacheAfter (awaitBatch feed (take batchSize (drop i l)) c))
      (sent ++ requested (awaitBatch feed (take batchSize (drop i l)) c)).
Proof.
  intros Hi. cbn [batchLoop].
  apply Nat.ltb_lt in Hi. rewrite Hi. reflexivity.
Qed.

(** [getMultipleAircraftInfo] takes the list ten identifiers at a time:
    a list that starts with ten identifiers is resolved by resolving these
    as one batch and going on with the rest of the list. *)
Lemma getMultipleAircraftInfo_chunk (feed : TypeFeed) (b rest : list string)
    (c : Cache) :
  length b = 10 →
  getMultipleAircraftInfo feed (b ++ rest) c
  = batchLoop (length rest) feed rest 0
      (setAll (value (awaitBatch feed b c)) ∅)
      (cacheAfter (awaitBatch feed b c))
      (requested (awaitBatch feed b c)).
Proof.
  intros Hb. unfold getMultipleAircraftInfo.
  replace (length (b ++ rest)) with (S (9 + length rest))
    by (rewrite length_app; lia).
  rewrite batchLoop_step by (rewrite length_app; lia).
  rewrite drop_0. unfold batchSize.
  rewrite take_app_length' by (symmetry; exact Hb).
  rewrite batchLoop_shift, drop_app_length' by (simpl; lia).
  apply batchLoop_rounds; lia.
Qed.

(** A list of at most ten identifiers is resolved as one batch. *)
Lemma getMultipleAircraftInfo_last (feed : TypeFeed) (b : list string)
    (c : Cache) :
  b ≠ [] → length b ≤ 10 →
  getMultipleAircraftInfo feed b c
  = {| value := setAll (value (awaitBatch feed b c)) ∅;
       cacheAfter := cacheAfter (awaitBatch feed b c);
       requested := requested (awaitBatch feed b c) |}.
Proof.
  intros Hne Hb. unfold getMultipleAircraftInfo.
  destruct b as [|id b]; [congruence|].
  change (length (id :: b)) with (S (length b)) at 1.
  rewrite batchLoop_step by (simpl; lia).
  rewrite drop_0. unfold batchSize.
  rewrite take_ge by exact Hb.
  rewrite batchLoop_shift, drop_ge by (simpl; exact Hb).
  destruct (length b); reflexivity.
Qed.

Lemma fetches_absent (id : string) (sent : list string) :
  id ∉ sent → fetches id sent = 0.
Proof.
  unfold fetches. induction sent as [|k sent IH]; intros Hout; [reflexivity|].
  simpl. destruct (String.eqb id k) eqn:Hk.
  - apply String.eqb_eq in Hk as ->. exfalso. apply Hout. left.
  - apply IH. intros Hin. apply Hout. right. exact Hin.
Qed.

Lemma fetches_app (id : string) (sent1 sent2 : list string) :
  fetches id (sent1 ++ sent2) = fetches id sent1 + fetches id sent2.
Proof. unfold fetches. rewrite List.filter_app, length_app. reflexivity. Qed.

(** A cached identifier stays cached as it is, and is not requested again,
    whatever the program resolves afterwards. *)
Lemma runOps_cached (id : string) (ops : list (TypeFeed * Op)) :
  ∀ (c : Cache) (v : option HexDBResponse),
    c !! id = Some v →
    fst (runOps ops c) !! id = Some v ∧ id ∉ snd (runOps ops c).
Proof.
  induction ops as [|[feed op] ops IH]; intros c v Hc.
  - split; [exact Hc | intros H; inversion H].
  - destruct op as [k | ks]; simpl.
    + assert (Hc' : cacheAfter (getAircraftInfo feed k c) !! id = Some v).
      { destruct (getAircraftInfo_cache feed k c) as [Hk Hother].
        destruct (decide (id = k)) as [-> | Hne].
        - rewrite Hk. unfold known. rewrite Hc. reflexivity.
        - rewrite Hother by exact Hne. exact Hc. }
      destruct (IH _ _ Hc') as [IHc IHs].
      destruct (runOps ops _) as [c2 sent]. simpl in *.
      split; [exact IHc|]. rewrite elem_of_app. intros [Hr | Hs]; [|tauto].
      apply getAircraftInfo_requested in Hr as [_ Hnone]. congruence.
    + destruct (getMultipleAircraftInfo_spec feed ks c) as (_ & Hcache & Hreq).
      pose proof (resolves_monotone _ _ _ _ _ _ Hcache Hc) as Hc'.
      destruct (IH _ _ Hc') as [IHc IHs].
      destruct (runOps ops _) as [c2 sent]. simpl in *.
      split; [exact IHc|]. rewrite elem_of_app. intros [Hr | Hs]; [|tauto].
      apply Hreq in Hr as [_ Hnone]. congruence.
Qed.

(** C4. Type-resolution caching: two calls of [getAircraftInfo] with one
    identifier, the second awaited after the first, request the identifier
    from the feed at most once and return the same record, whatever the feed
    does at the two times; a cached "not found" is returned with no request;
    and once a call has resolved the identifier, with a record or with "not
    found", no later call of the resolver, single or batch, requests it
    again or changes what is cached for it. *)
Theorem resolve_fetches_once (id : string) (c : Cache) :
  (∀ feed1 feed2 : TypeFeed,
     let r1 := getAircraftInfo feed1 id c in
     let r2 := getAircraftInfo feed2 id (cacheAfter r1) in
     fetches id (requested r1 ++ requested r2) ≤ 1 ∧
     requested r2 = [] ∧
     value r2 = value r1) ∧
  (∀ feed : TypeFeed,
     c !! id = Some None →
     getAircraftInfo feed id c
     = {| value := None; cacheAfter := c; requested := [] |}) ∧
  (∀ (feed : TypeFeed) (ops : list (TypeFeed * Op)),
     let r := getAircraftInfo feed id c in
     fetches id (snd (runOps ops (cacheAfter r))) = 0 ∧
     fst (runOps ops (cacheAfter r)) !! id = Some (value r)).
Proof.
  assert (Hafter : ∀ feed : TypeFeed,
            cacheAfter (getAircraftInfo feed id c) !! id
            = Some (value (getAircraftInfo feed id c))).
  { intros feed. rewrite getAircraftInfo_value.
    apply getAircraftInfo_cache. }
  split; [|split].
  - intros feed1 feed2 r1 r2.
    assert (Hr2 : r2 = {| value := value r1; cacheAfter := cacheAfter r1;
                          requested := [] |}).
    { apply getAircraftInfo_cached, Hafter. }
    rewrite Hr2. simpl. rewrite app_nil_r. split; [|auto].
    subst r1. unfold getAircraftInfo. destruct (c !! id); simpl.
    + unfold fetches. simpl. lia.
    + unfold fetches. simpl. rewrite String.eqb_refl. simpl. lia.
  - intros feed Hc. apply getAircraftInfo_cached, Hc.
  - intros feed ops r.
    destruct (runOps_cached id ops _ _ (Hafter feed)) as [Hc Hs].
    split; [apply fetches_absent, Hs | exact Hc].
Qed.

Lemma resolve_fetches_once_witness :
  let id := "4ac9e5"%string in
  let r1 := getAircraftInfo Scenario.notFound id ∅ in
  let r2 := getAircraftInfo Scenario.allBoeing id (cacheAfter r1) in
  let later :=
    runOps [(Scenario.allBoeing, Batch Scenario.twelve);
            (Scenario.allBoeing, Info id)] (cacheAfter r1) in
  (fetches id (requested r1 ++ requested r2) ≤ 1 ∧
   requested r2 = [] ∧ value r2 = value r1) ∧
  r2 = {| value := None; cacheAfter := cacheAfter r1; requested := [] |} ∧
  (fetches id (snd later) = 0 ∧ fst later !! id = Some (value r1)).
Proof.
  intros id r1 r2 later.
  destruct (resolve_fetches_once id ∅) as (Htwice & _ & Hlater).
  destruct (resolve_fetches_once id (cacheAfter r1)) as (_ & Hnull & _).
  split; [apply (Htwice Scenario.notFound Scenario.allBoeing)|].
  split; [apply (Hnull Scenario.allBoeing); reflexivity|].
  apply (Hlater Scenario.notFound).
Defined.

(** C7. Batch resolution refines pointwise resolution:
    [getMultipleAircraftInfo] takes the list ten identifiers at a time, the
    last batch being what is left, and the map it returns and the cache it
    leaves are those of resolving the identifiers one by one with
    [getAircraftInfo]; the keys of the map are exactly the identifiers of
    the list, and each is bound to the record that a standalone
    [getAircraftInfo] returns for it, asked before the batch or after it. *)
Theorem batch_refines_pointwise (feed : TypeFeed) (ids : list string)
    (c : Cache) :
  let r := getMultipleAircraftInfo feed ids c in
  (∀ b rest : list string,
     ids = b ++ rest → length b = 10 →
     r = batchLoop (length rest) feed rest 0
           (setAll (value (awaitBatch feed b c)) ∅)
           (cacheAfter (awaitBatch feed b c))
           (requested (awaitBatch feed b c))) ∧
  (ids ≠ [] → length ids ≤ 10 →
     r = {| value := setAll (value (awaitBatch feed ids c)) ∅;
            cacheAfter := cacheAfter (awaitBatch feed ids c);
            requested := requested (awaitBatch feed ids c) |}) ∧
  (value r, cacheAfter r) = resolveEach feed ids ∅ c ∧
  dom (value r) = list_to_set ids ∧
  (∀ id : string,
     id ∈ ids →
     value r !! id = Some (value (getAircraftInfo feed id c)) ∧
     ∀ feed' : TypeFeed,
       value r !! id = Some (value (getAircraftInfo feed' id (cacheAfter r)))).
Proof.
  intros r.
  destruct (getMultipleAircraftInfo_spec feed ids c) as (Hv & Hc & _).
  destruct (resolveEach_spec feed ids ∅ c) as [Sv Sc].
  fold r in Hv, Hc.
  split; [|split; [|split; [|split]]].
  - intros b rest -> Hb. apply getMultipleAircraftInfo_chunk, Hb.
  - apply getMultipleAircraftInfo_last.
  - rewrite (surjective_pairing (resolveEach feed ids ∅ c)). f_equal.
    + eapply resolves_unique; [exact Hv | exact Sv].
    + eapply resolves_unique; [exact Hc | exact Sc].
  - apply set_eq. intros k. rewrite elem_of_dom, elem_of_list_to_set.
    destruct (decide (k ∈ ids)) as [Hin | Hout].
    + rewrite (proj1 (Hv k) Hin). split; [auto | eauto].
    + rewrite (proj2 (Hv k) Hout), lookup_empty. split.
      * intros [? ?]. discriminate.
      * contradiction.
  - intros id Hin. rewrite (proj1 (Hv id) Hin). split.
    + rewrite getAircraftInfo_value. reflexivity.
    + intros feed'. rewrite getAircraftInfo_value.
      unfold known at 2. rewrite (proj1 (Hc id) Hin). reflexivity.
Qed.

Lemma batch_refines_pointwise_witness :
  let r := getMultipleAircraftInfo Scenario.allBoeing Scenario.twelve ∅ in
  let ten := take 10 Scenario.twelve in
  r = batchLoop 2 Scenario.allBoeing (drop 10 Scenario.twelve) 0
        (setAll (value (awaitBatch Scenario.allBoeing ten ∅)) ∅)
        (cacheAfter (awaitBatch Scenario.allBoeing ten ∅))
        (requested (awaitBatch Scenario.allBoeing ten ∅)) ∧
  (value r, cacheAfter r) = resolveEach Scenario.allBoeing Scenario.twelve ∅ ∅ ∧
  dom (value r) = list_to_set Scenario.twelve ∧
  value r !! "4ac9f0"%string
  = Some (value (getAircraftInfo Scenario.allBoeing "4ac9f0" ∅)).
Proof.
  intros r ten.
  destruct (batch_refines_pointwise Scenario.allBoeing Scenario.twelve ∅)
    as (Hchunk & _ & Hpointwise & Hdom & Heach).
  split; [apply (Hchunk ten (drop 10 Scenario.twelve)); reflexivity|].
  split; [exact Hpointwise|]. split; [exact Hdom|].
  apply Heach. apply list_elem_of_In. simpl. tauto.
Defined.

(** The order in which the replies of a batch arrive does not change the
    cache that the batch leaves. *)
Lemma finishCalls_order (feed : TypeFeed) (c : Cache)
    (batch arrival : list string) :
  batch ≡ₚ arrival →
  snd (finishCalls feed
         (List.map (fun id => (id, startCall c id)) arrival) c)
  = snd (finishCalls feed
           (List.map (fun id => (id, startCall c id)) batch) c).
Proof.
  intros Hperm.
  destruct (finishCalls_spec feed c batch c (fun k => or_introl eq_refl))
    as [_ Hb].
  destruct (finishCalls_spec feed c arrival c (fun k => or_introl eq_refl))
    as [_ Ha].
  eapply resolves_unique; [|exact Hb].
  intros k. destruct (Ha k) as [Hin Hout]. split.
  - intros Hk. apply Hin. rewrite <- Hperm. exact Hk.
  - intros Hk. apply Hout. rewrite <- Hperm. exact Hk.
Qed.

(** Calls that start together in a batch each send their request: an
    identifier that the cache does not hold and that comes twice in a batch
    is requested twice. *)
Lemma awaitBatch_repeated (feed : TypeFeed) (id : string) (c : Cache) :
  c !! id = None →
  requested (awaitBatch feed [id; id] c) = [id; id].
Proof.
  intros Hc. unfold awaitBatch. simpl.
  destruct (finishCall feed id (startCall c id) c) as [r1 c1].
  destruct (finishCall feed id (startCall c id) c1) as [r2 c2].
  simpl. unfold requestOf, startCall. simpl. rewrite Hc. reflexivity.
Qed.

(** ** The lookup tables *)

Lemma typeMap_values_modelled :
  List.forallb
    (fun entry =>
       match property AIRCRAFT_MODELS (snd entry) with
       | Some _ => true
       | None => false
       end)
    typeMap = true.
Proof. vm_compute. reflexivity. Qed.

Lemma property_In {V : Type} (table : list (string * V)) (key : string)
    (v : V) :
  property table key = Some v → In (key, v) table.
Proof.
  unfold property. destruct (List.find _ table) as [[k v']|] eqn:Hf;
    simpl; [|discriminate].
  intros [= ->]. apply List.find_some in Hf as [Hin Hk]. simpl in Hk.
  apply String.eqb_eq in Hk as ->. exact Hin.
Qed.

Lemma mapTypeToModel_modelled (typeCode : option string) (model : string) :
  mapTypeToModel typeCode = Some model →
  ∃ info : ModelInfo, property AIRCRAFT_MODELS model = Some info.
Proof.
  unfold mapTypeToModel. destruct typeCode as [code|]; [|discriminate].
  destruct (negb (truthyStr code)); [discriminate|].
  intros Hm%property_In.
  pose proof typeMap_values_modelled as Hall.
  rewrite List.forallb_forall in Hall. specialize (Hall _ Hm). simpl in Hall.
  destruct (property AIRCRAFT_MODELS model) as [info|]; [|discriminate].
  exists info. reflexivity.
Qed.

(** ** The alert engine: one aircraft *)

Lemma hasPosition_valid (pl : Aircraft) :
  hasPosition pl = true ↔ validPosition pl.
Proof.
  unfold hasPosition, validPosition.
  destruct (latitude pl) as [lat|], (longitude pl) as [lon|];
    try (split; [discriminate | intros (? & ? & ? & ? & _); congruence]).
  rewrite andb_true_iff, !truthy_spec. split.
  - intros [Hlat Hlon]. exists lat, lon. auto.
  - intros (x & y & [= <-] & [= <-] & Hx & Hy). auto.
Qed.

Lemma raiseAlert_spec (s : Sinks) (pl : Aircraft)
    (hexDBInfo : option HexDBResponse) (model : string) (d : R) (loop : Loop)
    (info : ModelInfo) :
  property AIRCRAFT_MODELS model = Some info →
  ∃ (new : list Event) (res : Completion unit),
    raiseAlert s pl hexDBInfo model d loop
    = ({| currentAircraftSet := currentAircraftSet loop;
          alertedAircraft := {[icao24 pl]} ∪ alertedAircraft loop;
          emitted := emitted loop ++ new |}, res) ∧
    Raised s pl new res.
Proof.
  intros Hinfo. unfold raiseAlert. rewrite Hinfo.
  match goal with
  | |- context [toast_success s ?t] =>
      set (toast := t); destruct (toast_success s toast) as [e|] eqn:Ht
  end.
  - exists [], (Throw e). rewrite app_nil_r.
    split; [reflexivity | eapply ToastThrew, Ht].
  - cbn [currentAircraftSet alertedAircraft emitted].
    destruct (notificationGranted s) eqn:Hg.
    + match goal with
      | |- context [new_Notification s ?n] =>
          set (notification := n);
          destruct (new_Notification s notification) as [e|] eqn:Hn
      end.
      * exists [Toasted pl toast], (Throw e).
        split; [reflexivity | eapply NotificationThrew; eauto].
      * exists [Toasted pl toast; Notified pl notification], (Normal tt).
        rewrite <- app_assoc.
        split; [reflexivity | apply ToastAndNotification; assumption].
    + exists [Toasted pl toast], (Normal tt).
      split; [reflexivity | apply ToastOnly; assumption].
Qed.

(** The callback when it raises no alert: it only records the presence. *)
Lemma trackPlane_quiet (a : FlightAlert) (prev : gset string) (m : Cache)
    (s : Sinks) (pl : Aircraft) (loop : Loop) :
  alerts a prev m (alertedAircraft loop) pl = false →
  ∃ tracked : TrackedAircraft,
    trackPlane a prev m s pl loop
    = ({| currentAircraftSet :=
            if hasPosition pl then {[icao24 pl]} ∪ currentAircraftSet loop
            else currentAircraftSet loop;
          alertedAircraft := alertedAircraft loop;
          emitted := emitted loop |},
       Normal tracked).
Proof.
  unfold alerts, trackPlane, hasPosition, matchesWatchlist, resolvedModel.
  destruct loop as [cur al em]. cbn [currentAircraftSet alertedAircraft emitted].
  destruct (latitude pl) as [lat|]; [|eauto].
  destruct (longitude pl) as [lon|]; [|eauto].
  destruct (truthy lat), (truthy lon); simpl; eauto.
  destruct (mjoin (m !! icao24 pl)) as [info|]; [|eauto].
  destruct (mapTypeToModel (ICAOTypeCode info)) as [model|]; [|eauto].
  intros ->. eauto.
Qed.

(** The callback when it raises an alert. *)
Lemma trackPlane_alert (a : FlightAlert) (prev : gset string) (m : Cache)
    (s : Sinks) (pl : Aircraft) (loop : Loop) :
  alerts a prev m (alertedAircraft loop) pl = true →
  ∃ (new : list Event) (res : Completion unit) (tracked : TrackedAircraft),
    Raised s pl new res ∧
    trackPlane a prev m s pl loop
    = ({| currentAircraftSet := {[icao24 pl]} ∪ currentAircraftSet loop;
          alertedAircraft := {[icao24 pl]} ∪ alertedAircraft loop;
          emitted := emitted loop ++ new |},
       match res with
       | Normal _ => Normal tracked
       | Throw e => Throw e
       end).
Proof.
  unfold alerts, trackPlane, hasPosition, matchesWatchlist, resolvedModel.
  destruct loop as [cur al em]. cbn [currentAircraftSet alertedAircraft emitted].
  destruct (latitude pl) as [lat|]; [|discriminate].
  destruct (longitude pl) as [lon|]; [|discriminate].
  destruct (truthy lat), (truthy lon); simpl; try discriminate.
  destruct (mjoin (m !! icao24 pl)) as [info|]; [|discriminate].
  destruct (mapTypeToModel (ICAOTypeCode info)) as [model|] eqn:Hmodel;
    [|discriminate].
  intros ->.
  destruct (mapTypeToModel_modelled _ _ Hmodel) as [entry Hentry].
  match goal with
  | |- context [raiseAlert s pl ?hx model ?d ?l] =>
      destruct (raiseAlert_spec s pl hx model d l entry Hentry)
        as (new & res & -> & Hraised)
  end.
  cbn [currentAircraftSet alertedAircraft emitted].
  eexists new, res, _. split; [exact Hraised|].
  destruct res; reflexivity.
Qed.

(** ** The alert engine: the loop over the aircraft *)

(** Every run of [trackAll] is a run of the relation [Tracks]. *)
Lemma trackAll_Tracks (a : FlightAlert) (prev : gset string) (m : Cache)
    (s : Sinks) (planes : list Aircraft) :
  ∀ loop : Loop,
    Tracks a prev m s planes loop
      (fst (trackAll a prev m s planes loop))
      (failure (snd (trackAll a prev m s planes loop))).
Proof.
  induction planes as [|pl rest IH]; intros loop.
  - apply Tracks_nil.
  - cbn [trackAll].
    destruct (alerts a prev m (alertedAircraft loop) pl) eqn:Ha.
    + destruct (trackPlane_alert a prev m s pl loop Ha)
        as (new & res & tracked & Hraised & ->).
      fold (alertLoop pl new loop).
      destruct res as [[]|e].
      * specialize (IH (alertLoop pl new loop)).
        destruct (trackAll a prev m s rest (alertLoop pl new loop))
          as [loop2 [ts|e]]; eapply Tracks_alert; eauto.
      * apply Tracks_throw; assumption.
    + destruct (trackPlane_quiet a prev m s pl loop Ha) as (tracked & ->).
      fold (quietLoop pl loop).
      specialize (IH (quietLoop pl loop)).
      destruct (trackAll a prev m s rest (quietLoop pl loop))
        as [loop2 [ts|e]]; apply Tracks_quiet; assumption.
Qed.

Lemma toastsFor_app (id : string) (l1 l2 : list Event) :
  toastsFor id (l1 ++ l2) = toastsFor id l1 + toastsFor id l2.
Proof. unfold toastsFor. rewrite List.filter_app, length_app. reflexivity. Qed.

Lemma notificationsFor_app (id : string) (l1 l2 : list Event) :
  notificationsFor id (l1 ++ l2)
  = notificationsFor id l1 + notificationsFor id l2.
Proof.
  unfold notificationsFor. rewrite List.filter_app, length_app. reflexivity.
Qed.

(** What an alert for an aircraft shows, counted for an identifier. *)
Lemma Raised_counts (s : Sinks) (pl : Aircraft) (new : list Event)
    (res : Completion unit) (id : string) :
  Raised s pl new res →
  (icao24 pl ≠ id → toastsFor id new = 0 ∧ notificationsFor id new = 0) ∧
  toastsFor id new ≤ 1 ∧
  notificationsFor id new ≤ toastsFor id new ∧
  (res = Normal tt → icao24 pl = id →
   toastsFor id new = 1 ∧
   notificationsFor id new = if notificationGranted s then 1 else 0).
Proof.
  intros H.
  destruct (String.eqb_spec (icao24 pl) id) as [Heq | Hneq].
  - destruct H as [t e Ht | t Ht Hg | t n e Ht Hg Hn | t n Ht Hg Hn];
      unfold toastsFor, notificationsFor; simpl;
      apply String.eqb_eq in Heq; rewrite ?Heq; simpl;
      (split; [intros Hq; apply String.eqb_neq in Hq; congruence|]);
      (split; [lia|]); (split; [lia|]);
      intros Hres _; try discriminate; rewrite Hg; split; reflexivity.
  - destruct H as [t e Ht | t Ht Hg | t n e Ht Hg Hn | t n Ht Hg Hn];
      unfold toastsFor, notificationsFor; simpl;
      apply String.eqb_neq in Hneq; rewrite ?Hneq; simpl;
      (split; [intros _; split; reflexivity|]);
      (split; [lia|]); (split; [lia|]);
      intros _ Hq; apply String.eqb_eq in Hq; congruence.
Qed.

Lemma alerts_true (a : FlightAlert) (prev : gset string) (m : Cache)
    (alerted : gset string) (pl : Aircraft) :
  alerts a prev m alerted pl = true ↔
  hasPosition pl = true ∧ matchesWatchlist a m (icao24 pl) = true ∧
  (icao24 pl ∉ prev) ∧ (icao24 pl ∉ alerted).
Proof.
  unfold alerts.
  rewrite !andb_true_iff, !negb_true_iff, !bool_decide_eq_false. tauto.
Qed.

Section Runs.
Context (a : FlightAlert) (prev : gset string) (m : Cache) (s : Sinks).

(** The alerted set only grows during the loop. *)
Lemma Tracks_alerted_grows (planes : list Aircraft) (loop loop' : Loop)
    (r : option Thrown) :
  Tracks a prev m s planes loop loop' r →
  alertedAircraft loop ⊆ alertedAircraft loop'.
Proof.
  induction 1 as [loop | pl rest loop loop' r Ha _ IH
                 | pl rest loop new e Ha Hr
                 | pl rest loop loop' new r Ha Hr _ IH]; simpl in *;
    set_solver.
Qed.

(** What joins the alerted set during the loop is the identifier of an
    aircraft of the list for which the alert condition held. *)
Lemma Tracks_alerted_new (planes : list Aircraft) (loop loop' : Loop)
    (r : option Thrown) (id : string) :
  Tracks a prev m s planes loop loop' r →
  id ∈ alertedAircraft loop' →
  id ∈ alertedAircraft loop ∨
  ∃ pl, In pl planes ∧ icao24 pl = id ∧ hasPosition pl = true ∧
        matchesWatchlist a m id = true ∧ id ∉ prev.
Proof.
  induction 1 as [loop | pl rest loop loop' r Ha _ IH
                 | pl rest loop new e Ha Hr
                 | pl rest loop loop' new r Ha Hr _ IH]; simpl in *.
  - auto.
  - intros Hin. destruct (IH Hin) as [? | (x & ? & ?)]; [auto|].
    right. exists x. auto.
  - intros [Hid%elem_of_singleton | Hin]%elem_of_union; [|auto].
    apply alerts_true in Ha as (Hpos & Hm & Hp & _).
    right. exists pl. subst id. auto.
  - intros Hin.
    destruct (IH Hin) as [[Hid%elem_of_singleton | Hl]%elem_of_union
                         | (x & ? & ?)]; [| auto |].
    + apply alerts_true in Ha as (Hpos & Hm & Hp & _).
      right. exists pl. subst id. auto.
    + right. exists x. auto.
Qed.

(** An identifier of the alerted set gets no toast and no notification. *)
Lemma Tracks_alerted_silent (planes : list Aircraft) (loop loop' : Loop)
    (r : option Thrown) (id : string) :
  Tracks a prev m s planes loop loop' r →
  id ∈ alertedAircraft loop →
  toastsFor id (emitted loop') = toastsFor id (emitted loop) ∧
  notificationsFor id (emitted loop') = notificationsFor id (emitted loop).
Proof.
  induction 1 as [loop | pl rest loop loop' r Ha _ IH
                 | pl rest loop new e Ha Hr
                 | pl rest loop loop' new r Ha Hr _ IH]; simpl in *;
    intros Hin.
  - auto.
  - apply IH, Hin.
  - apply alerts_true in Ha as (_ & _ & _ & Hout).
    assert (Hne : icao24 pl ≠ id) by (intros Heq; subst id; contradiction).
    destruct (Raised_counts s pl new _ id Hr) as (Hz & _).
    destruct (Hz Hne) as [Ht Hn].
    rewrite toastsFor_app, notificationsFor_app. lia.
  - apply alerts_true in Ha as (_ & _ & _ & Hout).
    assert (Hne : icao24 pl ≠ id) by (intros Heq; subst id; contradiction).
    destruct (Raised_counts s pl new _ id Hr) as (Hz & _).
    destruct (Hz Hne) as [Ht Hn].
    destruct IH as [-> ->]; [set_solver|].
    rewrite toastsFor_app, notificationsFor_app. lia.
Qed.

(** An identifier borne by no aircraft of the list gets nothing and does
    not join the alerted set. *)
Lemma Tracks_absent (planes : list Aircraft) (loop loop' : Loop)
    (r : option Thrown) (id : string) :
  Tracks a prev m s planes loop loop' r →
  (∀ pl, In pl planes → icao24 pl ≠ id) →
  toastsFor id (emitted loop') = toastsFor id (emitted loop) ∧
  notificationsFor id (emitted loop') = notificationsFor id (emitted loop) ∧
  (id ∈ alertedAircraft loop' → id ∈ alertedAircraft loop).
Proof.
  induction 1 as [loop | pl rest loop loop' r Ha _ IH
                 | pl rest loop new e Ha Hr
                 | pl rest loop loop' new r Ha Hr _ IH]; simpl in *;
    intros Hout.
  - auto.
  - apply IH. auto.
  - assert (Hne : icao24 pl ≠ id) by auto.
    destruct (Raised_counts s pl new _ id Hr) as (Hz & _).
    destruct (Hz Hne) as [Ht Hn].
    rewrite toastsFor_app, notificationsFor_app.
    split; [lia|]. split; [lia|]. set_solver.
  - assert (Hne : icao24 pl ≠ id) by auto.
    destruct (Raised_counts s pl new _ id Hr) as (Hz & _).
    destruct (Hz Hne) as [Ht Hn].
    destruct IH as (-> & -> & Hal); [auto|].
    rewrite toastsFor_app, notificationsFor_app.
    split; [lia|]. split; [lia|]. set_solver.
Qed.

(** An identifier gets at most one toast during the loop, at most as many
    notifications as toasts, and none unless it joins the alerted set. *)
Lemma Tracks_at_most_once (planes : list Aircraft) (loop loop' : Loop)
    (r : option Thrown) (id : string) :
  Tracks a prev m s planes loop loop' r →
  toastsFor id (emitted loop') ≤ toastsFor id (emitted loop) + 1 ∧
  notificationsFor id (emitted loop') - notificationsFor id (emitted loop)
  ≤ toastsFor id (emitted loop') - toastsFor id (emitted loop) ∧
  toastsFor id (emitted loop) ≤ toastsFor id (emitted loop') ∧
  (toastsFor id (emitted loop) < toastsFor id (emitted loop') →
   id ∈ alertedAircraft loop' ∧ id ∉ alertedAircraft loop).
Proof.
  induction 1 as [loop | pl rest loop loop' r Ha H IH
                 | pl rest loop new e Ha Hr
                 | pl rest loop loop' new r Ha Hr H IH]; simpl in *.
  - repeat split; lia.
  - exact IH.
  - destruct (Raised_counts s pl new _ id Hr) as (Hz & H1 & Hn & _).
    rewrite toastsFor_app, notificationsFor_app.
    split; [lia|]. split; [lia|]. split; [lia|]. intros Hlt.
    destruct (decide (icao24 pl = id)) as [<- | Hne].
    + apply alerts_true in Ha as (_ & _ & _ & Hout). set_solver.
    + destruct (Hz Hne) as [Ht _]. lia.
  - destruct (Raised_counts s pl new _ id Hr) as (Hz & H1 & Hn & _).
    rewrite toastsFor_app, notificationsFor_app in IH.
    destruct IH as (I1 & I2 & I3 & I4).
    destruct (decide (icao24 pl = id)) as [<- | Hne].
    + pose proof (Tracks_alerted_grows _ _ _ _ H) as Hg. simpl in Hg.
      destruct (Tracks_alerted_silent _ _ _ _ (icao24 pl) H) as [S1 S2].
      { simpl. set_solver. }
      simpl in S1, S2. rewrite toastsFor_app in S1.
      rewrite notificationsFor_app in S2.
      apply alerts_true in Ha as (_ & _ & _ & Hout).
      split; [lia|]. split; [lia|]. split; [lia|]. intros _.
      split; [set_solver | exact Hout].
    + destruct (Hz Hne) as [Ht Hnn].
      split; [lia|]. split; [lia|]. split; [lia|]. intros Hlt.
      destruct I4 as [J1 J2]; [lia|]. split; [exact J1 | set_solver].
Qed.

(** A run that is not cut short alerts once for an identifier that is in
    the list with a position, matches the watchlist, was not in the previous
    presence set and is not in the alerted set. *)
Lemma Tracks_fires (planes : list Aircraft) (loop loop' : Loop)
    (r : option Thrown) (id : string) :
  Tracks a prev m s planes loop loop' r →
  r = None →
  (∃ pl, In pl planes ∧ icao24 pl = id ∧ hasPosition pl = true) →
  matchesWatchlist a m id = true →
  id ∉ prev →
  id ∉ alertedAircraft loop →
  toastsFor id (emitted loop') = toastsFor id (emitted loop) + 1 ∧
  notificationsFor id (emitted loop')
  = notificationsFor id (emitted loop)
    + (if notificationGranted s then 1 else 0) ∧
  id ∈ alertedAircraft loop'.
Proof.
  induction 1 as [loop | pl rest loop loop' r Ha H IH
                 | pl rest loop new e Ha Hr
                 | pl rest loop loop' new r Ha Hr H IH]; simpl in *;
    intros Hnone (x & Hx & Hid & Hpos) Hm Hp Hal.
  - destruct Hx.
  - destruct Hx as [-> | Hx].
    + exfalso. subst id.
      assert (alerts a prev m (alertedAircraft loop) x = true)
        by (apply alerts_true; auto).
      congruence.
    + apply IH; eauto.
  - discriminate.
  - destruct (Raised_counts s pl new _ id Hr) as (Hz & _ & _ & Hone).
    destruct (decide (icao24 pl = id)) as [Heq | Hne].
    + destruct (Hone eq_refl Heq) as [Ht Hn].
      destruct (Tracks_alerted_silent _ _ _ _ id H) as [S1 S2].
      { simpl. set_solver. }
      pose proof (Tracks_alerted_grows _ _ _ _ H) as Hg.
      simpl in S1, S2, Hg.
      rewrite toastsFor_app in S1. rewrite notificationsFor_app in S2.
      split; [lia|]. split; [lia|]. set_solver.
    + destruct (Hz Hne) as [Ht Hn].
      destruct Hx as [-> | Hx]; [congruence|].
      destruct IH as (I1 & I2 & I3); eauto.
      { set_solver. }
      rewrite toastsFor_app in I1. rewrite notificationsFor_app in I2.
      split; [lia|]. split; [lia|]. exact I3.
Qed.

(** The presence set that a run builds when it is not cut short. *)
Lemma Tracks_current (planes : list Aircraft) (loop loop' : Loop)
    (r : option Thrown) :
  Tracks a prev m s planes loop loop' r →
  r = None →
  currentAircraftSet loop'
  = list_to_set (List.map icao24 (List.filter hasPosition planes))
    ∪ currentAircraftSet loop.
Proof.
  induction 1 as [loop | pl rest loop loop' r Ha H IH
                 | pl rest loop new e Ha Hr
                 | pl rest loop loop' new r Ha Hr H IH]; simpl in *;
    intros Hnone.
  - set_solver.
  - rewrite IH by exact Hnone. destruct (hasPosition pl); simpl; set_solver.
  - discriminate.
  - rewrite IH by exact Hnone.
    apply alerts_true in Ha as (-> & _). simpl. set_solver.
Qed.

(** Every event of a run is shown for an aircraft of the list that has a
    position. *)
Lemma Tracks_events (planes : list Aircraft) (loop loop' : Loop)
    (r : option Thrown) (e : Event) :
  Tracks a prev m s planes loop loop' r →
  In e (emitted loop') →
  In e (emitted loop) ∨
  (In (eventPlane e) planes ∧ hasPosition (eventPlane e) = true).
Proof.
  assert (Hraised : ∀ pl new res,
            Raised s pl new res → In e new → eventPlane e = pl).
  { intros pl new res Hr Hin.
    destruct Hr; simpl in Hin; intuition (subst; reflexivity). }
  induction 1 as [loop | pl rest loop loop' r Ha H IH
                 | pl rest loop new e' Ha Hr
                 | pl rest loop loop' new r Ha Hr H IH]; simpl in *;
    intros Hin.
  - auto.
  - destruct (IH Hin) as [? | [? ?]]; auto.
  - apply in_app_or in Hin as [? | Hin]; [auto|].
    right. rewrite (Hraised _ _ _ Hr Hin).
    apply alerts_true in Ha as (Hpos & _). auto.
  - destruct (IH Hin) as [[? | Hnew]%in_app_or | [? ?]]; auto.
    right. rewrite (Hraised _ _ _ Hr Hnew).
    apply alerts_true in Ha as (Hpos & _). auto.
Qed.

(** With sinks that never throw, the run is not cut short. *)
Lemma Tracks_reliable (planes : list Aircraft) (loop loop' : Loop)
    (r : option Thrown) :
  Tracks a prev m s planes loop loop' r → reliable s → r = None.
Proof.
  induction 1 as [loop | pl rest loop loop' r Ha H IH
                 | pl rest loop new e Ha Hraised
                 | pl rest loop loop' new r Ha Hraised H IH]; intros Hrel.
  - reflexivity.
  - apply IH, Hrel.
  - destruct Hrel as [Ht Hn]. inversion Hraised; congruence.
  - apply IH, Hrel.
Qed.

(** What a run throws was thrown by one of the sinks. *)
Lemma Tracks_thrown (planes : list Aircraft) (loop loop' : Loop)
    (e : Thrown) :
  Tracks a prev m s planes loop loop' (Some e) →
  (∃ t, toast_success s t = Some e) ∨ (∃ n, new_Notification s n = Some e).
Proof.
  remember (Some e) as r eqn:Hr. intros H. revert Hr.
  induction H as [loop | pl rest loop loop' r Ha H IH
                 | pl rest loop new e' Ha Hraised
                 | pl rest loop loop' new r Ha Hraised H IH];
    intros Hr; [discriminate | auto | | auto].
  injection Hr as ->. inversion Hraised; eauto.
Qed.

End Runs.

(** ** The alert engine: one poll cycle *)

Lemma elem_of_cleanUp (current alerted : gset string) (id : string) :
  id ∈ cleanUp current alerted ↔ id ∈ alerted ∧ id ∈ current.
Proof. unfold cleanUp. rewrite elem_of_filter. tauto. Qed.

Lemma fetchAircraft_idle (p : Poll) (w : World) :
  polled p = false →
  fetchAircraft p w
  = {| after := w; shown := []; lookups := []; logged := None |}.
Proof.
  unfold polled, fetchAircraft. destruct (alert p) as [a|]; [|reflexivity].
  destruct (active a), (enabled p); simpl; intros; congruence.
Qed.

Lemma nearby_idle (p : Poll) : polled p = false → nearby p = [].
Proof.
  unfold polled, nearby. destruct (alert p) as [a|]; [|reflexivity].
  destruct (active a), (enabled p); simpl; intros; congruence.
Qed.

Lemma nearby_hasPosition (p : Poll) (pl : Aircraft) :
  In pl (nearby p) → hasPosition pl = true.
Proof.
  unfold nearby. destruct (alert p) as [a|]; [|intros []].
  destruct (negb (active a) || negb (enabled p)); [intros []|].
  intros H%getAircraftInRadius_valid. apply hasPosition_valid, H.
Qed.

Lemma nearby_filter (p : Poll) :
  List.filter hasPosition (nearby p) = nearby p.
Proof.
  pose proof (nearby_hasPosition p) as H.
  induction (nearby p) as [|pl l IH]; [reflexivity|].
  simpl. rewrite (H pl) by (left; reflexivity).
  rewrite IH; [reflexivity|]. intros x Hx. apply H. right. exact Hx.
Qed.

Lemma elem_of_presence (p : Poll) (id : string) :
  id ∈ presence p ↔ ∃ pl, In pl (nearby p) ∧ icao24 pl = id.
Proof.
  unfold presence. rewrite elem_of_list_to_set, list_elem_of_In, in_map_iff.
  split; intros (pl & H1 & H2); exists pl; auto.
Qed.

(** A polled cycle is a run of the loop over the aircraft of the radius
    query, from an empty presence set and the alerted set of the hook; what
    the cycle leaves in the hook depends on whether the run was cut short. *)
Lemma fetchAircraft_polled (p : Poll) (w : World) (a : FlightAlert) :
  alert p = Some a →
  polled p = true →
  ∃ loop' : Loop,
    Tracks a (previousAircraftRef (hook w))
      (value (getMultipleAircraftInfo (typeFeed p)
                (List.map icao24 (nearby p)) (aircraftCache w)))
      (sinks p) (nearby p)
      {| currentAircraftSet := ∅;
         alertedAircraft := alertedAircraftRef (hook w);
         emitted := [] |}
      loop' (logged (fetchAircraft p w)) ∧
    shown (fetchAircraft p w) = emitted loop' ∧
    isLoading (hook (after (fetchAircraft p w))) = false ∧
    match logged (fetchAircraft p w) with
    | None =>
        error (hook (after (fetchAircraft p w))) = None ∧
        previousAircraftRef (hook (after (fetchAircraft p w)))
        = currentAircraftSet loop' ∧
        alertedAircraftRef (hook (after (fetchAircraft p w)))
        = cleanUp (currentAircraftSet loop') (alertedAircraft loop')
    | Some err =>
        error (hook (after (fetchAircraft p w))) = Some (errorMessage err) ∧
        previousAircraftRef (hook (after (fetchAircraft p w)))
        = previousAircraftRef (hook w) ∧
        alertedAircraftRef (hook (after (fetchAircraft p w)))
        = alertedAircraft loop' ∧
        aircraft (hook (after (fetchAircraft p w))) = aircraft (hook w) ∧
        lastUpdate (hook (after (fetchAircraft p w))) = lastUpdate (hook w)
    end.
Proof.
  intros Ha Hp. unfold polled in Hp. rewrite Ha in Hp.
  unfold nearby, fetchAircraft. rewrite Ha.
  apply andb_true_iff in Hp as [-> ->]. cbn [negb orb].
  match goal with
  | |- context [trackAll a ?prev ?m ?s ?planes ?start] =>
      pose proof (trackAll_Tracks a prev m s planes start) as Hrun;
      destruct (trackAll a prev m s planes start) as [loop' [ts|err]]
  end; simpl in Hrun; exists loop'; simpl; auto 10.
Qed.

Lemma polled_alert (p : Poll) :
  polled p = true → ∃ a, alert p = Some a.
Proof. unfold polled. destruct (alert p) as [a|]; [eauto | discriminate]. Qed.

Lemma presence_idle (p : Poll) (id : string) :
  polled p = false → id ∉ presence p.
Proof.
  intros Hp. unfold presence. rewrite (nearby_idle p Hp). set_solver.
Qed.

(** An identifier of the alerted set gets no toast and no notification in a
    poll cycle, and it stays in the set when it is in the area. *)
Lemma poll_alerted (p : Poll) (w : World) (id : string) :
  id ∈ alertedAircraftRef (hook w) →
  toastsFor id (shown (fetchAircraft p w)) = 0 ∧
  notificationsFor id (shown (fetchAircraft p w)) = 0 ∧
  (id ∈ presence p →
   id ∈ alertedAircraftRef (hook (after (fetchAircraft p w)))).
Proof.
  intros Hal. destruct (polled p) eqn:Hp.
  - destruct (polled_alert p Hp) as [a Ha].
    destruct (fetchAircraft_polled p w a Ha Hp) as (loop' & Hrun & -> & _ & Hend).
    destruct (Tracks_alerted_silent _ _ _ _ _ _ _ _ id Hrun Hal) as [-> ->].
    pose proof (Tracks_alerted_grows _ _ _ _ _ _ _ _ Hrun) as Hgrow.
    simpl in Hgrow.
    split; [reflexivity|]. split; [reflexivity|]. intros Hin.
    destruct (logged (fetchAircraft p w)) as [err|] eqn:Hlog.
    + destruct Hend as (_ & _ & -> & _). set_solver.
    + destruct Hend as (_ & _ & ->). apply elem_of_cleanUp.
      split; [set_solver|].
      rewrite (Tracks_current _ _ _ _ _ _ _ _ Hrun eq_refl), nearby_filter.
      fold (presence p). set_solver.
  - rewrite (fetchAircraft_idle p w Hp). simpl.
    split; [reflexivity|]. split; [reflexivity|]. intros _. exact Hal.
Qed.

(** In a poll cycle an identifier that is not in the area gets nothing and
    joins neither set; when the cycle runs to its end, it is in neither. *)
Lemma poll_absent (p : Poll) (w : World) (id : string) :
  id ∉ presence p →
  toastsFor id (shown (fetchAircraft p w)) = 0 ∧
  notificationsFor id (shown (fetchAircraft p w)) = 0 ∧
  (id ∈ previousAircraftRef (hook (after (fetchAircraft p w))) →
   id ∈ previousAircraftRef (hook w)) ∧
  (id ∈ alertedAircraftRef (hook (after (fetchAircraft p w))) →
   id ∈ alertedAircraftRef (hook w)) ∧
  (completes p w →
   (id ∉ previousAircraftRef (hook (after (fetchAircraft p w)))) ∧
   (id ∉ alertedAircraftRef (hook (after (fetchAircraft p w))))).
Proof.
  intros Hout. destruct (polled p) eqn:Hp.
  - destruct (polled_alert p Hp) as [a Ha].
    destruct (fetchAircraft_polled p w a Ha Hp) as (loop' & Hrun & -> & _ & Hend).
    destruct (Tracks_absent _ _ _ _ _ _ _ _ id Hrun) as (-> & -> & Hal).
    { intros pl Hin Hid. apply Hout, elem_of_presence. eauto. }
    simpl in Hal.
    split; [reflexivity|]. split; [reflexivity|].
    destruct (logged (fetchAircraft p w)) as [err|] eqn:Hlog.
    + destruct Hend as (_ & -> & -> & _).
      split; [auto|]. split; [exact Hal|]. intros [_ Hc]. congruence.
    + destruct Hend as (_ & -> & ->).
      rewrite (Tracks_current _ _ _ _ _ _ _ _ Hrun eq_refl), nearby_filter.
      fold (presence p).
      assert (Hcur : id ∉ presence p ∪ ∅) by set_solver.
      split; [intros ?; contradiction|].
      split; [intros [_ ?]%elem_of_cleanUp; contradiction|].
      intros _. split; [exact Hcur|].
      intros [_ ?]%elem_of_cleanUp. contradiction.
  - rewrite (fetchAircraft_idle p w Hp). simpl.
    split; [reflexivity|]. split; [reflexivity|].
    split; [auto|]. split; [auto|]. intros [? _]. congruence.
Qed.

(** In a poll cycle that runs to its end, an identifier in the area that
    matches the watchlist and is in neither set gets one toast, and one
    notification if notifications are granted, and joins the alerted set. *)
Lemma poll_fires (p : Poll) (w : World) (id : string) :
  completes p w →
  id ∈ presence p →
  watched p w id = true →
  id ∉ previousAircraftRef (hook w) →
  id ∉ alertedAircraftRef (hook w) →
  toastsFor id (shown (fetchAircraft p w)) = 1 ∧
  notificationsFor id (shown (fetchAircraft p w))
  = (if notificationGranted (sinks p) then 1 else 0) ∧
  id ∈ alertedAircraftRef (hook (after (fetchAircraft p w))).
Proof.
  intros [Hp Hlog] Hin Hw Hprev Hal.
  destruct (polled_alert p Hp) as [a Ha].
  destruct (fetchAircraft_polled p w a Ha Hp) as (loop' & Hrun & -> & _ & Hend).
  rewrite Hlog in Hrun, Hend. destruct Hend as (_ & _ & ->).
  unfold watched in Hw. rewrite Ha in Hw.
  destruct (Tracks_fires _ _ _ _ _ _ _ _ id Hrun eq_refl) as (-> & -> & Hal');
    try assumption.
  { apply elem_of_presence in Hin as (pl & Hpl & Hid).
    exists pl. split; [exact Hpl|]. split; [exact Hid|].
    apply (nearby_hasPosition p), Hpl. }
  split; [reflexivity|]. split; [reflexivity|].
  apply elem_of_cleanUp. split; [exact Hal'|].
  rewrite (Tracks_current _ _ _ _ _ _ _ _ Hrun eq_refl), nearby_filter.
  fold (presence p). set_solver.
Qed.

(** In a poll cycle an identifier gets at most one toast, and a toast puts
    it in the alerted set. *)
Lemma poll_at_most_once (p : Poll) (w : World) (id : string) :
  toastsFor id (shown (fetchAircraft p w)) ≤ 1 ∧
  notificationsFor id (shown (fetchAircraft p w))
  ≤ toastsFor id (shown (fetchAircraft p w)) ∧
  (toastsFor id (shown (fetchAircraft p w)) = 1 →
   id ∈ alertedAircraftRef (hook (after (fetchAircraft p w)))).
Proof.
  destruct (polled p) eqn:Hp.
  - destruct (polled_alert p Hp) as [a Ha].
    destruct (fetchAircraft_polled p w a Ha Hp) as (loop' & Hrun & -> & _ & Hend).
    destruct (Tracks_at_most_once _ _ _ _ _ _ _ _ id Hrun)
      as (H1 & H2 & _ & H3).
    cbn [emitted alertedAircraft] in H1, H2, H3.
    change (toastsFor id []) with 0 in H1, H2, H3.
    change (notificationsFor id []) with 0 in H2.
    split; [exact H1|]. split; [lia|]. intros Hone.
    destruct H3 as [Hin Hnew]; [lia|].
    destruct (logged (fetchAircraft p w)) as [err|] eqn:Hlog.
    + destruct Hend as (_ & _ & -> & _). exact Hin.
    + destruct Hend as (_ & _ & ->). apply elem_of_cleanUp.
      split; [exact Hin|].
      rewrite (Tracks_current _ _ _ _ _ _ _ _ Hrun eq_refl), nearby_filter.
      destruct (Tracks_alerted_new _ _ _ _ _ _ _ _ id Hrun Hin)
        as [? | (pl & Hpl & Hid & _)]; [contradiction|].
      apply elem_of_union_l, elem_of_list_to_set, list_elem_of_In, in_map_iff.
      eauto.
  - rewrite (fetchAircraft_idle p w Hp). simpl.
    unfold toastsFor, notificationsFor. simpl.
    split; [lia|]. split; [lia|]. discriminate.
Qed.

(** A poll cycle that runs to its end leaves the presence set of the poll
    as the previous-presence set, and an alerted set within it. *)
Lemma poll_completes (p : Poll) (w : World) :
  completes p w →
  error (hook (after (fetchAircraft p w))) = None ∧
  previousAircraftRef (hook (after (fetchAircraft p w))) = presence p ∧
  alertedAircraftRef (hook (after (fetchAircraft p w))) ⊆ presence p.
Proof.
  intros [Hp Hlog].
  destruct (polled_alert p Hp) as [a Ha].
  destruct (fetchAircraft_polled p w a Ha Hp) as (loop' & Hrun & _ & _ & Hend).
  rewrite Hlog in Hrun, Hend. destruct Hend as (-> & -> & ->).
  rewrite (Tracks_current _ _ _ _ _ _ _ _ Hrun eq_refl), nearby_filter.
  fold (presence p). cbn [currentAircraftSet].
  split; [reflexivity|]. split; [set_solver|].
  intros id [_ Hin]%elem_of_cleanUp. set_solver.
Qed.

(** ** The alert engine: successive poll cycles *)

Lemma run_cons (p : Poll) (rest : list Poll) (w : World) :
  fst (run (p :: rest) w) = fst (run rest (after (fetchAircraft p w))) ∧
  snd (run (p :: rest) w)
  = shown (fetchAircraft p w) ++ snd (run rest (after (fetchAircraft p w))).
Proof.
  simpl. destruct (run rest (after (fetchAircraft p w))). auto.
Qed.

Lemma run_alerted (id : string) (polls : list Poll) :
  ∀ w : World,
    id ∈ alertedAircraftRef (hook w) →
    Forall (fun p => id ∈ presence p) polls →
    toastsFor id (snd (run polls w)) = 0 ∧
    notificationsFor id (snd (run polls w)) = 0 ∧
    id ∈ alertedAircraftRef (hook (fst (run polls w))).
Proof.
  induction polls as [|p rest IH]; intros w Hal Hall.
  - simpl. auto.
  - apply Forall_cons in Hall as [Hp Hrest].
    destruct (run_cons p rest w) as [-> ->].
    destruct (poll_alerted p w id Hal) as (Ht & Hn & Hstay).
    destruct (IH _ (Hstay Hp) Hrest) as (It & In' & Ial).
    rewrite toastsFor_app, notificationsFor_app. auto with lia.
Qed.

Lemma run_absent (id : string) (polls : list Poll) :
  ∀ w : World,
    id ∉ previousAircraftRef (hook w) →
    id ∉ alertedAircraftRef (hook w) →
    Forall (fun p => id ∉ presence p) polls →
    toastsFor id (snd (run polls w)) = 0 ∧
    notificationsFor id (snd (run polls w)) = 0 ∧
    (id ∉ previousAircraftRef (hook (fst (run polls w)))) ∧
    (id ∉ alertedAircraftRef (hook (fst (run polls w)))).
Proof.
  induction polls as [|p rest IH]; intros w Hprev Hal Hall.
  - simpl. auto.
  - apply Forall_cons in Hall as [Hp Hrest].
    destruct (run_cons p rest w) as [-> ->].
    destruct (poll_absent p w id Hp) as (Ht & Hn & Hp' & Ha' & _).
    destruct (IH (after (fetchAircraft p w))) as (It & In' & Iprev & Ial);
      [tauto | tauto | exact Hrest |].
    rewrite toastsFor_app, notificationsFor_app. auto with lia.
Qed.

Lemma run_at_most_once (id : string) (polls : list Poll) :
  ∀ w : World,
    Forall (fun p => id ∈ presence p) polls →
    toastsFor id (snd (run polls w)) ≤ 1.
Proof.
  induction polls as [|p rest IH]; intros w Hall.
  - simpl. unfold toastsFor. simpl. lia.
  - apply Forall_cons in Hall as [Hp Hrest].
    destruct (run_cons p rest w) as [_ ->]. rewrite toastsFor_app.
    destruct (poll_at_most_once p w id) as (H1 & _ & Hal).
    destruct (decide (toastsFor id (shown (fetchAircraft p w)) = 1))
      as [Hone | Hzero].
    + destruct (run_alerted id rest _ (Hal Hone) Hrest) as (-> & _). lia.
    + specialize (IH (after (fetchAircraft p w)) Hrest). lia.
Qed.

Lemma poll_reliable (p : Poll) (w : World) :
  reliable (sinks p) → logged (fetchAircraft p w) = None.
Proof.
  intros Hrel. destruct (polled p) eqn:Hp.
  - destruct (polled_alert p Hp) as [a Ha].
    destruct (fetchAircraft_polled p w a Ha Hp) as (loop' & Hrun & _).
    eapply Tracks_reliable; eassumption.
  - rewrite (fetchAircraft_idle p w Hp). reflexivity.
Qed.

Lemma poll_thrown (p : Poll) (w : World) (err : Thrown) :
  logged (fetchAircraft p w) = Some err →
  (∃ t, toast_success (sinks p) t = Some err) ∨
  (∃ n, new_Notification (sinks p) n = Some err).
Proof.
  intros Hlog. destruct (polled p) eqn:Hp.
  - destruct (polled_alert p Hp) as [a Ha].
    destruct (fetchAircraft_polled p w a Ha Hp) as (loop' & Hrun & _).
    rewrite Hlog in Hrun. eapply Tracks_thrown, Hrun.
  - rewrite (fetchAircraft_idle p w Hp) in Hlog. discriminate.
Qed.

(** Whether an identifier in the area matches the watchlist, by the record
    a standalone resolve returns for it. *)
Lemma watched_known (p : Poll) (w : World) (a : FlightAlert) (id : string) :
  alert p = Some a →
  id ∈ presence p →
  watched p w id
  = match known (typeFeed p) (aircraftCache w) id with
    | Some info =>
        match mapTypeToModel (ICAOTypeCode info) with
        | Some model => includes (aircraftModels a) model
        | None => false
        end
    | None => false
    end.
Proof.
  intros Ha Hin. unfold watched, matchesWatchlist, resolvedModel. rewrite Ha.
  destruct (getMultipleAircraftInfo_spec (typeFeed p)
              (List.map icao24 (nearby p)) (aircraftCache w)) as (Hv & _).
  rewrite (proj1 (Hv id)).
  - simpl. destruct (known (typeFeed p) (aircraftCache w) id); reflexivity.
  - unfold presence in Hin. apply elem_of_list_to_set in Hin. exact Hin.
Qed.

(** ** The example inputs *)

Lemma overhead_parsed :
  latitude (parseAircraft Scenario.overhead) = Some 59.3293%R ∧
  longitude (parseAircraft Scenario.overhead) = Some 18.0686%R ∧
  icao24 (parseAircraft Scenario.overhead) = "4ac9e5"%string.
Proof.
  split; [|split]; [| |reflexivity];
    apply numOrUndefined_Some; (split; [reflexivity | lra]).
Qed.

Lemma polled_pollWith (geo : GeoFeed) (s : Sinks) :
  polled (Scenario.pollWith geo s) = true.
Proof. reflexivity. Qed.

Lemma nearby_emptySky (s : Sinks) :
  nearby (Scenario.pollWith Scenario.emptySky s) = [].
Proof. reflexivity. Qed.

Lemma nearby_overhead (s : Sinks) :
  nearby (Scenario.pollWith (Scenario.reporting [Scenario.overhead]) s)
  = [parseAircraft Scenario.overhead].
Proof.
  unfold nearby, Scenario.pollWith.
  cbn [alert enabled geoFeed Scenario.stockholm active negb orb
       alert_latitude alert_longitude radius].
  unfold getAircraftInRadius.
  change (getStatesInArea (Scenario.reporting [Scenario.overhead]) _)
    with [parseAircraft Scenario.overhead].
  cbn [List.filter].
  destruct (inRadius 59.3293 18.0686 50 (parseAircraft Scenario.overhead))
    eqn:Hin; [reflexivity|].
  pose proof overhead_in_radius as H.
  apply getAircraftInRadius_In in H as [_ H]. congruence.
Qed.

Lemma presence_overhead (s : Sinks) :
  "4ac9e5"%string
  ∈ presence (Scenario.pollWith (Scenario.reporting [Scenario.overhead]) s).
Proof.
  apply elem_of_presence. exists (parseAircraft Scenario.overhead).
  rewrite nearby_overhead. split; [left; reflexivity | reflexivity].
Qed.

Lemma presence_emptySky (s : Sinks) (id : string) :
  id ∉ presence (Scenario.pollWith Scenario.emptySky s).
Proof.
  intros (pl & Hpl & _)%elem_of_presence.
  rewrite nearby_emptySky in Hpl. destruct Hpl.
Qed.

Lemma reliable_quiet : reliable Scenario.quiet.
Proof. split; reflexivity. Qed.

Lemma watched_overhead (s : Sinks) (w : World) :
  aircraftCache w !! "4ac9e5"%string = None →
  watched (Scenario.pollWith (Scenario.reporting [Scenario.overhead]) s) w
    "4ac9e5" = true.
Proof.
  intros Hc.
  rewrite (watched_known _ w Scenario.stockholm) by
    (reflexivity || apply presence_overhead).
  unfold known. rewrite Hc. reflexivity.
Qed.

(** ** Deduplication, failure, lookup and exclusion *)

(** C1. Per-visit alert deduplication, for every identifier and every
    sequence of poll cycles. (1) An identifier of the alerted set that is in
    the presence set of each of the next polls gets no toast and no
    notification in any of them, and stays in the alerted set. (2) When a
    poll that runs to its end has the identifier out of its presence set,
    and after any number of further polls without it a poll that runs to its
    end has it back and matching the watchlist, nothing is shown for it
    while it is away and exactly one toast, with one notification if
    notifications are granted, is shown at the poll that has it back, which
    puts it in the alerted set. (3) Over any polls that all have the
    identifier in their presence sets, it gets at most one toast. *)
Theorem alert_once_per_visit (id : string) :
  (∀ (polls : list Poll) (w : World),
     id ∈ alertedAircraftRef (hook w) →
     Forall (fun p => id ∈ presence p) polls →
     toastsFor id (snd (run polls w)) = 0 ∧
     notificationsFor id (snd (run polls w)) = 0 ∧
     id ∈ alertedAircraftRef (hook (fst (run polls w)))) ∧
  (∀ (w : World) (away : Poll) (gap : list Poll) (back : Poll),
     completes away w →
     id ∉ presence away →
     Forall (fun p => id ∉ presence p) gap →
     let w1 := fst (run (away :: gap) w) in
     completes back w1 →
     id ∈ presence back →
     watched back w1 id = true →
     toastsFor id (snd (run (away :: gap) w)) = 0 ∧
     notificationsFor id (snd (run (away :: gap) w)) = 0 ∧
     toastsFor id (shown (fetchAircraft back w1)) = 1 ∧
     notificationsFor id (shown (fetchAircraft back w1))
     = (if notificationGranted (sinks back) then 1 else 0) ∧
     id ∈ alertedAircraftRef (hook (after (fetchAircraft back w1)))) ∧
  (∀ (polls : list Poll) (w : World),
     Forall (fun p => id ∈ presence p) polls →
     toastsFor id (snd (run polls w)) ≤ 1).
Proof.
  split; [|split].
  - intros polls w. apply run_alerted.
  - intros w away gap back Haway Hout Hgap w1 Hback Hin Hw.
    destruct (run_cons away gap w) as [Hw1 Hev].
    destruct (poll_absent away w id Hout) as (Ht & Hn & _ & _ & Hgone).
    destruct (Hgone Haway) as [Hprev Hal].
    destruct (run_absent id gap _ Hprev Hal Hgap) as (Gt & Gn & Gprev & Gal).
    rewrite <- Hw1 in Gprev, Gal. fold w1 in Gprev, Gal.
    destruct (poll_fires back w1 id Hback Hin Hw Gprev Gal) as (Ft & Fn & Fal).
    rewrite Hev, toastsFor_app, notificationsFor_app.
    split; [lia|]. split; [lia|]. auto.
  - intros polls w. apply run_at_most_once.
Qed.

Lemma alert_once_per_visit_witness :
  let id := "4ac9e5"%string in
  let away := Scenario.pollWith Scenario.emptySky Scenario.quiet in
  let back :=
    Scenario.pollWith (Scenario.reporting [Scenario.overhead]) Scenario.quiet in
  let w1 := fst (run [away] Scenario.fresh) in
  let w2 := after (fetchAircraft back w1) in
  (toastsFor id (snd (run [away] Scenario.fresh)) = 0 ∧
   notificationsFor id (snd (run [away] Scenario.fresh)) = 0 ∧
   toastsFor id (shown (fetchAircraft back w1)) = 1 ∧
   notificationsFor id (shown (fetchAircraft back w1)) = 0 ∧
   id ∈ alertedAircraftRef (hook w2)) ∧
  (toastsFor id (snd (run [back; back] w2)) = 0 ∧
   notificationsFor id (snd (run [back; back] w2)) = 0 ∧
   id ∈ alertedAircraftRef (hook (fst (run [back; back] w2)))) ∧
  toastsFor id (snd (run [back; back; back] w1)) ≤ 1.
Proof.
  intros id away back w1 w2.
  destruct (alert_once_per_visit id) as (Hstay & Hback & Honce).
  assert (Hfirst :
    toastsFor id (snd (run [away] Scenario.fresh)) = 0 ∧
    notificationsFor id (snd (run [away] Scenario.fresh)) = 0 ∧
    toastsFor id (shown (fetchAircraft back w1)) = 1 ∧
    notificationsFor id (shown (fetchAircraft back w1)) = 0 ∧
    id ∈ alertedAircraftRef (hook w2)).
  { apply (Hback Scenario.fresh away [] back).
    - split; [reflexivity | apply poll_reliable, reliable_quiet].
    - apply presence_emptySky.
    - constructor.
    - split; [reflexivity | apply poll_reliable, reliable_quiet].
    - apply presence_overhead.
    - apply watched_overhead. reflexivity. }
  split; [exact Hfirst|]. split.
  - apply (Hstay [back; back] w2).
    + apply Hfirst.
    + repeat constructor; apply presence_overhead.
  - apply (Honce [back; back; back] w1).
    repeat constructor; apply presence_overhead.
Defined.

(** The example poll whose [Notification] constructor throws: the error is
    logged, and the alerted set of the hook gets the identifier. *)
Lemma illegalConstructor_poll :
  logged (fetchAircraft
            (Scenario.pollWith (Scenario.reporting [Scenario.overhead])
               Scenario.illegalConstructor) Scenario.fresh)
  = Some (ErrorObject "Illegal constructor") ∧
  alertedAircraftRef
    (hook (after (fetchAircraft
                    (Scenario.pollWith (Scenario.reporting [Scenario.overhead])
                       Scenario.illegalConstructor) Scenario.fresh)))
  = {["4ac9e5"%string]}.
Proof.
  destruct (fetchAircraft_polled
              (Scenario.pollWith (Scenario.reporting [Scenario.overhead])
                 Scenario.illegalConstructor)
              Scenario.fresh Scenario.stockholm eq_refl eq_refl)
    as (loop' & Hrun & _ & _ & Hend).
  rewrite nearby_overhead in Hrun.
  assert (Halerts :
    alerts Scenario.stockholm ∅
      (value (getMultipleAircraftInfo Scenario.allBoeing
                (List.map icao24 [parseAircraft Scenario.overhead]) ∅))
      ∅ (parseAircraft Scenario.overhead) = true).
  { apply alerts_true. split; [|split; [|split]].
    - apply hasPosition_valid. destruct overhead_parsed as (Hlat & Hlon & _).
      exists 59.3293%R, 18.0686%R. repeat split; try assumption; lra.
    - pose proof (watched_overhead Scenario.illegalConstructor Scenario.fresh
                    eq_refl) as Hw.
      unfold watched in Hw. cbn [alert Scenario.pollWith] in Hw.
      rewrite nearby_overhead in Hw. exact Hw.
    - set_solver.
    - set_solver. }
  assert (Hres :
    logged (fetchAircraft
              (Scenario.pollWith (Scenario.reporting [Scenario.overhead])
                 Scenario.illegalConstructor) Scenario.fresh)
    = Some (ErrorObject "Illegal constructor") ∧
    alertedAircraft loop' = {["4ac9e5"%string]} ∪ ∅).
  { inversion Hrun as [ | pl rest l l' r Hq Hrest | pl rest l new e Ha Hr
                      | pl rest l l' new r Ha Hr Hrest ]; subst.
    - cbn [alertedAircraft] in Hq.
      change (alertedAircraftRef (hook Scenario.fresh)) with (∅ : gset string)
        in Hq.
      change (previousAircraftRef (hook Scenario.fresh)) with (∅ : gset string)
        in Hq.
      change (aircraftCache Scenario.fresh) with (∅ : Cache) in Hq.
      change (typeFeed (Scenario.pollWith _ _)) with Scenario.allBoeing in Hq.
      congruence.
    - inversion Hr as [t e' Ht | | t n e' Ht Hg Hn | ]; subst.
      + discriminate Ht.
      + simpl in Hn. injection Hn as <-. split; reflexivity.
    - inversion Hr as [ | t Ht Hg | | t n Ht Hg Hn ]; subst.
      + discriminate Hg.
      + discriminate Hn. }
  destruct Hres as [Hlog Hal]. rewrite Hlog in Hend.
  destruct Hend as (_ & _ & Hafter & _).
  split; [exact Hlog|]. rewrite Hafter, Hal. set_solver.
Qed.

(** C3, as stated, fails: when the constructor of [Notification] throws for
    the first aircraft of a poll, the error is caught and shown, and the
    previous-presence set is as before, but the alerted set has changed: it
    holds the identifier of that aircraft. *)
Lemma failed_poll_changes_alerted :
  let p :=
    Scenario.pollWith (Scenario.reporting [Scenario.overhead])
      Scenario.illegalConstructor in
  let o := fetchAircraft p Scenario.fresh in
  logged o = Some (ErrorObject "Illegal constructor") ∧
  alertedAircraftRef (hook Scenario.fresh) = ∅ ∧
  alertedAircraftRef (hook (after o)) = {["4ac9e5"%string]} ∧
  alertedAircraftRef (hook (after o)) ≠ alertedAircraftRef (hook Scenario.fresh).
Proof.
  intros p o. destruct illegalConstructor_poll as [Hlog Hal].
  split; [exact Hlog|]. split; [reflexivity|]. split; [exact Hal|].
  unfold o, p. rewrite Hal. simpl. set_solver.
Qed.

(** C3, amended. Poll-failure handling: in every poll cycle in which an
    error is thrown, the error is caught and its message shown, the
    previous-presence set, the list of aircraft and the time of the last
    update are as before, and nothing leaves the alerted set; what the
    alerted set has more than before are identifiers of aircraft of this
    poll that matched the watchlist and were not in the previous-presence
    set, those for which an alert was raised before the error. The message
    is gone after the next poll cycle that runs to its end. *)
Theorem failed_poll_state (p : Poll) (w : World) (err : Thrown) :
  logged (fetchAircraft p w) = Some err →
  error (hook (after (fetchAircraft p w))) = Some (errorMessage err) ∧
  isLoading (hook (after (fetchAircraft p w))) = false ∧
  previousAircraftRef (hook (after (fetchAircraft p w)))
  = previousAircraftRef (hook w) ∧
  aircraft (hook (after (fetchAircraft p w))) = aircraft (hook w) ∧
  lastUpdate (hook (after (fetchAircraft p w))) = lastUpdate (hook w) ∧
  alertedAircraftRef (hook w)
  ⊆ alertedAircraftRef (hook (after (fetchAircraft p w))) ∧
  (∀ id : string,
     id ∈ alertedAircraftRef (hook (after (fetchAircraft p w))) →
     id ∉ alertedAircraftRef (hook w) →
     id ∈ presence p ∧ watched p w id = true ∧
     id ∉ previousAircraftRef (hook w)) ∧
  (∀ next : Poll,
     completes next (after (fetchAircraft p w)) →
     error (hook (after (fetchAircraft next (after (fetchAircraft p w)))))
     = None).
Proof.
  intros Hlog.
  assert (Hnext : ∀ next : Poll,
            completes next (after (fetchAircraft p w)) →
            error (hook (after (fetchAircraft next
                                  (after (fetchAircraft p w))))) = None).
  { intros next Hc. apply poll_completes, Hc. }
  destruct (polled p) eqn:Hp.
  - destruct (polled_alert p Hp) as [a Ha].
    destruct (fetchAircraft_polled p w a Ha Hp)
      as (loop' & Hrun & _ & Hload & Hend).
    rewrite Hlog in Hrun, Hend.
    destruct Hend as (Herr & Hprev & Hal & Hlist & Hlast).
    split; [exact Herr|]. split; [exact Hload|]. split; [exact Hprev|].
    split; [exact Hlist|]. split; [exact Hlast|]. rewrite Hal.
    split; [|split; [|exact Hnext]].
    + apply (Tracks_alerted_grows _ _ _ _ _ _ _ _ Hrun).
    + intros id Hin Hnew.
      destruct (Tracks_alerted_new _ _ _ _ _ _ _ _ id Hrun Hin)
        as [Hold | (pl & Hpl & Hid & _ & Hm & Hout)]; [contradiction|].
      split; [apply elem_of_presence; eauto|].
      split; [|exact Hout]. unfold watched. rewrite Ha. exact Hm.
  - rewrite (fetchAircraft_idle p w Hp) in Hlog. discriminate.
Qed.

Lemma failed_poll_state_witness :
  let p :=
    Scenario.pollWith (Scenario.reporting [Scenario.overhead])
      Scenario.illegalConstructor in
  let o := fetchAircraft p Scenario.fresh in
  error (hook (after o)) = Some "Illegal constructor"%string ∧
  isLoading (hook (after o)) = false ∧
  previousAircraftRef (hook (after o)) = ∅ ∧
  aircraft (hook (after o)) = [] ∧
  lastUpdate (hook (after o)) = None ∧
  ∅ ⊆ alertedAircraftRef (hook (after o)) ∧
  (∀ id : string,
     id ∈ alertedAircraftRef (hook (after o)) →
     id ∉ (∅ : gset string) →
     id ∈ presence p ∧ watched p Scenario.fresh id = true ∧
     id ∉ (∅ : gset string)) ∧
  (∀ next : Poll,
     completes next (after o) →
     error (hook (after (fetchAircraft next (after o)))) = None).
Proof.
  intros p o.
  apply (failed_poll_state p Scenario.fresh (ErrorObject "Illegal constructor")).
  apply illegalConstructor_poll.
Defined.

(** C9. Notification lookup totality: every value of the table of
    [mapTypeToModel] is a key of [AIRCRAFT_MODELS], so the model key that
    [mapTypeToModel] returns always has its entry, with its display name;
    a poll cycle therefore never throws on reading the name of a missing
    entry: whatever a cycle throws was thrown by one of the sinks, and with
    sinks that do not throw no cycle throws. *)
Theorem model_lookup_total :
  (∀ code model : string,
     In (code, model) typeMap →
     ∃ info : ModelInfo, property AIRCRAFT_MODELS model = Some info) ∧
  (∀ (typeCode : option string) (model : string),
     mapTypeToModel typeCode = Some model →
     ∃ info : ModelInfo, property AIRCRAFT_MODELS model = Some info) ∧
  (∀ (p : Poll) (w : World) (err : Thrown),
     logged (fetchAircraft p w) = Some err →
     (∃ t, toast_success (sinks p) t = Some err) ∨
     (∃ n, new_Notification (sinks p) n = Some err)) ∧
  (∀ (p : Poll) (w : World),
     reliable (sinks p) → logged (fetchAircraft p w) = None).
Proof.
  split; [|split; [|split]].
  - intros code model Hin.
    pose proof typeMap_values_modelled as Hall.
    rewrite List.forallb_forall in Hall. specialize (Hall _ Hin).
    simpl in Hall.
    destruct (property AIRCRAFT_MODELS model) as [info|]; [|discriminate].
    exists info. reflexivity.
  - exact mapTypeToModel_modelled.
  - exact poll_thrown.
  - exact poll_reliable.
Qed.

Lemma model_lookup_total_witness :
  (∃ info : ModelInfo, property AIRCRAFT_MODELS "B737" = Some info) ∧
  (∃ info : ModelInfo, property AIRCRAFT_MODELS "AN124" = Some info) ∧
  logged (fetchAircraft
            (Scenario.pollWith (Scenario.reporting [Scenario.overhead])
               Scenario.quiet) Scenario.fresh) = None.
Proof.
  destruct model_lookup_total as (Htable & Hmap & _ & Hrel).
  split; [|split].
  - apply (Hmap (Some "B738"%string)). reflexivity.
  - apply (Htable "A124"%string). vm_compute. tauto.
  - apply Hrel, reliable_quiet.
Defined.

Lemma zero_coordinate_no_position (state : State) :
  state_5 state = Val 0%R ∨ state_6 state = Val 0%R →
  hasPosition (parseAircraft state) = false.
Proof.
  intros Hzero. unfold hasPosition. simpl.
  destruct Hzero as [-> | ->]; simpl; rewrite truthy_zero.
  - destruct (numOrUndefined (state_6 state)); reflexivity.
  - reflexivity.
Qed.

(** C10. Zero-coordinate exclusion: an aircraft whose longitude or latitude
    in the feed is exactly [0] is parsed without that coordinate; it has no
    valid position, [getAircraftInRadius] never returns it, for any feed,
    centre and radius, and no poll cycle shows a toast or a notification
    for it. *)
Theorem zero_coordinate_excluded (state : State) :
  state_5 state = Val 0%R ∨ state_6 state = Val 0%R →
  (longitude (parseAircraft state) = None ∨
   latitude (parseAircraft state) = None) ∧
  ¬ validPosition (parseAircraft state) ∧
  (∀ (feed : GeoFeed) (lat lon r : R),
     ¬ In (parseAircraft state) (getAircraftInRadius feed lat lon r)) ∧
  (∀ (p : Poll) (w : World) (e : Event),
     In e (shown (fetchAircraft p w)) → eventPlane e ≠ parseAircraft state).
Proof.
  intros Hzero. pose proof (zero_coordinate_no_position state Hzero) as Hpos.
  assert (Hinvalid : ¬ validPosition (parseAircraft state)).
  { intros Hv%hasPosition_valid. congruence. }
  split; [|split; [exact Hinvalid | split]].
  - destruct Hzero as [H | H]; [left | right]; simpl; rewrite H; simpl;
      rewrite truthy_zero; reflexivity.
  - intros feed lat lon r Hin.
    apply Hinvalid, (getAircraftInRadius_valid feed lat lon r), Hin.
  - intros p w e Hin Heq. destruct (polled p) eqn:Hp.
    + destruct (polled_alert p Hp) as [a Ha].
      destruct (fetchAircraft_polled p w a Ha Hp) as (loop' & Hrun & Hs & _).
      rewrite Hs in Hin.
      destruct (Tracks_events _ _ _ _ _ _ _ _ e Hrun Hin) as [[] | [_ He]].
      rewrite Heq in He. congruence.
    + rewrite (fetchAircraft_idle p w Hp) in Hin. destruct Hin.
Qed.

Lemma zero_coordinate_excluded_witness :
  (longitude (parseAircraft Scenario.onEquator) = None ∨
   latitude (parseAircraft Scenario.onEquator) = None) ∧
  ¬ validPosition (parseAircraft Scenario.onEquator) ∧
  (∀ (feed : GeoFeed) (lat lon r : R),
     ¬ In (parseAircraft Scenario.onEquator)
         (getAircraftInRadius feed lat lon r)) ∧
  (∀ (p : Poll) (w : World) (e : Event),
     In e (shown (fetchAircraft p w)) →
     eventPlane e ≠ parseAircraft Scenario.onEquator).
Proof.
  apply (zero_coordinate_excluded Scenario.onEquator).
  right. reflexivity.
Defined.

(** ** The functions on the example inputs *)

(** The poll that first sees the aircraft of the example over the centre of
    a watch area for the Boeing 737 shows one toast, with the display name
    of the model, the trimmed callsign, the registration and type of the
    resolved record, the distance and the altitude. *)
Example first_sighting_shown :
  shown (fetchAircraft
           (Scenario.pollWith (Scenario.reporting [Scenario.overhead])
              Scenario.quiet) Scenario.fresh)
  = [Toasted (parseAircraft Scenario.overhead)
       {| toastTitle := "Alert: Boeing 737 detected!";
          flight := "SAS1421";
          ident := "SE-RJX";
          typeName := "737-86N";
          distanceKm := 0;
          altitudeM := Some 3048%R;
          duration := 10000 |}].
Proof.
  unfold fetchAircraft.
  cbn [alert Scenario.pollWith enabled geoFeed typeFeed sinks now active
       Scenario.stockholm negb orb alert_latitude alert_longitude radius].
  pose proof (nearby_overhead Scenario.quiet) as Hn.
  unfold nearby in Hn.
  cbn [alert Scenario.pollWith enabled geoFeed typeFeed sinks now active
       Scenario.stockholm negb orb alert_latitude alert_longitude radius] in Hn.
  rewrite Hn. clear Hn.
  cbn [List.map trackAll].
  unfold trackPlane.
  destruct overhead_parsed as (Hlat & Hlon & Hid).
  assert (Halt : baro_altitude (parseAircraft Scenario.overhead)
                 = Some 3048%R).
  { apply numOrUndefined_Some. split; [reflexivity | lra]. }
  rewrite Hlat, Hlon, Hid.
  rewrite !truthy_true by lra. cbn [negb orb].
  rewrite calculateDistance_same.
  assert (Hm : value (getMultipleAircraftInfo Scenario.allBoeing
                        ["4ac9e5"%string] (aircraftCache Scenario.fresh))
               !! "4ac9e5"%string
               = Some (Some Scenario.boeing738)) by reflexivity.
  rewrite Hm. clear Hm.
  cbn [mjoin option_join Scenario.boeing738 ICAOTypeCode].
  change (mapTypeToModel (Some "B738"%string)) with (Some "B737"%string).
  change (includes (aircraftModels Scenario.stockholm) "B737") with true.
  cbn [hook Scenario.fresh previousAircraftRef alertedAircraftRef
       alertedAircraft currentAircraftSet emitted].
  replace (bool_decide ("4ac9e5"%string ∈ (∅ : gset string))) with false
    by reflexivity.
  cbn [negb andb].
  unfold raiseAlert.
  destruct (mapTypeToModel_modelled (Some "B738"%string) "B737" eq_refl)
    as [model Hmodel].
  assert (Hname : name model = "Boeing 737"%string).
  { vm_compute in Hmodel. injection Hmodel as <-. reflexivity. }
  rewrite Hmodel, Halt, Hid, Hname.
  rewrite truthy_true by lra.
  reflexivity.
Qed.

Example mapTypeToModel_values :
  mapTypeToModel (Some "B738"%string) = Some "B737"%string ∧
  mapTypeToModel (Some "A124"%string) = Some "AN124"%string ∧
  mapTypeToModel (Some "ZZZZ"%string) = None ∧
  mapTypeToModel (Some ""%string) = None ∧
  mapTypeToModel None = None.
Proof. repeat split; reflexivity. Qed.

Example parseCallsign_values :
  parseCallsign (Val "SAS1421 "%string) = Some "SAS1421"%string ∧
  parseCallsign (Val "        "%string) = None ∧
  parseCallsign Null = None.
Proof. repeat split; reflexivity. Qed.

(** Twelve identifiers that the cache does not hold are requested once
    each, in order, and a second call requests none. *)
Example twelve_requested :
  requested (getMultipleAircraftInfo Scenario.allBoeing Scenario.twelve ∅)
  = Scenario.twelve ∧
  requested
    (getMultipleAircraftInfo Scenario.notFound Scenario.twelve
       (cacheAfter
          (getMultipleAircraftInfo Scenario.allBoeing Scenario.twelve ∅)))
  = [].
Proof. split; vm_compute; reflexivity. Qed.

(** * Further properties *)

Import Lookup More Page Selector Views Cycle.

(** ** The geo provider *)

Section Geometry.
Local Open Scope R_scope.

Lemma atan2_quadrant (y x : R) :
  0 <= y → 0 <= x → 0 <= atan2 y x <= PI / 2.
Proof.
  intros Hy Hx. pose proof PI_RGT_0 as Hpi. unfold atan2.
  destruct (Rlt_dec 0 x) as [Hpos | Hnpos].
  - assert (Hq : 0 <= y / x).
    { unfold Rdiv. apply Rmult_le_pos; [exact Hy|].
      left. apply Rinv_0_lt_compat, Hpos. }
    pose proof (atan_bound (y / x)) as Hb. split; [|lra].
    destruct Hq as [Hq | <-]; [|rewrite atan_0; lra].
    pose proof (atan_increasing 0 (y / x) Hq) as Hi.
    rewrite atan_0 in Hi. lra.
  - destruct (Rlt_dec x 0) as [Hneg | _]; [lra|].
    destruct (Rlt_dec 0 y) as [_ | _]; [lra|].
    destruct (Rlt_dec y 0) as [Hyneg | _]; lra.
Qed.

Lemma calculateDistance_range (lat1 lon1 lat2 lon2 : R) :
  0 <= calculateDistance lat1 lon1 lat2 lon2 <= 6371 * PI.
Proof.
  unfold calculateDistance.
  match goal with
  | |- context [atan2 ?y ?x] =>
      pose proof (atan2_quadrant y x (sqrt_pos _) (sqrt_pos _)) as H
  end.
  lra.
Qed.

(** X1. The bounding box of a watch area: for a radius that is not
    negative and a centre between the poles, the centre is inside the box,
    in the middle of it; the box is [2 * radius / 111.32] degrees high, its
    width is that height divided by the cosine of the latitude, so at least
    as much; and a larger radius gives a box that contains the smaller. *)
Theorem calculateBoundingBox_centred (lat lon r : R) :
  0 <= r → -90 < lat < 90 →
  let box := calculateBoundingBox lat lon r in
  latMin box <= lat <= latMax box ∧
  lonMin box <= lon <= lonMax box ∧
  latMin box + latMax box = 2 * lat ∧
  lonMin box + lonMax box = 2 * lon ∧
  latMax box - latMin box = 2 * r / 111.32 ∧
  (lonMax box - lonMin box) * cos (lat * PI / 180) = 2 * r / 111.32 ∧
  latMax box - latMin box <= lonMax box - lonMin box ∧
  (∀ r' : R,
     r <= r' →
     let box' := calculateBoundingBox lat lon r' in
     latMin box' <= latMin box ∧ latMax box <= latMax box' ∧
     lonMin box' <= lonMin box ∧ lonMax box <= lonMax box').
Proof.
  intros Hr Hlat box. subst box. unfold calculateBoundingBox. simpl.
  pose proof PI_RGT_0 as Hpi.
  assert (Hcos : 0 < cos (lat * PI / 180)).
  { apply cos_gt_0; nra. }
  pose proof (COS_bound (lat * PI / 180)) as [_ Hcos1].
  set (c := cos (lat * PI / 180)) in *.
  assert (Hk : 0 < 1 / (111.32 * c)).
  { apply Rdiv_lt_0_compat; nra. }
  assert (Hkc : 1 / (111.32 * c) * c = 1 / 111.32).
  { field. lra. }
  assert (Hkge : 1 / 111.32 <= 1 / (111.32 * c)).
  { rewrite <- Hkc. nra. }
  set (k := 1 / (111.32 * c)) in *.
  repeat split; try nra.
  all: intros; nra.
Qed.

Lemma calculateBoundingBox_centred_witness :
  let box := calculateBoundingBox 59.3293 18.0686 50 in
  latMin box <= 59.3293 <= latMax box ∧
  lonMin box <= 18.0686 <= lonMax box ∧
  latMin box + latMax box = 2 * 59.3293 ∧
  lonMin box + lonMax box = 2 * 18.0686 ∧
  latMax box - latMin box = 2 * 50 / 111.32 ∧
  (lonMax box - lonMin box) * cos (59.3293 * PI / 180) = 2 * 50 / 111.32 ∧
  latMax box - latMin box <= lonMax box - lonMin box ∧
  (∀ r' : R,
     50 <= r' →
     let box' := calculateBoundingBox 59.3293 18.0686 r' in
     latMin box' <= latMin box ∧ latMax box <= latMax box' ∧
     lonMin box' <= lonMin box ∧ lonMax box <= lonMax box').
Proof.
  apply (calculateBoundingBox_centred 59.3293 18.0686 50); lra.
Defined.



End Geometry.

Lemma filter_sublist {A : Type} (f : A → bool) (l : list A) :
  sublist (List.filter f l) l.
Proof.
  induction l as [|x l IH]; simpl; [constructor|].
  destruct (f x); [apply sublist_skip | apply sublist_cons]; exact IH.
Qed.

(** X3. The radius query misses nothing and keeps the order of the feed:
    an aircraft of the reply for the bounding box that has both
    coordinates, neither of them [0], and is at a distance of at most [r]
    from the centre is returned by [getAircraftInRadius]; what is returned
    is a sublist of the parsed reply, so of at most its length. *)
Theorem radius_query_complete (feed : GeoFeed) (lat lon r : R) (a : Aircraft)
    (aLat aLon : R) :
  In a (getStatesInArea feed (calculateBoundingBox lat lon r)) →
  latitude a = Some aLat → longitude a = Some aLon →
  aLat ≠ 0%R → aLon ≠ 0%R →
  (calculateDistance lat lon aLat aLon <= r)%R →
  In a (getAircraftInRadius feed lat lon r) ∧
  sublist (getAircraftInRadius feed lat lon r)
    (getStatesInArea feed (calculateBoundingBox lat lon r)) ∧
  length (getAircraftInRadius feed lat lon r)
  ≤ length (getStatesInArea feed (calculateBoundingBox lat lon r)).
Proof.
  intros Hbox Hlat Hlon Hlat0 Hlon0 Hd.
  assert (Hsub : sublist (getAircraftInRadius feed lat lon r)
                   (getStatesInArea feed (calculateBoundingBox lat lon r))).
  { apply filter_sublist. }
  split; [|split; [exact Hsub | apply sublist_length, Hsub]].
  apply getAircraftInRadius_In. split; [exact Hbox|].
  apply inRadius_spec. exists aLat, aLon. auto.
Qed.

Lemma radius_query_complete_witness :
  In (parseAircraft Scenario.overhead)
     (getAircraftInRadius (Scenario.reporting
                             [Scenario.onEquator; Scenario.overhead])
        59.3293 18.0686 50) ∧
  sublist
    (getAircraftInRadius (Scenario.reporting
                            [Scenario.onEquator; Scenario.overhead])
       59.3293 18.0686 50)
    (getStatesInArea (Scenario.reporting
                        [Scenario.onEquator; Scenario.overhead])
       (calculateBoundingBox 59.3293 18.0686 50)) ∧
  length
    (getAircraftInRadius (Scenario.reporting
                            [Scenario.onEquator; Scenario.overhead])
       59.3293 18.0686 50)
  ≤ length
      (getStatesInArea (Scenario.reporting
                          [Scenario.onEquator; Scenario.overhead])
         (calculateBoundingBox 59.3293 18.0686 50)).
Proof.
  destruct overhead_parsed as (Hlat & Hlon & _).
  apply (radius_query_complete _ 59.3293 18.0686 50
           (parseAircraft Scenario.overhead) 59.3293 18.0686).
  - right. left. reflexivity.
  - exact Hlat.
  - exact Hlon.
  - lra.
  - lra.
  - rewrite calculateDistance_same. lra.
Defined.

(** X4. A negative radius finds nothing: [getAircraftInRadius] returns the
    empty list for every radius below [0], whatever the feed reports, since
    no distance is negative. *)
Theorem negative_radius_empty (feed : GeoFeed) (lat lon r : R) :
  (r < 0)%R → getAircraftInRadius feed lat lon r = [].
Proof.
  intros Hr. unfold getAircraftInRadius.
  induction (getStatesInArea feed (calculateBoundingBox lat lon r))
    as [|a l IH]; [reflexivity|].
  simpl. rewrite IH.
  destruct (inRadius lat lon r a) eqn:Hin; [|reflexivity].
  apply inRadius_spec in Hin as (x & y & _ & _ & _ & _ & Hd).
  pose proof (calculateDistance_range lat lon x y) as [Hpos _]. lra.
Qed.

Lemma negative_radius_empty_witness :
  getAircraftInRadius (Scenario.reporting [Scenario.overhead])
    59.3293 18.0686 (-1) = [].
Proof.
  apply (negative_radius_empty _ 59.3293 18.0686 (-1)). lra.
Defined.

(** ** The lookup of one aircraft *)

Lemma lowerAscii_idempotent (c : ascii) :
  lowerAscii (lowerAscii c) = lowerAscii c.
Proof.
  destruct c as [[] [] [] [] [] [] [] []]; reflexivity.
Qed.

Lemma toLowerCase_idempotent (s : string) :
  toLowerCase (toLowerCase s) = toLowerCase s.
Proof.
  induction s as [|c s IH]; simpl; [reflexivity|].
  rewrite lowerAscii_idempotent, IH. reflexivity.
Qed.

(** X5. The lookup of one aircraft: [getAircraftByICAO24] asks the feed for
    the lower-case identifier, so an identifier and its lower-case spelling
    give the same answer; the answer is the first state of the reply,
    parsed, and it is [null] exactly when the request is rejected or the
    reply has no body, no [states], or an empty [states]. *)
Theorem getAircraftByICAO24_first_state (feed : IcaoFeed) (icao24 : string) :
  getAircraftByICAO24 feed (toLowerCase icao24)
  = getAircraftByICAO24 feed icao24 ∧
  (∀ a : Aircraft,
     getAircraftByICAO24 feed icao24 = Some a ↔
     ∃ data state rest,
       feed (toLowerCase icao24) = StatesResponse (Some data) ∧
       states data = Some (state :: rest) ∧ a = parseAircraft state) ∧
  (getAircraftByICAO24 feed icao24 = None ↔
   feed (toLowerCase icao24) = StatesRejected ∨
   feed (toLowerCase icao24) = StatesResponse None ∨
   ∃ data,
     feed (toLowerCase icao24) = StatesResponse (Some data) ∧
     (states data = None ∨ states data = Some [])).
Proof.
  split; [|split].
  - unfold getAircraftByICAO24. rewrite toLowerCase_idempotent. reflexivity.
  - intros a. unfold getAircraftByICAO24.
    destruct (feed (toLowerCase icao24)) as [|[data|]].
    + split; [discriminate | intros (? & ? & ? & ? & _); discriminate].
    + destruct (states data) as [[|state rest]|] eqn:Hs.
      * split; [discriminate|].
        intros (d & s & r & [= <-] & Hd & _). congruence.
      * split.
        { intros [= <-]. exists data, state, rest. auto. }
        intros (d & s & r & [= <-] & Hd & ->).
        rewrite Hs in Hd. injection Hd as <- _. reflexivity.
      * split; [discriminate|].
        intros (d & s & r & [= <-] & Hd & _). congruence.
    + split; [discriminate | intros (? & ? & ? & ? & _); discriminate].
  - unfold getAircraftByICAO24.
    destruct (feed (toLowerCase icao24)) as [|[data|]].
    + split; auto.
    + destruct (states data) as [[|state rest]|] eqn:Hs.
      * split; [|reflexivity]. intros _. right. right. exists data. auto.
      * split; [discriminate|].
        intros [? | [? | (d & [= <-] & [Hd | Hd])]]; congruence.
      * split; [|reflexivity]. intros _. right. right. exists data. auto.
    + split; auto.
Qed.

(** ** The type resolver *)

Lemma awaitBatch_requested (feed : TypeFeed) (batch : list string)
    (c : Cache) :
  requested (awaitBatch feed batch c) = List.filter (uncached c) batch.
Proof.
  unfold awaitBatch. destruct (finishCalls feed _ c) as [results c'].
  cbn [requested].
  induction batch as [|id batch IH]; [reflexivity|].
  simpl. rewrite IH. unfold requestOf, startCall, uncached. simpl.
  destruct (c !! id); reflexivity.
Qed.

(** The requests of the loop when no identifier comes twice: the
    identifiers that are left and that the cache does not hold, in order. *)
Lemma batchLoop_requested (feed : TypeFeed) (l : list string) (rounds : nat) :
  NoDup l →
  ∀ (i : nat) (results c : Cache) (sent : list string),
    length l ≤ i + rounds →
    requested (batchLoop rounds feed l i results c sent)
    = sent ++ List.filter (uncached c) (drop i l).
Proof.
  intros Hnd. induction rounds as [|rounds IH]; intros i results c sent Hlen.
  - simpl. rewrite drop_ge by lia. simpl. rewrite app_nil_r. reflexivity.
  - cbn [batchLoop]. destruct (Nat.ltb i (length l)) eqn:Hi.
    + apply Nat.ltb_lt in Hi.
      destruct (awaitBatch_spec feed (take batchSize (drop i l)) c)
        as (_ & Hc & _).
      rewrite IH by (unfold batchSize; lia).
      rewrite awaitBatch_requested, <- app_assoc. f_equal.
      rewrite <- (take_drop batchSize (drop i l)) at 3.
      rewrite List.filter_app, drop_drop. f_equal.
      apply List.filter_ext_in. intros k Hk. unfold uncached.
      rewrite (proj2 (Hc k)); [reflexivity|].
      intros Hb.
      assert (Hnd' : NoDup (drop i l)).
      { rewrite <- (take_drop i l) in Hnd. apply NoDup_app in Hnd. tauto. }
      rewrite <- (take_drop batchSize (drop i l)), drop_drop in Hnd'.
      apply NoDup_app in Hnd' as (_ & Hdisj & _).
      apply (Hdisj k Hb). apply list_elem_of_In. exact Hk.
    + apply Nat.ltb_ge in Hi. simpl. rewrite drop_ge by lia. simpl.
      rewrite app_nil_r. reflexivity.
Qed.

Lemma getMultipleAircraftInfo_requested (feed : TypeFeed) (ids : list string)
    (c : Cache) :
  NoDup ids →
  requested (getMultipleAircraftInfo feed ids c)
  = List.filter (uncached c) ids.
Proof.
  intros Hnd. unfold getMultipleAircraftInfo.
  rewrite (batchLoop_requested feed ids (length ids) Hnd) by lia.
  rewrite drop_0. reflexivity.
Qed.


Lemma settle_Some (reply : InfoReply) (data : HexDBResponse) :
  settle reply = Some data ↔ reply = InfoResponse 200 (Some data).
Proof.
  destruct reply as [|status [d|]]; simpl;
    try (split; discriminate).
  destruct (Nat.eqb_spec status 200) as [-> | Hne]; split;
    try discriminate; try congruence.
Qed.

(** X6. Failures of the type feed are cached as "not found": a resolve of
    an identifier that the cache does not hold returns a record exactly
    when the reply has status 200 and a body; when the request is rejected,
    or the status is not 200, or the body is empty, it returns [null] and
    caches [null], and every later resolve of the identifier returns [null]
    without a request, even when the feed has the record by then. *)
Theorem failed_lookup_cached (feed : TypeFeed) (id : string) (c : Cache) :
  c !! id = None →
  (∀ data : HexDBResponse,
     value (getAircraftInfo feed id c) = Some data ↔
     feed id = InfoResponse 200 (Some data)) ∧
  (feed id = InfoRejected ∨
   (∃ status body,
      feed id = InfoResponse status body ∧ (status ≠ 200 ∨ body = None)) →
   value (getAircraftInfo feed id c) = None ∧
   cacheAfter (getAircraftInfo feed id c) !! id = Some None ∧
   ∀ later : TypeFeed,
     getAircraftInfo later id (cacheAfter (getAircraftInfo feed id c))
     = {| value := None;
          cacheAfter := cacheAfter (getAircraftInfo feed id c);
          requested := [] |}).
Proof.
  intros Hc. split.
  - intros data. rewrite getAircraftInfo_value. unfold known. rewrite Hc.
    apply settle_Some.
  - intros Hfail.
    assert (Hnone : settle (feed id) = None).
    { destruct Hfail as [-> | (status & body & -> & [Hs | ->])];
        [reflexivity | | destruct status; reflexivity].
      simpl. destruct body; [|reflexivity].
      destruct (Nat.eqb_spec status 200); [contradiction | reflexivity]. }
    assert (Hv : value (getAircraftInfo feed id c) = None).
    { rewrite getAircraftInfo_value. unfold known. rewrite Hc. exact Hnone. }
    assert (Hafter : cacheAfter (getAircraftInfo feed id c) !! id = Some None).
    { destruct (getAircraftInfo_cache feed id c) as [-> _].
      unfold known. rewrite Hc, Hnone. reflexivity. }
    split; [exact Hv|]. split; [exact Hafter|].
    intros later. apply getAircraftInfo_cached, Hafter.
Qed.

Lemma failed_lookup_cached_witness :
  let r := getAircraftInfo Scenario.notFound "4ac9e5" ∅ in
  (∀ data : HexDBResponse,
     value r = Some data ↔
     Scenario.notFound "4ac9e5"%string = InfoResponse 200 (Some data)) ∧
  (Scenario.notFound "4ac9e5"%string = InfoRejected ∨
   (∃ status body,
      Scenario.notFound "4ac9e5"%string = InfoResponse status body ∧
      (status ≠ 200 ∨ body = None)) →
   value r = None ∧
   cacheAfter r !! "4ac9e5"%string = Some None ∧
   ∀ later : TypeFeed,
     getAircraftInfo later "4ac9e5" (cacheAfter r)
     = {| value := None; cacheAfter := cacheAfter r; requested := [] |}).
Proof.
  intros r.
  apply (failed_lookup_cached Scenario.notFound "4ac9e5" ∅). reflexivity.
Defined.

(** X7. Clearing the cache makes every identifier unresolved again: after
    [clearCache], a resolve of any identifier sends a request and returns
    what the reply of the feed gives, whatever the cache held, and leaves a
    cache with that one entry; a batch of distinct identifiers requests
    them all. *)
Theorem clearCache_forgets (feed : TypeFeed) (id : string) (c : Cache) :
  getAircraftInfo feed id (clearCache c)
  = {| value := settle (feed id);
       cacheAfter := {[id := settle (feed id)]};
       requested := [id] |} ∧
  (∀ first : TypeFeed,
     let r1 := getAircraftInfo first id c in
     let r2 := getAircraftInfo feed id (clearCache (cacheAfter r1)) in
     requested r2 = [id] ∧ value r2 = settle (feed id)) ∧
  (∀ ids : list string,
     NoDup ids →
     requested (getMultipleAircraftInfo feed ids (clearCache c)) = ids).
Proof.
  assert (Hclear : ∀ c' : Cache,
            getAircraftInfo feed id (clearCache c')
            = {| value := settle (feed id);
                 cacheAfter := {[id := settle (feed id)]};
                 requested := [id] |}).
  { intros c'. unfold getAircraftInfo, clearCache. rewrite lookup_empty.
    rewrite insert_empty. reflexivity. }
  split; [apply Hclear|]. split.
  - intros first r1 r2. subst r2. rewrite Hclear. auto.
  - intros ids Hnd. rewrite getMultipleAircraftInfo_requested by exact Hnd.
    induction ids as [|k ids IH]; [reflexivity|].
    apply NoDup_cons in Hnd as [_ Hnd]. simpl.
    unfold uncached at 1, clearCache. rewrite lookup_empty.
    f_equal. apply IH, Hnd.
Qed.

Lemma resolves_subseteq (feed : TypeFeed) (c : Cache) (ids : list string)
    (c' : Cache) :
  resolves feed c ids c c' → c ⊆ c'.
Proof.
  intros H. apply map_subseteq_spec. intros k v Hk.
  eapply resolves_monotone; eassumption.
Qed.

Lemma getAircraftInfo_subseteq (feed : TypeFeed) (id : string) (c : Cache) :
  c ⊆ cacheAfter (getAircraftInfo feed id c).
Proof.
  apply map_subseteq_spec. intros k v Hk.
  destruct (getAircraftInfo_cache feed id c) as [Hid Hother].
  destruct (decide (k = id)) as [-> | Hne].
  - rewrite Hid. unfold known. rewrite Hk. reflexivity.
  - rewrite Hother by exact Hne. exact Hk.
Qed.

Lemma runOps_subseteq (ops : list (TypeFeed * Op)) :
  ∀ c : Cache, c ⊆ fst (runOps ops c).
Proof.
  induction ops as [|[feed [id | ids]] ops IH]; intros c; simpl.
  - reflexivity.
  - specialize (IH (cacheAfter (getAircraftInfo feed id c))).
    destruct (runOps ops _) as [c2 sent]. simpl in *.
    etransitivity; [apply getAircraftInfo_subseteq | exact IH].
  - specialize (IH (cacheAfter (getMultipleAircraftInfo feed ids c))).
    destruct (runOps ops _) as [c2 sent]. simpl in *.
    etransitivity; [|exact IH].
    eapply resolves_subseteq, getMultipleAircraftInfo_spec.
Qed.

(** X8. The cache only grows: a resolve, a batch, and any sequence of
    calls of the resolver leave a cache that holds every entry it held
    before, unchanged; after a batch the cache holds exactly the
    identifiers it held before and those of the batch. *)
Theorem cache_only_grows (feed : TypeFeed) (c : Cache) :
  (∀ id : string, c ⊆ cacheAfter (getAircraftInfo feed id c)) ∧
  (∀ ids : list string,
     c ⊆ cacheAfter (getMultipleAircraftInfo feed ids c) ∧
     dom (cacheAfter (getMultipleAircraftInfo feed ids c))
     = dom c ∪ list_to_set ids) ∧
  (∀ ops : list (TypeFeed * Op), c ⊆ fst (runOps ops c)).
Proof.
  split; [|split].
  - intros id. apply getAircraftInfo_subseteq.
  - intros ids.
    destruct (getMultipleAircraftInfo_spec feed ids c) as (_ & Hc & _).
    split; [eapply resolves_subseteq, Hc|].
    apply set_eq. intros k.
    rewrite elem_of_union, !elem_of_dom, elem_of_list_to_set.
    destruct (decide (k ∈ ids)) as [Hin | Hout].
    + rewrite (proj1 (Hc k) Hin). split; [auto | eauto].
    + rewrite (proj2 (Hc k) Hout). tauto.
  - intros ops. apply runOps_subseteq.
Qed.

(** X9. What a batch requests: for a list of distinct identifiers,
    [getMultipleAircraftInfo] requests exactly the identifiers that the
    cache does not hold, each once and in the order of the list; so it
    sends at most as many requests as the list is long, none when the
    cache holds them all, and none when the same list is resolved again. *)
Theorem batch_requests_uncached (feed : TypeFeed) (ids : list string)
    (c : Cache) :
  NoDup ids →
  requested (getMultipleAircraftInfo feed ids c)
  = List.filter (uncached c) ids ∧
  length (requested (getMultipleAircraftInfo feed ids c)) ≤ length ids ∧
  ((∀ id, id ∈ ids → is_Some (c !! id)) →
   requested (getMultipleAircraftInfo feed ids c) = []) ∧
  (∀ again : TypeFeed,
     requested
       (getMultipleAircraftInfo again ids
          (cacheAfter (getMultipleAircraftInfo feed ids c))) = []).
Proof.
  intros Hnd.
  assert (Hall : ∀ c' : Cache,
            (∀ id, id ∈ ids → is_Some (c' !! id)) →
            List.filter (uncached c') ids = []).
  { intros c' Hc'. clear Hnd.
    induction ids as [|k ids IH]; [reflexivity|]. simpl.
    unfold uncached at 1. destruct (Hc' k) as [v ->]; [left|].
    apply IH. intros id Hid. apply Hc'. right. exact Hid. }
  split; [apply getMultipleAircraftInfo_requested, Hnd|].
  split; [|split].
  - rewrite getMultipleAircraftInfo_requested by exact Hnd.
    apply List.filter_length_le.
  - intros Hc. rewrite getMultipleAircraftInfo_requested by exact Hnd.
    apply Hall, Hc.
  - intros again. rewrite getMultipleAircraftInfo_requested by exact Hnd.
    apply Hall. intros id Hid.
    destruct (getMultipleAircraftInfo_spec feed ids c) as (_ & Hc & _).
    rewrite (proj1 (Hc id) Hid). eauto.
Qed.

Lemma twelve_NoDup : NoDup Scenario.twelve.
Proof. apply (bool_decide_unpack _). vm_compute. exact I. Qed.

Lemma batch_requests_uncached_witness :
  let c := cacheAfter (getAircraftInfo Scenario.notFound "4ac9e7" ∅) in
  requested (getMultipleAircraftInfo Scenario.allBoeing Scenario.twelve c)
  = List.filter (uncached c) Scenario.twelve ∧
  length (requested
            (getMultipleAircraftInfo Scenario.allBoeing Scenario.twelve c))
  ≤ length Scenario.twelve ∧
  ((∀ id, id ∈ Scenario.twelve → is_Some (c !! id)) →
   requested (getMultipleAircraftInfo Scenario.allBoeing Scenario.twelve c)
   = []) ∧
  (∀ again : TypeFeed,
     requested
       (getMultipleAircraftInfo again Scenario.twelve
          (cacheAfter
             (getMultipleAircraftInfo Scenario.allBoeing Scenario.twelve c)))
     = []).
Proof.
  intros c.
  apply (batch_requests_uncached Scenario.allBoeing Scenario.twelve c).
  exact twelve_NoDup.
Defined.

(** ** The lookup tables *)





(** ** The alert engine: the list that a poll cycle displays *)

Lemma trackPlane_tracked (a : FlightAlert) (prev : gset string) (m : Cache)
    (s : Sinks) (pl : Aircraft) (loop loop' : Loop) (t : TrackedAircraft) :
  trackPlane a prev m s pl loop = (loop', Normal t) → t = tracked a prev m pl.
Proof.
  unfold trackPlane, tracked.
  destruct (latitude pl) as [lat|]; [|intros [= _ <-]; reflexivity].
  destruct (longitude pl) as [lon|]; [|intros [= _ <-]; reflexivity].
  destruct (negb (truthy lat) || negb (truthy lon));
    [intros [= _ <-]; reflexivity|].
  destruct (mjoin (m !! icao24 pl)) as [info|];
    [|intros [= _ <-]; reflexivity].
  destruct (mapTypeToModel (ICAOTypeCode info)) as [model|];
    [|intros [= _ <-]; reflexivity].
  match goal with
  | |- context [if ?c then _ else (_, Normal _)] => destruct c
  end; [|intros [= _ <-]; reflexivity].
  match goal with
  | |- context [raiseAlert ?s ?p ?h ?mo ?d ?l] =>
      destruct (raiseAlert s p h mo d l) as [l2 [u|err]]
  end; [intros [= _ <-]; reflexivity | discriminate].
Qed.

Lemma trackAll_tracked (a : FlightAlert) (prev : gset string) (m : Cache)
    (s : Sinks) (planes : list Aircraft) :
  ∀ (loop loop' : Loop) (ts : list TrackedAircraft),
    trackAll a prev m s planes loop = (loop', Normal ts) →
    ts = List.map (tracked a prev m) planes.
Proof.
  induction planes as [|pl rest IH]; intros loop loop' ts; cbn [trackAll].
  - intros [= _ <-]. reflexivity.
  - destruct (trackPlane a prev m s pl loop) as [l1 [t|err]] eqn:H1;
      [|discriminate].
    destruct (trackAll a prev m s rest l1) as [l2 [tr|err]] eqn:H2;
      [|discriminate].
    intros [= _ <-]. cbn [List.map].
    rewrite (trackPlane_tracked _ _ _ _ _ _ _ _ H1), (IH _ _ _ H2).
    reflexivity.
Qed.

(** What a cycle that runs to its end leaves in the list. *)
Lemma fetchAircraft_displayed (p : Poll) (w : World) (a : FlightAlert) :
  alert p = Some a →
  polled p = true →
  logged (fetchAircraft p w) = None →
  aircraft (hook (after (fetchAircraft p w)))
  = List.map
      (tracked a (previousAircraftRef (hook w))
         (value (getMultipleAircraftInfo (typeFeed p)
                   (List.map icao24 (nearby p)) (aircraftCache w))))
      (nearby p) ∧
  lastUpdate (hook (after (fetchAircraft p w))) = Some (now p).
Proof.
  intros Ha Hp. unfold polled in Hp. rewrite Ha in Hp.
  unfold nearby, fetchAircraft. rewrite Ha.
  apply andb_true_iff in Hp as [-> ->]. cbn [negb orb].
  match goal with
  | |- context [trackAll a ?prev ?m ?s ?planes ?start] =>
      destruct (trackAll a prev m s planes start) as [loop' [ts|err]] eqn:Hrun
  end; simpl; [|discriminate].
  intros _. split; [|reflexivity].
  eapply trackAll_tracked, Hrun.
Qed.

Lemma modelled_truthy (model : string) (info : ModelInfo) :
  property AIRCRAFT_MODELS model = Some info → truthyStr model = true.
Proof.
  destruct model as [|c model]; [|reflexivity].
  vm_compute. discriminate.
Qed.

Lemma filter_all {A : Type} (f : A → bool) (l : list A) :
  (∀ x, In x l → f x = true) → List.filter f l = l.
Proof.
  induction l as [|x l IH]; intros H; [reflexivity|].
  simpl. rewrite (H x) by (left; reflexivity).
  rewrite IH; [reflexivity|]. intros y Hy. apply H. right. exact Hy.
Qed.

(** The entry of an aircraft that the radius query returned. *)
Lemma tracked_inRadius (a : FlightAlert) (prev : gset string) (m : Cache)
    (pl : Aircraft) :
  inRadius (alert_latitude a) (alert_longitude a) (radius a) pl = true →
  plane (tracked a prev m pl) = pl ∧
  (∃ d, distance (tracked a prev m pl) = Some d ∧ (0 <= d <= radius a)%R) ∧
  isNew (tracked a prev m pl)
  = Some (negb (bool_decide (icao24 pl ∈ prev))) ∧
  hasMatch (tracked a prev m pl) = matchesWatchlist a m (icao24 pl) ∧
  (∀ model, matchedModel (tracked a prev m pl) = Some model →
            resolvedModel m (icao24 pl) = Some model ∧
            includes (aircraftModels a) model = true).
Proof.
  intros (lat & lon & Hlat & Hlon & Hlat0 & Hlon0 & Hd)%inRadius_spec.
  unfold tracked, hasMatch, matchesWatchlist, resolvedModel.
  rewrite Hlat, Hlon.
  rewrite (proj2 (truthy_spec lat) Hlat0), (proj2 (truthy_spec lon) Hlon0).
  cbn [negb orb plane distance isNew matchedModel].
  split; [reflexivity|]. split.
  { eexists. split; [reflexivity|]. split; [|exact Hd].
    apply calculateDistance_range. }
  split; [reflexivity|].
  destruct (mjoin (m !! icao24 pl)) as [info|];
    [|split; [reflexivity | discriminate]].
  destruct (mapTypeToModel (ICAOTypeCode info)) as [model|] eqn:Hmodel;
    [|split; [reflexivity | discriminate]].
  destruct (includes (aircraftModels a) model) eqn:Hinc;
    [|split; [reflexivity | discriminate]].
  destruct (mapTypeToModel_modelled _ _ Hmodel) as [entry Hentry].
  split; [eapply modelled_truthy, Hentry|].
  intros model' [= <-]. auto.
Qed.

(** X11. The list a poll cycle displays. When a cycle runs to its end, the
    list of the hook has one entry for each aircraft of the radius query,
    in the same order; each entry carries a distance between 0 and the
    radius of the alert and is marked new exactly when its identifier was
    not in the previous presence set; a matched model is a model of the
    watchlist; the map shows every entry, and the matched section of the
    list shows exactly the entries that match the watchlist. *)
Theorem displayed_aircraft (p : Poll) (w : World) (a : FlightAlert) :
  alert p = Some a →
  completes p w →
  let list := aircraft (hook (after (fetchAircraft p w))) in
  List.map plane list = nearby p ∧
  lastUpdate (hook (after (fetchAircraft p w))) = Some (now p) ∧
  onMap list = list ∧
  matchedAircraft list
  = List.filter (fun t => watched p w (icao24 (plane t))) list ∧
  ∀ t, In t list →
       icao24 (plane t) ∈ presence p ∧
       (∃ d, distance t = Some d ∧ (0 <= d <= radius a)%R) ∧
       isNew t
       = Some (negb (bool_decide
                       (icao24 (plane t) ∈ previousAircraftRef (hook w)))) ∧
       (∀ model, matchedModel t = Some model →
                 includes (aircraftModels a) model = true ∧
                 In model (List.map fst AIRCRAFT_MODELS)).
Proof.
  intros Ha [Hp Hlog].
  destruct (fetchAircraft_displayed p w a Ha Hp Hlog) as [Hlist Htime].
  cbv zeta. rewrite Hlist. clear Hlist.
  set (prev := previousAircraftRef (hook w)).
  assert (Hw : ∀ id, watched p w id
                     = matchesWatchlist a
                         (value (getMultipleAircraftInfo (typeFeed p)
                                   (List.map icao24 (nearby p))
                                   (aircraftCache w))) id).
  { intros id. unfold watched. rewrite Ha. reflexivity. }
  set (m := value (getMultipleAircraftInfo (typeFeed p)
                     (List.map icao24 (nearby p)) (aircraftCache w))) in *.
  assert (Hin : ∀ pl, In pl (nearby p) →
            inRadius (alert_latitude a) (alert_longitude a) (radius a) pl
            = true).
  { intros pl. unfold nearby. rewrite Ha.
    destruct (negb (active a) || negb (enabled p)); [intros []|].
    intros [_ H]%getAircraftInRadius_In. exact H. }
  assert (Hentry : ∀ t, In t (List.map (tracked a prev m) (nearby p)) →
            ∃ pl, In pl (nearby p) ∧ t = tracked a prev m pl ∧ plane t = pl).
  { intros t (pl & <- & Hpl)%in_map_iff. exists pl.
    destruct (tracked_inRadius a prev m pl (Hin pl Hpl)) as (Hplane & _).
    auto. }
  split; [|split; [exact Htime|split; [|split]]].
  - rewrite List.map_map. rewrite <- (List.map_id (nearby p)) at 2.
    apply List.map_ext_in. intros pl Hpl.
    apply (tracked_inRadius a prev m pl (Hin pl Hpl)).
  - apply filter_all. intros t (pl & Hpl & _ & Hplane)%Hentry.
    rewrite Hplane. apply (nearby_hasPosition p pl Hpl).
  - apply List.filter_ext_in. intros t (pl & Hpl & -> & Hplane)%Hentry.
    rewrite Hplane, Hw.
    apply (tracked_inRadius a prev m pl (Hin pl Hpl)).
  - intros t (pl & Hpl & -> & Hplane)%Hentry. rewrite Hplane.
    destruct (tracked_inRadius a prev m pl (Hin pl Hpl))
      as (_ & Hd & Hnew & _ & Hmodel).
    split; [apply elem_of_presence; eauto|].
    split; [exact Hd|]. split; [exact Hnew|].
    intros model Hm. destruct (Hmodel model Hm) as [Hres Hinc].
    split; [exact Hinc|].
    unfold resolvedModel in Hres.
    destruct (mjoin (m !! icao24 pl)) as [info|]; [|discriminate].
    destruct (mapTypeToModel_modelled _ _ Hres) as [entry Hk%property_In].
    apply in_map_iff. exists (model, entry). auto.
Qed.

Lemma displayed_aircraft_witness :
  let p := Scenario.pollWith (Scenario.reporting [Scenario.overhead])
             Scenario.quiet in
  let list := aircraft (hook (after (fetchAircraft p Scenario.fresh))) in
  List.map plane list = nearby p ∧
  lastUpdate (hook (after (fetchAircraft p Scenario.fresh))) = Some (now p) ∧
  onMap list = list ∧
  matchedAircraft list
  = List.filter (fun t => watched p Scenario.fresh (icao24 (plane t))) list ∧
  ∀ t, In t list →
       icao24 (plane t) ∈ presence p ∧
       (∃ d, distance t = Some d ∧ (0 <= d <= radius Scenario.stockholm)%R) ∧
       isNew t
       = Some (negb (bool_decide
                       (icao24 (plane t)
                        ∈ previousAircraftRef (hook Scenario.fresh)))) ∧
       (∀ model, matchedModel t = Some model →
                 includes (aircraftModels Scenario.stockholm) model = true ∧
                 In model (List.map fst AIRCRAFT_MODELS)).
Proof.
  intros p.
  apply (displayed_aircraft p Scenario.fresh Scenario.stockholm).
  - reflexivity.
  - split; [reflexivity | apply poll_reliable, reliable_quiet].
Defined.

(** ** The alert engine: requests, and when an alert fires *)

Lemma fetchAircraft_resolved (p : Poll) (w : World) :
  polled p = true →
  lookups (fetchAircraft p w)
  = requested (getMultipleAircraftInfo (typeFeed p)
                 (List.map icao24 (nearby p)) (aircraftCache w)) ∧
  aircraftCache (after (fetchAircraft p w))
  = cacheAfter (getMultipleAircraftInfo (typeFeed p)
                  (List.map icao24 (nearby p)) (aircraftCache w)).
Proof.
  intros Hp. destruct (polled_alert p Hp) as [a Ha].
  unfold polled in Hp. rewrite Ha in Hp.
  unfold nearby, fetchAircraft. rewrite Ha.
  apply andb_true_iff in Hp as [-> ->]. cbn [negb orb].
  match goal with
  | |- context [trackAll a ?prev ?m ?s ?planes ?start] =>
      destruct (trackAll a prev m s planes start) as [loop' [ts|err]]
  end; simpl; auto.
Qed.

Lemma poll_cache_grows (p : Poll) (w : World) :
  aircraftCache w ⊆ aircraftCache (after (fetchAircraft p w)).
Proof.
  destruct (polled p) eqn:Hp.
  - destruct (fetchAircraft_resolved p w Hp) as [_ ->].
    eapply resolves_subseteq, getMultipleAircraftInfo_spec.
  - rewrite (fetchAircraft_idle p w Hp). reflexivity.
Qed.

Lemma run_cache_grows (polls : list Poll) :
  ∀ w : World, aircraftCache w ⊆ aircraftCache (fst (run polls w)).
Proof.
  induction polls as [|p rest IH]; intros w.
  - reflexivity.
  - destruct (run_cons p rest w) as [-> _].
    etransitivity; [apply poll_cache_grows | apply IH].
Qed.

Lemma poll_lookups (p : Poll) (w : World) (id : string) :
  In id (lookups (fetchAircraft p w)) →
  id ∈ presence p ∧ aircraftCache w !! id = None.
Proof.
  destruct (polled p) eqn:Hp.
  - destruct (fetchAircraft_resolved p w Hp) as [-> _].
    intros Hin%list_elem_of_In.
    destruct (getMultipleAircraftInfo_spec (typeFeed p)
                (List.map icao24 (nearby p)) (aircraftCache w))
      as (_ & _ & Hreq).
    destruct (Hreq id Hin) as [Hids Hc]. split; [|exact Hc].
    unfold presence. apply elem_of_list_to_set. exact Hids.
  - rewrite (fetchAircraft_idle p w Hp). intros [].
Qed.

(** X12. The requests of a poll cycle. A cycle asks the type service only
    for identifiers that are in the area and that the cache does not hold;
    whether or not the cycle runs to its end, the cache afterwards holds
    every identifier of the area and every entry it held before, and so
    does the cache after any further cycles; a following cycle whose area
    has no other identifiers asks for nothing. *)
Theorem lookups_only_uncached (p : Poll) (w : World) :
  (∀ id, In id (lookups (fetchAircraft p w)) →
         id ∈ presence p ∧ aircraftCache w !! id = None) ∧
  (∀ id, id ∈ presence p →
         is_Some (aircraftCache (after (fetchAircraft p w)) !! id)) ∧
  aircraftCache w ⊆ aircraftCache (after (fetchAircraft p w)) ∧
  (∀ polls, aircraftCache w ⊆ aircraftCache (fst (run polls w))) ∧
  (∀ p', (∀ id, id ∈ presence p' → id ∈ presence p) →
         lookups (fetchAircraft p' (after (fetchAircraft p w))) = []).
Proof.
  assert (Hheld : ∀ id, id ∈ presence p →
            is_Some (aircraftCache (after (fetchAircraft p w)) !! id)).
  { intros id Hin. destruct (polled p) eqn:Hp.
    - destruct (fetchAircraft_resolved p w Hp) as [_ ->].
      destruct (getMultipleAircraftInfo_spec (typeFeed p)
                  (List.map icao24 (nearby p)) (aircraftCache w))
        as (_ & Hc & _).
      unfold presence in Hin. apply elem_of_list_to_set in Hin.
      rewrite (proj1 (Hc id) Hin). eauto.
    - exfalso. exact (presence_idle p id Hp Hin). }
  split; [apply poll_lookups|]. split; [exact Hheld|].
  split; [apply poll_cache_grows|].
  split; [intros polls; apply run_cache_grows|].
  intros p' Hsub.
  destruct (lookups (fetchAircraft p' (after (fetchAircraft p w))))
    as [|id l] eqn:Hl; [reflexivity|].
  exfalso.
  destruct (poll_lookups p' (after (fetchAircraft p w)) id) as [Hin Hc].
  { rewrite Hl. left. reflexivity. }
  destruct (Hheld id (Hsub id Hin)) as [v Hv]. congruence.
Qed.

(** A toast for an identifier in a poll cycle needs the identifier to be in
    the area, to match the watchlist, and to be in neither set. *)
Lemma poll_toast_needs (p : Poll) (w : World) (id : string) :
  0 < toastsFor id (shown (fetchAircraft p w)) →
  polled p = true ∧ id ∈ presence p ∧ watched p w id = true ∧
  (id ∉ previousAircraftRef (hook w)) ∧ (id ∉ alertedAircraftRef (hook w)).
Proof.
  destruct (polled p) eqn:Hp.
  - destruct (polled_alert p Hp) as [a Ha].
    destruct (fetchAircraft_polled p w a Ha Hp) as (loop' & Hrun & -> & _).
    intros Hpos.
    destruct (Tracks_at_most_once _ _ _ _ _ _ _ _ id Hrun)
      as (_ & _ & _ & Hnew).
    cbn [emitted alertedAircraft] in Hnew.
    change (toastsFor id []) with 0 in Hnew.
    destruct (Hnew Hpos) as [Hin Hout].
    destruct (Tracks_alerted_new _ _ _ _ _ _ _ _ id Hrun Hin)
      as [? | (pl & Hpl & Hid & _ & Hm & Hprev)]; [contradiction|].
    split; [reflexivity|].
    split; [apply elem_of_presence; eauto|].
    split; [unfold watched; rewrite Ha; exact Hm|].
    split; [exact Hprev | exact Hout].
  - rewrite (fetchAircraft_idle p w Hp). unfold toastsFor. simpl. lia.
Qed.

(** X13. When an alert fires. In any poll cycle, a toast for an identifier
    means that the cycle got past its first line, that the identifier is
    in the area and matches the watchlist, and that it was in neither the
    previous presence set nor the alerted set. In a cycle that runs to its
    end the converse holds too: the identifier gets exactly one toast under
    these conditions, and none otherwise. *)
Theorem toast_condition (p : Poll) (w : World) (id : string) :
  (0 < toastsFor id (shown (fetchAircraft p w)) →
   polled p = true ∧ id ∈ presence p ∧ watched p w id = true ∧
   (id ∉ previousAircraftRef (hook w)) ∧
   (id ∉ alertedAircraftRef (hook w))) ∧
  (completes p w →
   toastsFor id (shown (fetchAircraft p w))
   = if bool_decide (id ∈ presence p) && watched p w id
        && negb (bool_decide (id ∈ previousAircraftRef (hook w)))
        && negb (bool_decide (id ∈ alertedAircraftRef (hook w)))
     then 1 else 0).
Proof.
  split; [apply poll_toast_needs|].
  intros Hc.
  destruct (bool_decide (id ∈ presence p) && watched p w id
            && negb (bool_decide (id ∈ previousAircraftRef (hook w)))
            && negb (bool_decide (id ∈ alertedAircraftRef (hook w))))
    eqn:Hcond.
  - rewrite !andb_true_iff, !negb_true_iff, !bool_decide_eq_false,
      bool_decide_eq_true in Hcond.
    destruct Hcond as [[[Hin Hw] Hprev] Hal].
    apply (poll_fires p w id Hc Hin Hw Hprev Hal).
  - destruct (toastsFor id (shown (fetchAircraft p w))) as [|n] eqn:Ht;
      [reflexivity|].
    exfalso.
    destruct (poll_toast_needs p w id) as (_ & Hin & Hw & Hprev & Hal);
      [lia|].
    rewrite Hw in Hcond.
    rewrite (bool_decide_eq_true_2 _ Hin) in Hcond.
    rewrite (bool_decide_eq_false_2 _ Hprev) in Hcond.
    rewrite (bool_decide_eq_false_2 _ Hal) in Hcond.
    discriminate.
Qed.

(** An identifier of the previous presence set gets nothing in a poll
    cycle, and stays in the set when it is in the area. *)
Lemma poll_previous (p : Poll) (w : World) (id : string) :
  id ∈ previousAircraftRef (hook w) →
  toastsFor id (shown (fetchAircraft p w)) = 0 ∧
  notificationsFor id (shown (fetchAircraft p w)) = 0 ∧
  (id ∈ presence p →
   id ∈ previousAircraftRef (hook (after (fetchAircraft p w)))).
Proof.
  intros Hprev.
  assert (Ht : toastsFor id (shown (fetchAircraft p w)) = 0).
  { destruct (toastsFor id (shown (fetchAircraft p w))) as [|n] eqn:Ht;
      [reflexivity|].
    destruct (poll_toast_needs p w id) as (_ & _ & _ & Hout & _); [lia|].
    contradiction. }
  destruct (poll_at_most_once p w id) as (_ & Hn & _).
  split; [exact Ht|]. split; [lia|]. intros Hin.
  destruct (polled p) eqn:Hp.
  - destruct (polled_alert p Hp) as [a Ha].
    destruct (fetchAircraft_polled p w a Ha Hp)
      as (loop' & Hrun & _ & _ & Hend).
    destruct (logged (fetchAircraft p w)) as [err|] eqn:Hlog.
    + destruct Hend as (_ & -> & _). exact Hprev.
    + destruct Hend as (_ & -> & _).
      rewrite (Tracks_current _ _ _ _ _ _ _ _ Hrun eq_refl), nearby_filter.
      fold (presence p). set_solver.
  - exfalso. exact (presence_idle p id Hp Hin).
Qed.

(** X14. An aircraft that was in the area at the last completed cycle is
    never alerted while it stays: over any sequence of poll cycles that all
    have the identifier in the area, an identifier of the previous presence
    set gets no toast and no notification and stays in that set, whatever
    the watchlist, the type feed and the sinks of each cycle are. *)
Theorem present_before_never_alerts (id : string) (polls : list Poll)
    (w : World) :
  id ∈ previousAircraftRef (hook w) →
  Forall (fun p => id ∈ presence p) polls →
  toastsFor id (snd (run polls w)) = 0 ∧
  notificationsFor id (snd (run polls w)) = 0 ∧
  id ∈ previousAircraftRef (hook (fst (run polls w))).
Proof.
  revert w. induction polls as [|p rest IH]; intros w Hprev Hall.
  - simpl. auto.
  - apply Forall_cons in Hall as [Hp Hrest].
    destruct (run_cons p rest w) as [-> ->].
    destruct (poll_previous p w id Hprev) as (Ht & Hn & Hstay).
    destruct (IH _ (Hstay Hp) Hrest) as (It & In' & Ip).
    rewrite toastsFor_app, notificationsFor_app. auto with lia.
Qed.

Lemma present_before_never_alerts_witness :
  let w :=
    {| hook :=
         {| aircraft := []; isLoading := false; error := None;
            lastUpdate := None;
            previousAircraftRef := {["4ac9e5"%string]};
            alertedAircraftRef := ∅ |};
       aircraftCache := ∅ |} in
  let polls :=
    [Scenario.pollWith (Scenario.reporting [Scenario.overhead])
       Scenario.quiet;
     Scenario.pollWith (Scenario.reporting [Scenario.overhead])
       Scenario.illegalConstructor] in
  toastsFor "4ac9e5" (snd (run polls w)) = 0 ∧
  notificationsFor "4ac9e5" (snd (run polls w)) = 0 ∧
  "4ac9e5"%string ∈ previousAircraftRef (hook (fst (run polls w))).
Proof.
  intros w polls.
  apply (present_before_never_alerts "4ac9e5" polls w).
  - exact (proj2 (elem_of_singleton (C := gset string) _ _) eq_refl).
  - repeat constructor; apply presence_overhead.
Defined.

(** ** The alert engine: what the alerts say *)

Lemma raiseAlert_events (s : Sinks) (pl : Aircraft)
    (hexDBInfo : option HexDBResponse) (model : string) (d : R) (loop : Loop)
    (e : Event) :
  In e (emitted (fst (raiseAlert s pl hexDBInfo model d loop))) →
  In e (emitted loop) ∨
  (eventPlane e = pl ∧
   ∃ info, property AIRCRAFT_MODELS model = Some info ∧
     match e with
     | Toasted _ t =>
         toastTitle t = ("Alert: " ++ name info ++ " detected!")%string ∧
         flight t = strOr (callsign pl) "Unknown" ∧
         distanceKm t = d ∧ duration t = 10000%N
     | Notified _ n =>
         notificationGranted s = true ∧
         notificationTitle n = ("Aircraft Alert: " ++ name info)%string ∧
         bodyFlight n = strOr (callsign pl) (icao24 pl) ∧
         bodyDistanceKm n = d ∧ icon n = "/airplane-icon.png"%string
     end).
Proof.
  unfold raiseAlert.
  destruct (property AIRCRAFT_MODELS model) as [info|] eqn:Hinfo;
    [|cbn [fst emitted]; auto].
  destruct (toast_success s _); [cbn [fst emitted]; auto|].
  destruct (notificationGranted s) eqn:Hg;
    [destruct (new_Notification s _)|];
    cbn [fst emitted currentAircraftSet alertedAircraft];
    rewrite ?in_app_iff; cbn [In]; intros Hin;
    repeat match goal with
           | H : _ ∨ _ |- _ => destruct H
           | H : False |- _ => destruct H
           end;
    try (left; assumption);
    subst e; right; (split; [reflexivity|]); exists info;
    (split; [reflexivity|]); cbn [toastTitle flight distanceKm duration
      notificationTitle bodyFlight bodyDistanceKm icon]; auto 10.
Qed.

Lemma trackPlane_events (a : FlightAlert) (prev : gset string) (m : Cache)
    (s : Sinks) (pl : Aircraft) (loop : Loop) (e : Event) :
  In e (emitted (fst (trackPlane a prev m s pl loop))) →
  In e (emitted loop) ∨ (eventPlane e = pl ∧ announces a m s e).
Proof.
  unfold trackPlane.
  destruct (latitude pl) as [lat|] eqn:Hlat; [|cbn [fst]; auto].
  destruct (longitude pl) as [lon|] eqn:Hlon; [|cbn [fst]; auto].
  destruct (negb (truthy lat) || negb (truthy lon)); [cbn [fst]; auto|].
  destruct (mjoin (m !! icao24 pl)) as [hx|] eqn:Hhx;
    [|cbn [fst emitted]; auto].
  destruct (mapTypeToModel (ICAOTypeCode hx)) as [model|] eqn:Hmodel;
    [|cbn [fst emitted]; auto].
  destruct (includes (aircraftModels a) model) eqn:Hinc;
    [|cbn [fst emitted andb]; auto].
  match goal with
  | |- context [if ?c then _ else (_, Normal _)] => destruct c
  end; [|cbn [fst emitted]; auto].
  match goal with
  | |- context [raiseAlert ?s ?p ?h ?mo ?d ?l] =>
      pose proof (raiseAlert_events s p h mo d l e) as Hev;
      destruct (raiseAlert s p h mo d l) as [l2 [u|err]]
  end; cbn [fst] in *; intros Hin;
    (destruct (Hev Hin) as [Hold | (Hpl & info & Hinfo & Hsays)];
     [left; exact Hold|]);
    right; (split; [exact Hpl|]);
    unfold announces; rewrite Hpl;
    exists lat, lon, model, info;
    (split; [exact Hlat|]); (split; [exact Hlon|]);
    (split; [unfold resolvedModel; rewrite Hhx; exact Hmodel|]);
    (split; [exact Hinc|]); (split; [exact Hinfo|]); exact Hsays.
Qed.

Lemma trackAll_events (a : FlightAlert) (prev : gset string) (m : Cache)
    (s : Sinks) (e : Event) (planes : list Aircraft) :
  ∀ loop : Loop,
    In e (emitted (fst (trackAll a prev m s planes loop))) →
    In e (emitted loop) ∨ (In (eventPlane e) planes ∧ announces a m s e).
Proof.
  induction planes as [|pl rest IH]; intros loop; cbn [trackAll].
  - auto.
  - pose proof (trackPlane_events a prev m s pl loop e) as Hone.
    destruct (trackPlane a prev m s pl loop) as [l1 [t|err]]; cbn [fst] in *.
    + specialize (IH l1).
      destruct (trackAll a prev m s rest l1) as [l2 [tr|err]];
        cbn [fst] in *; intros Hin;
        (destruct (IH Hin) as [Hold | [Hpl Hsays]];
         [destruct (Hone Hold) as [? | [Hpl Hsays]]|]);
        auto; right; (split; [|exact Hsays]);
        (left; symmetry; exact Hpl) || (right; exact Hpl).
    + intros Hin. destruct (Hone Hin) as [? | [Hpl Hsays]]; [auto|].
      right. split; [left; symmetry; exact Hpl | exact Hsays].
Qed.

Lemma fetchAircraft_shown (p : Poll) (w : World) (a : FlightAlert) :
  alert p = Some a →
  polled p = true →
  shown (fetchAircraft p w)
  = emitted
      (fst (trackAll a (previousAircraftRef (hook w))
              (value (getMultipleAircraftInfo (typeFeed p)
                        (List.map icao24 (nearby p)) (aircraftCache w)))
              (sinks p) (nearby p)
              {| currentAircraftSet := ∅;
                 alertedAircraft := alertedAircraftRef (hook w);
                 emitted := [] |})).
Proof.
  intros Ha Hp. unfold polled in Hp. rewrite Ha in Hp.
  unfold nearby, fetchAircraft. rewrite Ha.
  apply andb_true_iff in Hp as [-> ->]. cbn [negb orb].
  match goal with
  | |- context [trackAll a ?prev ?m ?s ?planes ?start] =>
      destruct (trackAll a prev m s planes start) as [loop' [ts|err]]
  end; reflexivity.
Qed.

(** X15. What the alerts say. Every toast and every OS notification that a
    poll cycle shows is for an aircraft of the radius query of that cycle
    whose resolved model is on the watchlist; its title carries the name
    that [AIRCRAFT_MODELS] gives for that model, and the distance it prints
    is the distance of the aircraft from the centre of the alert, which is
    between 0 and the radius; a notification is only shown with the
    permission granted, and a toast stays for 10000 ms. *)
Theorem alerts_announce (p : Poll) (w : World) (e : Event) :
  In e (shown (fetchAircraft p w)) →
  ∃ a : FlightAlert,
    alert p = Some a ∧
    In (eventPlane e) (nearby p) ∧
    announces a
      (value (getMultipleAircraftInfo (typeFeed p)
                (List.map icao24 (nearby p)) (aircraftCache w)))
      (sinks p) e ∧
    match e with
    | Toasted _ t => (0 <= distanceKm t <= radius a)%R
    | Notified _ n => (0 <= bodyDistanceKm n <= radius a)%R
    end.
Proof.
  destruct (polled p) eqn:Hp.
  - destruct (polled_alert p Hp) as [a Ha].
    rewrite (fetchAircraft_shown p w a Ha Hp). intros Hin.
    apply trackAll_events in Hin as [[] | [Hpl Hsays]].
    exists a. split; [exact Ha|]. split; [exact Hpl|].
    split; [exact Hsays|].
    assert (Hrad : inRadius (alert_latitude a) (alert_longitude a)
                     (radius a) (eventPlane e) = true).
    { revert Hpl. unfold nearby. rewrite Ha.
      destruct (negb (active a) || negb (enabled p)); [intros []|].
      intros [_ H]%getAircraftInRadius_In. exact H. }
    apply inRadius_spec in Hrad as (lat & lon & Hlat & Hlon & _ & _ & Hd).
    destruct Hsays as (lat' & lon' & model & info & Hlat' & Hlon' & _ & _ & _
                       & Hsays).
    assert (lat' = lat) as -> by congruence.
    assert (lon' = lon) as -> by congruence.
    pose proof (calculateDistance_range (alert_latitude a)
                  (alert_longitude a) lat lon) as [Hlo _].
    destruct e as [pl t | pl n].
    + destruct Hsays as (_ & _ & -> & _). auto.
    + destruct Hsays as (_ & _ & _ & -> & _). auto.
  - rewrite (fetchAircraft_idle p w Hp). intros [].
Qed.

Lemma alerts_announce_witness :
  let p := Scenario.pollWith (Scenario.reporting [Scenario.overhead])
             Scenario.quiet in
  let e := Toasted (parseAircraft Scenario.overhead)
             {| toastTitle := "Alert: Boeing 737 detected!";
                flight := "SAS1421";
                ident := "SE-RJX";
                typeName := "737-86N";
                distanceKm := 0;
                altitudeM := Some 3048%R;
                duration := 10000 |} in
  ∃ a : FlightAlert,
    alert p = Some a ∧
    In (eventPlane e) (nearby p) ∧
    announces a
      (value (getMultipleAircraftInfo (typeFeed p)
                (List.map icao24 (nearby p)) (aircraftCache Scenario.fresh)))
      (sinks p) e ∧
    match e with
    | Toasted _ t => (0 <= distanceKm t <= radius a)%R
    | Notified _ n => (0 <= bodyDistanceKm n <= radius a)%R
    end.
Proof.
  intros p e.
  apply (alerts_announce p Scenario.fresh e).
  unfold p, e. rewrite first_sighting_shown. left. reflexivity.
Defined.

(** ** The alert engine: an empty reply, and a pause *)

Lemma cleanUp_empty (alerted : gset string) : cleanUp ∅ alerted = ∅.
Proof.
  apply set_eq. intros id. rewrite elem_of_cleanUp. set_solver.
Qed.

Lemma fetchAircraft_empty (p : Poll) (w : World) :
  polled p = true →
  (∀ box, getStatesInArea (geoFeed p) box = []) →
  fetchAircraft p w
  = {| after :=
         {| hook :=
              {| aircraft := [];
                 isLoading := false;
                 error := None;
                 lastUpdate := Some (now p);
                 previousAircraftRef := ∅;
                 alertedAircraftRef := ∅ |};
            aircraftCache := aircraftCache w |};
       shown := []; lookups := []; logged := None |}.
Proof.
  intros Hp Hgeo. destruct (polled_alert p Hp) as [a Ha].
  unfold polled in Hp. rewrite Ha in Hp.
  unfold fetchAircraft. rewrite Ha.
  apply andb_true_iff in Hp as [-> ->]. cbn [negb orb].
  unfold getAircraftInRadius. rewrite Hgeo.
  cbn [List.filter List.map trackAll].
  unfold getMultipleAircraftInfo.
  cbn [length batchLoop value cacheAfter requested currentAircraftSet
       alertedAircraft emitted].
  rewrite cleanUp_empty. reflexivity.
Qed.

(** X16. An empty reply of the geo feed, which is also what a failed
    request gives, is not reported and wipes the memory of the hook: the
    cycle ends with no error, an empty list, and both the previous presence
    set and the alerted set empty, whatever they held. So at the next cycle
    that runs to its end every aircraft of the area that matches the
    watchlist is alerted, also one that had been alerted before. *)
Theorem empty_reply_resets (p : Poll) (w : World) :
  polled p = true →
  (∀ box, getStatesInArea (geoFeed p) box = []) →
  fetchAircraft p w
  = {| after :=
         {| hook :=
              {| aircraft := [];
                 isLoading := false;
                 error := None;
                 lastUpdate := Some (now p);
                 previousAircraftRef := ∅;
                 alertedAircraftRef := ∅ |};
            aircraftCache := aircraftCache w |};
       shown := []; lookups := []; logged := None |} ∧
  ∀ (p' : Poll) (id : string),
    completes p' (after (fetchAircraft p w)) →
    id ∈ presence p' →
    watched p' (after (fetchAircraft p w)) id = true →
    toastsFor id (shown (fetchAircraft p' (after (fetchAircraft p w)))) = 1.
Proof.
  intros Hp Hgeo. split; [apply fetchAircraft_empty; assumption|].
  intros p' id Hc Hin Hw.
  apply (poll_fires p' _ id Hc Hin Hw);
    rewrite (fetchAircraft_empty p w Hp Hgeo); cbn; set_solver.
Qed.

Lemma empty_reply_resets_witness :
  let p := Scenario.pollWith Scenario.geoDown Scenario.quiet in
  let w := fst (run [Scenario.pollWith
                       (Scenario.reporting [Scenario.overhead])
                       Scenario.quiet] Scenario.fresh) in
  fetchAircraft p w
  = {| after :=
         {| hook :=
              {| aircraft := [];
                 isLoading := false;
                 error := None;
                 lastUpdate := Some (now p);
                 previousAircraftRef := ∅;
                 alertedAircraftRef := ∅ |};
            aircraftCache := aircraftCache w |};
       shown := []; lookups := []; logged := None |} ∧
  ∀ (p' : Poll) (id : string),
    completes p' (after (fetchAircraft p w)) →
    id ∈ presence p' →
    watched p' (after (fetchAircraft p w)) id = true →
    toastsFor id (shown (fetchAircraft p' (after (fetchAircraft p w)))) = 1.
Proof.
  intros p w.
  apply (empty_reply_resets p w); [reflexivity|].
  intros box. reflexivity.
Defined.

Lemma trackerEffect_polled (p : Poll) (w : World) :
  polled p = true → trackerEffect p w = fetchAircraft p w.
Proof.
  unfold polled, trackerEffect. destruct (alert p) as [a|]; [|discriminate].
  destruct (active a), (enabled p); simpl; intros; congruence.
Qed.

Lemma trackerEffect_idle (p : Poll) (w : World) :
  polled p = false →
  trackerEffect p w
  = {| after :=
         {| hook :=
              {| aircraft := [];
                 isLoading := isLoading (hook w);
                 error := error (hook w);
                 lastUpdate := lastUpdate (hook w);
                 previousAircraftRef := previousAircraftRef (hook w);
                 alertedAircraftRef := alertedAircraftRef (hook w) |};
            aircraftCache := aircraftCache w |};
       shown := []; lookups := []; logged := None |}.
Proof.
  unfold polled, trackerEffect. destruct (alert p) as [a|]; [|reflexivity].
  destruct (active a), (enabled p); simpl; intros; congruence.
Qed.

(** X17. A pause keeps the memory of the hook. When the alert is missing,
    inactive or disabled, the effect of the hook empties the list and
    leaves the previous presence set, the alerted set and the cache as
    they are, and a call of [fetchAircraft] changes nothing at all. So
    when the effect runs again after the pause, an aircraft that was in
    either set before the pause gets no toast. *)
Theorem pause_keeps_memory (p : Poll) (w : World) :
  polled p = false →
  aircraft (hook (after (trackerEffect p w))) = [] ∧
  previousAircraftRef (hook (after (trackerEffect p w)))
  = previousAircraftRef (hook w) ∧
  alertedAircraftRef (hook (after (trackerEffect p w)))
  = alertedAircraftRef (hook w) ∧
  aircraftCache (after (trackerEffect p w)) = aircraftCache w ∧
  after (fetchAircraft p w) = w ∧
  ∀ (p' : Poll) (id : string),
    id ∈ previousAircraftRef (hook w) ∨ id ∈ alertedAircraftRef (hook w) →
    toastsFor id (shown (trackerEffect p' (after (trackerEffect p w)))) = 0.
Proof.
  intros Hp. rewrite (trackerEffect_idle p w Hp), (fetchAircraft_idle p w Hp).
  cbn [after hook aircraft previousAircraftRef alertedAircraftRef
       aircraftCache].
  repeat (split; [reflexivity|]).
  intros p' id Hid. destruct (polled p') eqn:Hp'.
  - rewrite (trackerEffect_polled p' _ Hp').
    destruct Hid as [Hprev | Hal].
    + apply poll_previous. exact Hprev.
    + apply poll_alerted. exact Hal.
  - rewrite (trackerEffect_idle p' _ Hp'). reflexivity.
Qed.

Lemma pause_keeps_memory_witness :
  let p := pollOf (toggleAlert (Some Scenario.stockholm))
             (Scenario.reporting [Scenario.overhead]) Scenario.allBoeing
             Scenario.quiet 1700000032 in
  let w := fst (run [Scenario.pollWith
                       (Scenario.reporting [Scenario.overhead])
                       Scenario.quiet] Scenario.fresh) in
  aircraft (hook (after (trackerEffect p w))) = [] ∧
  previousAircraftRef (hook (after (trackerEffect p w)))
  = previousAircraftRef (hook w) ∧
  alertedAircraftRef (hook (after (trackerEffect p w)))
  = alertedAircraftRef (hook w) ∧
  aircraftCache (after (trackerEffect p w)) = aircraftCache w ∧
  after (fetchAircraft p w) = w ∧
  ∀ (p' : Poll) (id : string),
    id ∈ previousAircraftRef (hook w) ∨ id ∈ alertedAircraftRef (hook w) →
    toastsFor id (shown (trackerEffect p' (after (trackerEffect p w)))) = 0.
Proof.
  intros p w. apply (pause_keeps_memory p w). reflexivity.
Defined.

(** ** The page, the selector and the map *)

Lemma watched_empty_watchlist (p : Poll) (w : World) (a : FlightAlert)
    (id : string) :
  alert p = Some a → aircraftModels a = [] → watched p w id = false.
Proof.
  intros Ha Hnil. unfold watched, matchesWatchlist. rewrite Ha, Hnil.
  destruct (resolvedModel _ id); reflexivity.
Qed.

(** X18. The handlers of the page. Toggling the alert twice gives the
    alert back. After [handleCoordinateSelect] the alert is inactive, so a
    call of [fetchAircraft] with it changes nothing and shows nothing until
    the alert is toggled. A selection of models made while there is no
    alert is dropped: the alert that [handleCoordinateSelect] then makes
    has an empty watchlist, and once toggled on no cycle with it shows a
    toast. A selection made on an alert survives a change of the area, and
    toggling the alert then gives an active alert with that selection. *)
Theorem page_handlers :
  (∀ alert, toggleAlert (toggleAlert alert) = alert) ∧
  (∀ generatedId lat lon rad prev geo types s time w,
     fetchAircraft
       (pollOf (handleCoordinateSelect generatedId lat lon rad prev)
          geo types s time) w
     = {| after := w; shown := []; lookups := []; logged := None |}) ∧
  (∀ selected generatedId lat lon rad geo types s time w id,
     toastsFor id
       (shown
          (fetchAircraft
             (pollOf
                (toggleAlert
                   (handleCoordinateSelect generatedId lat lon rad
                      (handleAircraftSelection selected None)))
                geo types s time) w)) = 0) ∧
  (∀ selected generatedId lat lon rad a,
     ∃ a',
       toggleAlert
         (handleCoordinateSelect generatedId lat lon rad
            (handleAircraftSelection selected (Some a))) = Some a' ∧
       aircraftModels a' = selected ∧ active a' = true ∧
       alert_latitude a' = lat ∧ alert_longitude a' = lon ∧
       radius a' = rad ∧
       alert_id a'
       = if truthyStr (alert_id a) then alert_id a else generatedId).
Proof.
  split; [|split; [|split]].
  - intros [[i la lo r ms ac]|]; [|reflexivity]. simpl.
    rewrite negb_involutive. reflexivity.
  - intros. apply fetchAircraft_idle. reflexivity.
  - intros selected generatedId lat lon rad geo types s time w id.
    match goal with
    | |- toastsFor id (shown (fetchAircraft ?p w)) = 0 =>
        destruct (toastsFor id (shown (fetchAircraft p w))) as [|n] eqn:Ht;
        [reflexivity|];
        destruct (poll_toast_needs p w id) as (_ & _ & Hw & _); [lia|];
        rewrite (watched_empty_watchlist p w _ id eq_refl eq_refl) in Hw
    end.
    discriminate.
  - intros selected generatedId lat lon rad a. eexists. split; [reflexivity|].
    cbn. auto 10.
Qed.





(** X20. The zoom of the map. The zoom that [MapUpdater] sets is between 8
    and 11 and never grows when the radius grows; it is 11 exactly for a
    radius of at most 20 and 8 exactly for a radius above 100. *)
Theorem zoomFor_steps :
  (∀ r, 8 ≤ zoomFor r ≤ 11) ∧
  (∀ r1 r2, (r1 <= r2)%R → zoomFor r2 ≤ zoomFor r1) ∧
  (∀ r, zoomFor r = 11 ↔ (r <= 20)%R) ∧
  (∀ r, zoomFor r = 8 ↔ (100 < r)%R).
Proof.
  unfold zoomFor, gtR.
  split; [|split; [|split]]; intros;
    repeat match goal with
           | |- context [Rlt_dec ?x ?y] => destruct (Rlt_dec x y)
           end;
    try lia; try lra; (split; intros; (lia || lra)).
Qed.
